(** * Surya Plaza Hotel: client-side behaviour layer

    A shallow embedding of the two script files of the site:

    - main.js ("Final, Consolidated JavaScript", vFinal), in the modules
      [MainTheme], [MainReveal], [MainSpy] and [MainGallery];
    - assets/js/script.js, version 3.0, in the modules [V3Theme],
      [V3Reveal], [V3Spy] and [V3Gallery].

    The scripts are DOM event wiring.  Each component is modelled as a
    record holding the part of the browser state its listeners read or
    write, with one function per JavaScript function or listener.  The
    gallery has a [dispatch] function that runs the listeners a click or
    a key press reaches.  A listener that throws keeps the mutations it
    made before the throw, as in JavaScript, so the gallery listeners
    return the new state together with a [completion].

    The page is expected to honour the DOM contract of the scripts: the
    lightbox has its image, caption, close, previous and next elements.

    script.js also carries, appended, the older version 2.1 of the same
    script.  Its listeners are those of version 3.0 up to the order of
    two statements (the visible list is recomputed inside [openLightbox]
    as well, the navigation callbacks remove the class before adding
    it) and are not embedded a second time. *)

From stdpp Require Import base gmap sets list strings.
From Stdlib Require Import ZArith Lia.

Open Scope string_scope.

(** ** JavaScript values used by the scripts *)

Module JS.

(** [ToBoolean] on a string: only the empty string is falsy. *)
Definition truthy (s : string) : bool := negb (String.eqb s "").

(** [ToBoolean] on a value that is a string or [null]/[undefined]. *)
Definition truthy_opt (v : option string) : bool :=
  match v with
  | Some s => truthy s
  | None => false
  end.

(** [a === b] on values that are strings or [null]/[undefined]. *)
Definition strict_eq (a b : option string) : bool := bool_decide (a = b).

(** The numbers the lightbox cursor can hold: the scripts only add one,
    subtract one, add a length and take a remainder, starting from
    array positions, so every finite value is an integer far below
    2^53, where double arithmetic is exact.  A remainder by zero is
    [NaN], and [NaN] is absorbing. *)
Inductive num : Type :=
| Int (z : Z)
| NaN.

Definition add (a b : num) : num :=
  match a, b with
  | Int x, Int y => Int (x + y)
  | _, _ => NaN
  end.

Definition sub (a b : num) : num :=
  match a, b with
  | Int x, Int y => Int (x - y)
  | _, _ => NaN
  end.

(** The [%] operator: truncated remainder, sign of the dividend. *)
Definition rem (a b : num) : num :=
  match a, b with
  | Int x, Int y => if Z.eqb y 0 then NaN else Int (Z.rem x y)
  | _, _ => NaN
  end.

Definition of_nat (n : nat) : num := Int (Z.of_nat n).

(** [arr[n]]: [None] stands for [undefined]. *)
Definition index {A : Type} (arr : list A) (n : num) : option A :=
  match n with
  | Int z => if Z.leb 0 z then arr !! Z.to_nat z else None
  | NaN => None
  end.

(** [arr.indexOf(x)] on an array of references. *)
Fixpoint indexOf_from (k : nat) (x : nat) (arr : list nat) : num :=
  match arr with
  | [] => Int (-1)
  | y :: rest => if Nat.eqb y x then of_nat k else indexOf_from (S k) x rest
  end.

Definition indexOf (arr : list nat) (x : nat) : num := indexOf_from 0 x arr.

(** How a listener ends. *)
Inductive completion : Type :=
| Normal
| TypeError.

End JS.

(** ** DOM token lists ([classList]) *)

Module DOM.

Definition contains (cl : list string) (tok : string) : bool :=
  bool_decide (tok ∈ cl).

Definition add (cl : list string) (tok : string) : list string :=
  if contains cl tok then cl else cl ++ [tok].

Definition remove (cl : list string) (tok : string) : list string :=
  filter (λ t, t ≠ tok) cl.

(** [classList.toggle(tok, force)] *)
Definition toggle (cl : list string) (tok : string) (force : bool) : list string :=
  if force then add cl tok else remove cl tok.

End DOM.

(** ** Theme: the state both theme managers act on *)

Module Theme.

Record state : Type := State {
  localStorage : gmap string string;
  (** attributes of [document.documentElement] *)
  documentElement : gmap string string;
  (** [matchMedia('(prefers-color-scheme: dark)').matches] *)
  prefersDark : bool;
}.

Definition setAttribute (k v : string) (s : state) : state :=
  State (localStorage s) (<[k := v]> (documentElement s)) (prefersDark s).

Definition setItem (k v : string) (s : state) : state :=
  State (<[k := v]> (localStorage s)) (documentElement s) (prefersDark s).

Definition setPrefersDark (b : bool) (s : state) : state :=
  State (localStorage s) (documentElement s) b.

Definition getItem (k : string) (s : state) : option string := localStorage s !! k.

Definition getAttribute (k : string) (s : state) : option string := documentElement s !! k.

Inductive event : Type :=
| ToggleClick
| SystemChange (matches : bool).

(** [currentTheme === 'dark' ? 'light' : 'dark'] *)
Definition flipped (currentTheme : option string) : string :=
  if JS.strict_eq currentTheme (Some "dark") then "light" else "dark".

Definition ofMatches (matches : bool) : string :=
  if matches then "dark" else "light".

End Theme.

(** ** main.js: theme manager (section 3 of the file) *)

Module MainTheme.
Import Theme.

(** [applyTheme]: sets the marker attribute and persists the value. *)
Definition applyTheme (theme : string) (s : state) : state :=
  setItem "theme" theme (setAttribute "data-theme" theme s).

Definition getInitialTheme (s : state) : string :=
  match getItem "theme" s with
  | Some savedTheme =>
      if JS.truthy savedTheme then savedTheme else ofMatches (prefersDark s)
  | None => ofMatches (prefersDark s)
  end.

(** The click listener of [#theme-toggle]. *)
Definition onToggleClick (s : state) : state :=
  let currentTheme := getAttribute "data-theme" s in
  applyTheme (flipped currentTheme) s.

(** The [change] listener of the media query. *)
Definition onSystemChange (matches : bool) (s : state) : state :=
  if JS.truthy_opt (getItem "theme" s) then s else applyTheme (ofMatches matches) s.

(** [initThemeManager]: returns early when [#theme-toggle] is missing;
    the boolean tells whether the two listeners were registered. *)
Definition initThemeManager (themeToggle : bool) (s : state) : state * bool :=
  if themeToggle then (applyTheme (getInitialTheme s) s, true) else (s, false).

(** One event.  The host updates the media query before it runs the
    [change] listeners. *)
Definition handle (wired : bool) (ev : event) (s : state) : state :=
  match ev with
  | ToggleClick => if wired then onToggleClick s else s
  | SystemChange matches =>
      let s' := setPrefersDark matches s in
      if wired then onSystemChange matches s' else s'
  end.

(** A page load followed by a sequence of events. *)
Definition run (themeToggle : bool) (evs : list event) (s : state) : state :=
  let '(s0, wired) := initThemeManager themeToggle s in
  foldl (λ acc ev, handle wired ev acc) s0 evs.

(** The invariant of main.js after initialization: the stored value is
    the applied theme, and it is truthy. *)
Definition synced (s : state) : Prop :=
  ∃ t, getItem "theme" s = Some t ∧ getAttribute "data-theme" s = Some t
       ∧ JS.truthy t = true.

End MainTheme.

(** ** script.js 3.0: theme toggle *)

Module V3Theme.
Import Theme.

(** The click listener of [#theme-toggle]. *)
Definition onToggleClick (s : state) : state :=
  let currentTheme := getAttribute "data-theme" s in
  let newTheme := flipped currentTheme in
  setItem "theme" newTheme (setAttribute "data-theme" newTheme s).

(** [initThemeToggle]: applies the initial theme without persisting
    it; the boolean tells whether the click listener was registered. *)
Definition initThemeToggle (toggle : bool) (s : state) : state * bool :=
  let savedTheme := getItem "theme" s in
  let prefersDark := prefersDark s in
  let s' :=
    if JS.strict_eq savedTheme (Some "dark")
       || (negb (JS.truthy_opt savedTheme) && prefersDark)
    then setAttribute "data-theme" "dark" s
    else setAttribute "data-theme" "light" s in
  (s', toggle).

(** One event; this version registers no media-query listener. *)
Definition handle (wired : bool) (ev : event) (s : state) : state :=
  match ev with
  | ToggleClick => if wired then onToggleClick s else s
  | SystemChange matches => setPrefersDark matches s
  end.

Definition run (toggle : bool) (evs : list event) (s : state) : state :=
  let '(s0, wired) := initThemeToggle toggle s in
  foldl (λ acc ev, handle wired ev acc) s0 evs.

End V3Theme.

(** ** Viewport reveal *)

Module Reveal.

(** An [IntersectionObserverEntry]; elements are node identifiers. *)
Record entry : Type := Entry {
  target : nat;
  isIntersecting : bool;
}.

Record state : Type := State {
  (** [classList] of every element; an element without an entry has
      no class *)
  classList : gmap nat (list string);
  (** [style.transitionDelay] in milliseconds, where the script set it *)
  transitionDelay : gmap nat Z;
  (** observation targets of the fade-in observer *)
  observed : gset nat;
  (** observation targets of the stagger observer (script.js only) *)
  staggerObserved : gset nat;
}.

Definition classesOf (el : nat) (s : state) : list string :=
  default [] (classList s !! el).

(** [el.classList.add(tok)] *)
Definition classAdd (el : nat) (tok : string) (s : state) : state :=
  State (<[el := DOM.add (classesOf el s) tok]> (classList s))
        (transitionDelay s) (observed s) (staggerObserved s).

Definition setDelay (el : nat) (ms : Z) (s : state) : state :=
  State (classList s) (<[el := ms]> (transitionDelay s))
        (observed s) (staggerObserved s).

(** [observer.observe(el)] and [observer.unobserve(el)] *)
Definition observe (el : nat) (s : state) : state :=
  State (classList s) (transitionDelay s) ({[el]} ∪ observed s) (staggerObserved s).

Definition unobserve (el : nat) (s : state) : state :=
  State (classList s) (transitionDelay s) (observed s ∖ {[el]}) (staggerObserved s).

Definition staggerObserve (el : nat) (s : state) : state :=
  State (classList s) (transitionDelay s) (observed s) ({[el]} ∪ staggerObserved s).

Definition staggerUnobserve (el : nat) (s : state) : state :=
  State (classList s) (transitionDelay s) (observed s) (staggerObserved s ∖ {[el]}).

Definition revealed (el : nat) (s : state) : bool :=
  DOM.contains (classesOf el s) "is-visible".

(** The host reports only on the observation targets of an observer. *)
Definition hostBatch (targets : gset nat) (entries : list entry) : list entry :=
  filter (λ e, target e ∈ targets) entries.

(** How often, along a run, the element goes from not revealed to
    revealed: the number of steps that add the class to it. *)
Fixpoint additions {A : Type} (step : state → A → state) (el : nat)
    (s : state) (evs : list A) : nat :=
  match evs with
  | [] => 0
  | ev :: rest =>
      let s' := step s ev in
      (if negb (revealed el s) && revealed el s' then 1 else 0)
      + additions step el s' rest
  end.

End Reveal.

Module MainReveal.
Import Reveal.

(** The body of [entries.forEach] in [observerCallback]. *)
Definition onEntry (s : state) (e : entry) : state :=
  if isIntersecting e
  then unobserve (target e) (classAdd (target e) "is-visible" s)
  else s.

Definition observerCallback (entries : list entry) (s : state) : state :=
  foldl onEntry s entries.

(** [animatedElements.forEach]: cards get an increasing delay, and
    every element is observed.  [card el] tells whether the element
    carries one of the classes room-card, feature-card, pillar-card. *)
Fixpoint observeAll (card : nat → bool) (delay : Z) (els : list nat) (s : state) : state :=
  match els with
  | [] => s
  | el :: rest =>
      if card el
      then observeAll card (delay + 100) rest (observe el (setDelay el delay s))
      else observeAll card delay rest (observe el s)
  end.

(** [initScrollObserver]: nothing is observed on a page without
    animated elements. *)
Definition initScrollObserver (card : nat → bool) (animatedElements : list nat)
    (s : state) : state :=
  match animatedElements with
  | [] => s
  | _ => observeAll card 0 animatedElements s
  end.

(** A batch as the host delivers it. *)
Definition notify (entries : list entry) (s : state) : state :=
  observerCallback (hostBatch (observed s) entries) s.

End MainReveal.

Module V3Reveal.
Import Reveal.

(** The body of [entries.forEach] in the callback of [fadeInObserver]. *)
Definition onFadeEntry (s : state) (e : entry) : state :=
  if isIntersecting e
  then unobserve (target e) (classAdd (target e) "is-visible" s)
  else s.

Definition fadeInCallback (entries : list entry) (s : state) : state :=
  foldl onFadeEntry s entries.

(** The [for] loop over [entry.target.children], from position [i]. *)
Fixpoint revealChildren (i : Z) (elements : list nat) (s : state) : state :=
  match elements with
  | [] => s
  | el :: rest =>
      revealChildren (i + 1) rest (classAdd el "is-visible" (setDelay el (i * 100) s))
  end.

(** The body of [entries.forEach] in the callback of [staggerObserver];
    [children] gives the element children of a node. *)
Definition onStaggerEntry (children : nat → list nat) (s : state) (e : entry) : state :=
  if isIntersecting e
  then staggerUnobserve (target e) (revealChildren 0 (children (target e)) s)
  else s.

Definition staggerCallback (children : nat → list nat) (entries : list entry)
    (s : state) : state :=
  foldl (onStaggerEntry children) s entries.

(** [initScrollAnimations] *)
Definition initScrollAnimations (fadeIn gridStagger : list nat) (s : state) : state :=
  foldl (λ acc grid, staggerObserve grid acc)
        (foldl (λ acc el, observe el acc) s fadeIn) gridStagger.

(** The batches the page receives: one per observer callback run. *)
Inductive batch : Type :=
| FadeBatch (entries : list entry)
| StaggerBatch (entries : list entry).

Definition deliver (children : nat → list nat) (s : state) (b : batch) : state :=
  match b with
  | FadeBatch entries => fadeInCallback entries s
  | StaggerBatch entries => staggerCallback children entries s
  end.

(** A batch as the host delivers it. *)
Definition notify (children : nat → list nat) (s : state) (b : batch) : state :=
  match b with
  | FadeBatch entries => fadeInCallback (hostBatch (observed s) entries) s
  | StaggerBatch entries =>
      staggerCallback children (hostBatch (staggerObserved s) entries) s
  end.

End V3Reveal.

(** ** Scroll-spy navigation *)

Module Spy.

(** A navigation link: its [href] attribute and its [classList]. *)
Record link : Type := Link {
  href : option string;
  classList : list string;
}.

(** An observed section, with its [id] attribute. *)
Record section : Type := Section_ {
  id : option string;
}.

Record entry : Type := Entry {
  target : section;
  isIntersecting : bool;
}.

Definition active (l : link) : bool := DOM.contains (classList l) "active".

(** [link.classList.toggle('active', link.getAttribute('href') === frag)] *)
Definition mark (frag : string) (l : link) : link :=
  Link (href l)
       (DOM.toggle (classList l) "active" (JS.strict_eq (href l) (Some frag))).

(** The entries of a batch that report an intersection, in delivery
    order. *)
Definition intersecting (entries : list entry) : list entry :=
  filter (λ e, isIntersecting e = true) entries.

(** At most one link of the instance carries the class "active". *)
Definition atMostOneActive (links : list link) : Prop :=
  ∀ i j li lj, links !! i = Some li → links !! j = Some lj →
               active li = true → active lj = true → i = j.

(** The shape the three observer callbacks share: they differ in how
    the fragment is read off the section. *)
Definition onEntryWith (fragment : section → string) (links : list link) (e : entry)
    : list link :=
  if isIntersecting e then mark (fragment (target e)) <$> links else links.

End Spy.

Module MainSpy.
Import Spy.

(** [`#${entry.target.id}`]: the [id] property is the empty string
    when the attribute is missing. *)
Definition fragment (sec : section) : string := "#" +:+ default "" (id sec).

(** The body of [entries.forEach] in [initPolicyNavObserver]. *)
Definition onEntry (policyNavLinks : list link) (e : entry) : list link :=
  if isIntersecting e
  then mark (fragment (target e)) <$> policyNavLinks
  else policyNavLinks.

Definition observerCallback (entries : list entry) (policyNavLinks : list link)
    : list link :=
  foldl onEntry policyNavLinks entries.

End MainSpy.

Module V3Spy.
Import Spy.

(** [`#${entry.target.getAttribute('id')}`]: a missing attribute is
    [null], which the template prints as "null". *)
Definition fragment (sec : section) : string := "#" +:+ default "null" (id sec).

(** The body of [entries.forEach]; [initAttractionsNav] and
    [initPolicyNav] have the same callback and differ in the selectors
    and the root margin. *)
Definition onEntry (navLinks : list link) (e : entry) : list link :=
  if isIntersecting e
  then mark (fragment (target e)) <$> navLinks
  else navLinks.

Definition attractionsCallback (entries : list entry) (navLinks : list link)
    : list link :=
  foldl onEntry navLinks entries.

Definition policyCallback (entries : list entry) (navLinks : list link)
    : list link :=
  foldl onEntry navLinks entries.

End V3Spy.

(** ** Gallery page: filter and lightbox *)

Module Gallery.

(** A [.gallery-item] anchor. *)
Record item : Type := Item {
  href : string;
  (** [dataset.caption] *)
  caption : option string;
  (** [dataset.category] *)
  category : option string;
  (** [style.display] *)
  display : string;
}.

(** A [.filter-btn] control. *)
Record button : Type := Button {
  (** [dataset.filter] *)
  filter_ : option string;
  classList : list string;
}.

Definition setDisplay (d : string) (it : item) : item :=
  Item (href it) (caption it) (category it) d.

(** What the script never writes: everything but [style.display]. *)
Definition identity (it : item) : string * option string * option string :=
  (href it, caption it, category it).

Definition visible (it : item) : bool := negb (String.eqb (display it) "none").

(** [filter === 'all' || item.dataset.category === filter] *)
Definition matches (filter : option string) (it : item) : bool :=
  JS.strict_eq filter (Some "all") || JS.strict_eq (category it) filter.

(** [filterButtons.forEach(btn => btn.classList.remove('active'));
    button.classList.add('active')], where [button] is at position [b]. *)
Definition activate (b : nat) (buttons : list button) : list button :=
  imap (λ j btn,
          let cl := DOM.remove (classList btn) "active" in
          Button (filter_ btn) (if Nat.eqb j b then DOM.add cl "active" else cl))
       buttons.

(** The elements a click can land on. *)
Inductive node : Type :=
| FilterBtn (i : nat)
| GalleryItem (i : nat)
| Lightbox
| LightboxClose
| LightboxPrev
| LightboxNext
(** the image or the caption inside the lightbox *)
| LightboxContent
| Elsewhere.

(** Whether a click on the node bubbles to [#lightbox]. *)
Definition insideLightbox (n : node) : bool :=
  match n with
  | Lightbox | LightboxClose | LightboxPrev | LightboxNext | LightboxContent => true
  | _ => false
  end.

End Gallery.

Module V3Gallery.
Import Gallery.

Record state : Type := State {
  filterButtons : list button;
  galleryItems : list item;
  (** [classList] of [#lightbox] *)
  lightbox : list string;
  (** [lightboxImg.src] *)
  lightboxImg : string;
  (** [lightboxCaption.textContent] *)
  lightboxCaption : string;
  (** references to gallery items, as positions in [galleryItems] *)
  allVisibleItems : list nat;
  currentIndex : JS.num;
}.

Definition setButtons (bs : list button) (s : state) : state :=
  State bs (galleryItems s) (lightbox s) (lightboxImg s) (lightboxCaption s)
        (allVisibleItems s) (currentIndex s).

Definition setItems (its : list item) (s : state) : state :=
  State (filterButtons s) its (lightbox s) (lightboxImg s) (lightboxCaption s)
        (allVisibleItems s) (currentIndex s).

Definition setLightbox (cl : list string) (s : state) : state :=
  State (filterButtons s) (galleryItems s) cl (lightboxImg s) (lightboxCaption s)
        (allVisibleItems s) (currentIndex s).

Definition setImg (src : string) (s : state) : state :=
  State (filterButtons s) (galleryItems s) (lightbox s) src (lightboxCaption s)
        (allVisibleItems s) (currentIndex s).

Definition setCaption (text : string) (s : state) : state :=
  State (filterButtons s) (galleryItems s) (lightbox s) (lightboxImg s) text
        (allVisibleItems s) (currentIndex s).

Definition setVisibleItems (refs : list nat) (s : state) : state :=
  State (filterButtons s) (galleryItems s) (lightbox s) (lightboxImg s)
        (lightboxCaption s) refs (currentIndex s).

Definition setIndex (n : JS.num) (s : state) : state :=
  State (filterButtons s) (galleryItems s) (lightbox s) (lightboxImg s)
        (lightboxCaption s) (allVisibleItems s) n.

(** The state [initGallery] leaves behind. *)
Definition initGallery (buttons : list button) (items : list item)
    (lightboxClasses : list string) (src text : string) : state :=
  State buttons items lightboxClasses src text [] (JS.Int 0).

(** The click listener of the filter button at position [b]. *)
Definition onFilterClick (b : nat) (s : state) : state :=
  match filterButtons s !! b with
  | None => s
  | Some button =>
      let s1 := setButtons (activate b (filterButtons s)) s in
      let filter := filter_ button in
      setItems ((λ it, setDisplay (if matches filter it then "block" else "none") it)
                  <$> galleryItems s1) s1
  end.

(** Positions, from [k], of the items whose display is not 'none'. *)
Fixpoint visibleFrom (k : nat) (items : list item) : list nat :=
  match items with
  | [] => []
  | it :: rest =>
      if visible it then k :: visibleFrom (S k) rest else visibleFrom (S k) rest
  end.

Definition updateVisibleItems (s : state) : state :=
  setVisibleItems (visibleFrom 0 (galleryItems s)) s.

(** [openLightbox]: [item] is a reference into [galleryItems]; reading
    [item.href] of [undefined] throws after the cursor was written. *)
Definition openLightbox (clickedIndex : JS.num) (s : state) : state * JS.completion :=
  let s1 := setIndex clickedIndex s in
  match JS.index (allVisibleItems s1) (currentIndex s1) with
  | None => (s1, JS.TypeError)
  | Some ref =>
      match galleryItems s1 !! ref with
      | None => (s1, JS.TypeError)
      | Some item =>
          (setLightbox (DOM.add (lightbox s1) "active")
             (setCaption (default "" (caption item))
                (setImg (href item) s1)),
           JS.Normal)
      end
  end.

Definition closeLightbox (s : state) : state :=
  setLightbox (DOM.remove (lightbox s) "active") s.

Definition length_ (s : state) : JS.num := JS.of_nat (length (allVisibleItems s)).

Definition showPrev (s : state) : state * JS.completion :=
  openLightbox
    (JS.rem (JS.add (JS.sub (currentIndex s) (JS.Int 1)) (length_ s)) (length_ s)) s.

Definition showNext (s : state) : state * JS.completion :=
  openLightbox (JS.rem (JS.add (currentIndex s) (JS.Int 1)) (length_ s)) s.

(** The click listener of the gallery item at position [i]. *)
Definition onItemClick (i : nat) (s : state) : state * JS.completion :=
  let s1 := updateVisibleItems s in
  openLightbox (JS.indexOf (allVisibleItems s1) i) s1.

(** The click listener of [#lightbox] itself. *)
Definition onLightboxClick (target : node) (s : state) : state :=
  match target with
  | Lightbox => closeLightbox s
  | _ => s
  end.

(** The [keydown] listener of the document. *)
Definition onKeyDown (key : string) (s : state) : state * JS.completion :=
  if DOM.contains (lightbox s) "active" then
    let s1 := if String.eqb key "Escape" then closeLightbox s else s in
    let '(s2, c2) :=
      if String.eqb key "ArrowLeft" then showPrev s1 else (s1, JS.Normal) in
    match c2 with
    | JS.TypeError => (s2, JS.TypeError)
    | JS.Normal => if String.eqb key "ArrowRight" then showNext s2 else (s2, JS.Normal)
    end
  else (s, JS.Normal).

(** The listener registered on the clicked node itself. *)
Definition onTargetClick (target : node) (s : state) : state * JS.completion :=
  match target with
  | FilterBtn b => (onFilterClick b s, JS.Normal)
  | GalleryItem i =>
      if bool_decide (i < length (galleryItems s)) then onItemClick i s
      else (s, JS.Normal)
  | LightboxClose => (closeLightbox s, JS.Normal)
  | LightboxPrev => showPrev s
  | LightboxNext => showNext s
  | Lightbox | LightboxContent | Elsewhere => (s, JS.Normal)
  end.

Inductive event : Type :=
| Click (target : node)
| KeyDown (key : string).

(** An event runs the listener on its target, then the listeners the
    event bubbles to. *)
Definition dispatch (ev : event) (s : state) : state * JS.completion :=
  match ev with
  | Click target =>
      let '(s1, c1) := onTargetClick target s in
      if insideLightbox target
      then (onLightboxClick target s1, c1)
      else (s1, c1)
  | KeyDown key => onKeyDown key s
  end.

Definition run (evs : list event) (s : state) : state :=
  foldl (λ acc ev, fst (dispatch ev acc)) s evs.

End V3Gallery.

Module MainGallery.
Import Gallery.

(** An element of the [images] array built at initialization. *)
Record image : Type := Image {
  src : string;
  img_caption : option string;
}.

Record state : Type := State {
  filterButtons : list button;
  galleryItems : list item;
  (** [classList] of [#lightbox] *)
  lightbox : list string;
  (** [lightboxImg.src] *)
  lightboxImg : string;
  (** [lightboxCaption.textContent] *)
  lightboxCaption : string;
  images : list image;
  currentIndex : JS.num;
  (** pending [setTimeout(..., 1)] callbacks, oldest first: each sets
      the display of the gallery item at that position to 'block' *)
  timers : list nat;
}.

Definition setButtons (bs : list button) (s : state) : state :=
  State bs (galleryItems s) (lightbox s) (lightboxImg s) (lightboxCaption s)
        (images s) (currentIndex s) (timers s).

Definition setItems (its : list item) (s : state) : state :=
  State (filterButtons s) its (lightbox s) (lightboxImg s) (lightboxCaption s)
        (images s) (currentIndex s) (timers s).

Definition setLightbox (cl : list string) (s : state) : state :=
  State (filterButtons s) (galleryItems s) cl (lightboxImg s) (lightboxCaption s)
        (images s) (currentIndex s) (timers s).

Definition setImg (url : string) (s : state) : state :=
  State (filterButtons s) (galleryItems s) (lightbox s) url (lightboxCaption s)
        (images s) (currentIndex s) (timers s).

Definition setCaption (text : string) (s : state) : state :=
  State (filterButtons s) (galleryItems s) (lightbox s) (lightboxImg s) text
        (images s) (currentIndex s) (timers s).

Definition setIndex (n : JS.num) (s : state) : state :=
  State (filterButtons s) (galleryItems s) (lightbox s) (lightboxImg s)
        (lightboxCaption s) (images s) n (timers s).

Definition setTimers (ts : list nat) (s : state) : state :=
  State (filterButtons s) (galleryItems s) (lightbox s) (lightboxImg s)
        (lightboxCaption s) (images s) (currentIndex s) ts.

(** [initGalleryPage]: no listener is registered on a page without
    filter buttons or without [#lightbox]. *)
Definition initGalleryPage (buttons : list button) (items : list item)
    (lightboxClasses : option (list string)) (url text : string) : option state :=
  match buttons, lightboxClasses with
  | [], _ => None
  | _, None => None
  | _, Some cl =>
      Some (State buttons items cl url text
                  ((λ link, Image (href link) (caption link)) <$> items)
                  (JS.Int 0) [])
  end.

(** Positions, from [k], of the items the filter matches: the timers
    the [forEach] schedules, in order. *)
Fixpoint scheduled (filter : option string) (k : nat) (items : list item) : list nat :=
  match items with
  | [] => []
  | it :: rest =>
      if matches filter it
      then k :: scheduled filter (S k) rest
      else scheduled filter (S k) rest
  end.

(** The click listener of the filter button at position [b]: every
    item is hidden at once; the matching ones are shown by timers. *)
Definition onFilterClick (b : nat) (s : state) : state :=
  match filterButtons s !! b with
  | None => s
  | Some button =>
      let s1 := setButtons (activate b (filterButtons s)) s in
      let filter := filter_ button in
      setTimers (timers s1 ++ scheduled filter 0 (galleryItems s1))
        (setItems (setDisplay "none" <$> galleryItems s1) s1)
  end.

(** The oldest pending timer fires. *)
Definition onTimeout (s : state) : state :=
  match timers s with
  | [] => s
  | i :: rest =>
      setTimers rest
        (setItems (alter (setDisplay "block") i (galleryItems s)) s)
  end.

(** Every pending timer fires, oldest first. *)
Definition flush (s : state) : state :=
  foldl (λ acc _, onTimeout acc) s (timers s).

(** What the timers [ts] do to the item list when they fire in order. *)
Definition fired (ts : list nat) (items : list item) : list item :=
  foldl (λ its i, alter (setDisplay "block") i its) items ts.

(** [openLightbox]: reading [images[currentIndex].src] of [undefined]
    throws after the cursor was written.  Assigning [undefined] to
    [textContent] empties the caption. *)
Definition openLightbox (index : JS.num) (s : state) : state * JS.completion :=
  let s1 := setIndex index s in
  match JS.index (images s1) (currentIndex s1) with
  | None => (s1, JS.TypeError)
  | Some img =>
      (setLightbox (DOM.add (lightbox s1) "active")
         (setCaption (default "" (img_caption img))
            (setImg (src img) s1)),
       JS.Normal)
  end.

Definition closeLightbox (s : state) : state :=
  setLightbox (DOM.remove (lightbox s) "active") s.

Definition length_ (s : state) : JS.num := JS.of_nat (length (images s)).

Definition showPrev (s : state) : state * JS.completion :=
  let s1 :=
    setIndex
      (JS.rem (JS.add (JS.sub (currentIndex s) (JS.Int 1)) (length_ s)) (length_ s)) s in
  openLightbox (currentIndex s1) s1.

Definition showNext (s : state) : state * JS.completion :=
  let s1 := setIndex (JS.rem (JS.add (currentIndex s) (JS.Int 1)) (length_ s)) s in
  openLightbox (currentIndex s1) s1.

(** The click listener of the gallery item at position [index]. *)
Definition onItemClick (index : nat) (s : state) : state * JS.completion :=
  openLightbox (JS.of_nat index) s.

(** The click listener of [#lightbox] itself. *)
Definition onLightboxClick (target : node) (s : state) : state :=
  match target with
  | Lightbox => closeLightbox s
  | _ => s
  end.

(** The [keydown] listener of the document. *)
Definition onKeyDown (key : string) (s : state) : state * JS.completion :=
  if DOM.contains (lightbox s) "active" then
    let s1 := if String.eqb key "Escape" then closeLightbox s else s in
    let '(s2, c2) :=
      if String.eqb key "ArrowLeft" then showPrev s1 else (s1, JS.Normal) in
    match c2 with
    | JS.TypeError => (s2, JS.TypeError)
    | JS.Normal => if String.eqb key "ArrowRight" then showNext s2 else (s2, JS.Normal)
    end
  else (s, JS.Normal).

(** The listener registered on the clicked node itself. *)
Definition onTargetClick (target : node) (s : state) : state * JS.completion :=
  match target with
  | FilterBtn b => (onFilterClick b s, JS.Normal)
  | GalleryItem i =>
      if bool_decide (i < length (galleryItems s)) then onItemClick i s
      else (s, JS.Normal)
  | LightboxClose => (closeLightbox s, JS.Normal)
  | LightboxPrev => showPrev s
  | LightboxNext => showNext s
  | Lightbox | LightboxContent | Elsewhere => (s, JS.Normal)
  end.

Inductive event : Type :=
| Click (target : node)
| KeyDown (key : string)
| TimerFires.

(** An event runs the listener on its target, then the listeners the
    event bubbles to. *)
Definition dispatch (ev : event) (s : state) : state * JS.completion :=
  match ev with
  | Click target =>
      let '(s1, c1) := onTargetClick target s in
      if insideLightbox target
      then (onLightboxClick target s1, c1)
      else (s1, c1)
  | KeyDown key => onKeyDown key s
  | TimerFires => (onTimeout s, JS.Normal)
  end.

Definition run (evs : list event) (s : state) : state :=
  foldl (λ acc ev, fst (dispatch ev acc)) s evs.

End MainGallery.

(** ** The specification's wording, for comparison with the code *)

Module SpecWords.

(** "returns stored value if present, else OS value" *)
Definition initialTheme (stored : option string) (osPrefersDark : bool) : string :=
  match stored with
  | Some v => v
  | None => if osPrefersDark then "dark" else "light"
  end.

End SpecWords.

(** ** Concrete pages used as examples *)

Module Examples.

(** A first visit: nothing stored, no marker attribute, light OS theme. *)
Definition firstVisit : Theme.state := Theme.State ∅ ∅ false.

(** A returning visitor who chose the dark theme, on a light OS theme. *)
Definition darkChosen : Theme.state :=
  Theme.State {["theme" := "dark"]} ∅ false.

(** The first visit after main.js has loaded, and after the OS has then
    switched to the dark theme. *)
Definition firstLoadedMain : Theme.state := MainTheme.run true [] firstVisit.

Definition firstSwitchedMain : Theme.state :=
  MainTheme.run true [Theme.SystemChange true] firstVisit.

(** The two visits after script.js has loaded. *)
Definition firstLoadedV3 : Theme.state := V3Theme.run true [] firstVisit.

Definition darkLoadedV3 : Theme.state := V3Theme.run true [] darkChosen.

(** A page with three animated elements, 1 and 2 observed for fade-in and
    the grid 3 (children 4 and 5) observed for the stagger; main.js
    observes all three with the one observer it has. *)
Definition gridChildren (el : nat) : list nat :=
  if Nat.eqb el 3 then [4; 5] else [].

Definition animatedPage : Reveal.state :=
  V3Reveal.initScrollAnimations [1; 2] [3] (Reveal.State ∅ ∅ ∅ ∅).

Definition animatedMain : Reveal.state :=
  MainReveal.initScrollObserver (λ el, Nat.eqb el 2) [1; 2; 3] (Reveal.State ∅ ∅ ∅ ∅).

(** The same pages once element 1 has entered the viewport. *)
Definition oneRevealed : Reveal.state :=
  V3Reveal.notify gridChildren animatedPage
    (V3Reveal.FadeBatch [Reveal.Entry 1 true; Reveal.Entry 2 false]).

Definition oneRevealedMain : Reveal.state :=
  MainReveal.notify [Reveal.Entry 1 true; Reveal.Entry 2 false] animatedMain.

(** An attractions page: two sections, their two links, the first link
    active in the markup, and a batch in which both sections report an
    intersection before the first one leaves. *)
Definition navIds : list string := ["temples"; "beaches"].

Definition navLinks : list Spy.link :=
  [Spy.Link (Some "#temples") ["nav-link"; "active"];
   Spy.Link (Some "#beaches") ["nav-link"]].

Definition navBatch : list Spy.entry :=
  [Spy.Entry (Spy.Section_ (Some "temples")) true;
   Spy.Entry (Spy.Section_ (Some "beaches")) true;
   Spy.Entry (Spy.Section_ (Some "temples")) false].

(** A gallery page: three filter controls and three pictures, two of
    rooms and one of the restaurant, the last picture without caption. *)
Definition buttons : list Gallery.button :=
  [Gallery.Button (Some "all") ["filter-btn"; "active"];
   Gallery.Button (Some "rooms") ["filter-btn"];
   Gallery.Button (Some "dining") ["filter-btn"]].

Definition items : list Gallery.item :=
  [Gallery.Item "img/suite.jpg" (Some "Suite") (Some "rooms") "";
   Gallery.Item "img/buffet.jpg" (Some "Buffet") (Some "dining") "";
   Gallery.Item "img/deluxe.jpg" None (Some "rooms") ""].

(** The page as script.js finds it after [initGallery]. *)
Definition galleryV3 : V3Gallery.state :=
  V3Gallery.initGallery buttons items ["lightbox"] "" "".

(** The page as main.js finds it after [initGalleryPage]. *)
Definition galleryMain : MainGallery.state :=
  MainGallery.State buttons items ["lightbox"] "" ""
    [MainGallery.Image "img/suite.jpg" (Some "Suite");
     MainGallery.Image "img/buffet.jpg" (Some "Buffet");
     MainGallery.Image "img/deluxe.jpg" None]
    (JS.Int 0) [].

(** A gallery page whose grid is still empty, after [initGalleryPage]. *)
Definition emptyMain : MainGallery.state :=
  MainGallery.State buttons [] ["lightbox"] "" "" [] (JS.Int 0) [].

(** Both pages after a click on the third picture. *)
Definition openedV3 : V3Gallery.state :=
  fst (V3Gallery.dispatch (V3Gallery.Click (Gallery.GalleryItem 2)) galleryV3).

Definition openedMain : MainGallery.state :=
  fst (MainGallery.dispatch (MainGallery.Click (Gallery.GalleryItem 2)) galleryMain).

(** The "rooms" control of both pages, and the clicks on it and on the
    "dining" control. *)
Definition roomsButton : Gallery.button := Gallery.Button (Some "rooms") ["filter-btn"].

Definition clickRooms : MainGallery.event := MainGallery.Click (Gallery.FilterBtn 1).

Definition clickDining : MainGallery.event := MainGallery.Click (Gallery.FilterBtn 2).

(** Both pages once the "rooms" filter is selected and, in main.js, its
    timers have fired: the restaurant picture is hidden. *)
Definition roomsV3 : V3Gallery.state :=
  V3Gallery.run [V3Gallery.Click (Gallery.FilterBtn 1)] galleryV3.

Definition roomsMain : MainGallery.state :=
  MainGallery.flush (MainGallery.run [clickRooms] galleryMain).

(** Both pages with the "rooms" filter selected, after a click on the
    suite (position 0, visible), and after one next from there. *)
Definition pickedV3 : V3Gallery.state :=
  V3Gallery.run [V3Gallery.Click (Gallery.GalleryItem 0)] roomsV3.

Definition pickedMain : MainGallery.state :=
  MainGallery.run [MainGallery.Click (Gallery.GalleryItem 0)] roomsMain.

Definition browsingV3 : V3Gallery.state :=
  V3Gallery.run [V3Gallery.Click Gallery.LightboxNext] pickedV3.

Definition browsingMain : MainGallery.state :=
  MainGallery.run [MainGallery.Click Gallery.LightboxNext] pickedMain.

End Examples.

(** * The remaining components of the two scripts *)

From Stdlib Require QArith.

(** ** Theme: what the managers leave alone *)

Module ThemeFrame.

(** Every storage key but "theme" and every attribute of the root
    element but "data-theme" is in [s] as it was in [s0]. *)
Definition framed (s0 s : Theme.state) : Prop :=
  (∀ k, k ≠ "theme" → Theme.localStorage s !! k = Theme.localStorage s0 !! k)
  ∧ (∀ k, k ≠ "data-theme" →
          Theme.documentElement s !! k = Theme.documentElement s0 !! k).

(** The stored preference is the applied theme, "light" or "dark". *)
Definition settled (s : Theme.state) : Prop :=
  ∃ t, t ∈ ["light"; "dark"]
       ∧ Theme.getItem "theme" s = Some t
       ∧ Theme.getAttribute "data-theme" s = Some t.

End ThemeFrame.

(** ** Viewport reveal: the targets of a batch *)

Module RevealFrame.

(** Whether some entry of the batch reports an intersection of [el]. *)
Definition intersects (entries : list Reveal.entry) (el : nat) : bool :=
  existsb (λ e, Reveal.isIntersecting e && Nat.eqb (Reveal.target e) el) entries.

End RevealFrame.

(** ** Token lists: toggling without a forced state *)

Module Tokens.

(** [classList.toggle(tok)] *)
Definition flip (cl : list string) (tok : string) : list string :=
  if DOM.contains cl tok then DOM.remove cl tok else DOM.add cl tok.

End Tokens.

(** ** Header: the "scrolled" class *)

Module Header.

(** [window.scrollY] is a finite double, hence a rational number of
    CSS pixels. *)
Definition pixels : Type := QArith_base.Q.

(** [window.scrollY > 50] *)
Definition beyond50 (y : pixels) : bool :=
  negb (QArith_base.Qle_bool y (QArith_base.Qmake 50 1)).

(** A header that is there and whose classes, "scrolled" apart, are
    those of [cl]. *)
Definition sameButScrolled (cl : list string) (h : option (list string)) : Prop :=
  ∃ cl', h = Some cl' ∧ ∀ t, t ≠ "scrolled" → t ∈ cl' ↔ t ∈ cl.

Inductive event : Type :=
(** the window was scrolled to the position [y] *)
| Scroll (y : pixels)
(** the host runs the oldest pending animation-frame callback *)
| AnimationFrame.

End Header.

(** main.js, [initHeaderManager]: the class follows every scroll event. *)

Module MainHeader.
Import Header.

Record state : Type := State {
  scrollY : pixels;
  (** [classList] of [.main-header], when the page has one *)
  header : option (list string);
}.

(** [initHeaderManager] returns early without a header; the boolean
    tells whether the scroll listener was registered. *)
Definition initHeaderManager (s : state) : bool := bool_decide (is_Some (header s)).

(** The scroll listener. *)
Definition onScroll (s : state) : state :=
  State (scrollY s)
        ((λ cl, DOM.toggle cl "scrolled" (beyond50 (scrollY s))) <$> header s).

Definition handle (wired : bool) (s : state) (ev : event) : state :=
  match ev with
  | Scroll y =>
      let s' := State y (header s) in
      if wired then onScroll s' else s'
  | AnimationFrame => s
  end.

Definition run (evs : list event) (s : state) : state :=
  foldl (handle (initHeaderManager s)) s evs.

End MainHeader.

(** script.js, [initGlassmorphismHeader]: the class is updated in an
    animation frame, and at most one frame is requested at a time. *)

Module V3Header.
Import Header.

Record state : Type := State {
  scrollY : pixels;
  (** [classList] of [.site-header], when the page has one *)
  header : option (list string);
  isTicking : bool;
  (** number of pending [requestAnimationFrame(toggleHeaderClass)]
      callbacks *)
  frames : nat;
}.

(** The state [initGlassmorphismHeader] starts from. *)
Definition loaded (y : pixels) (header : option (list string)) : state :=
  State y header false 0.

Definition initGlassmorphismHeader (s : state) : bool :=
  bool_decide (is_Some (header s)).

Definition toggleHeaderClass (s : state) : state :=
  State (scrollY s)
        ((λ cl, if beyond50 (scrollY s)
                then DOM.add cl "scrolled"
                else DOM.remove cl "scrolled") <$> header s)
        false (frames s).

(** The scroll listener. *)
Definition onScroll (s : state) : state :=
  if negb (isTicking s)
  then State (scrollY s) (header s) true (S (frames s))
  else s.

Definition handle (wired : bool) (s : state) (ev : event) : state :=
  match ev with
  | Scroll y =>
      let s' := State y (header s) (isTicking s) (frames s) in
      if wired then onScroll s' else s'
  | AnimationFrame =>
      match frames s with
      | O => s
      | S n =>
          toggleHeaderClass (State (scrollY s) (header s) (isTicking s) n)
      end
  end.

Definition run (evs : list event) (s : state) : state :=
  foldl (handle (initGlassmorphismHeader s)) s evs.

End V3Header.

(** ** Mobile navigation *)

(** main.js, [initMobileNavigation]: one click toggles "active" on the
    button and on the navigation. *)

Module MainNav.

Record state : Type := State {
  (** [classList] of [#hamburger-btn], when the page has one *)
  hamburgerBtn : option (list string);
  (** [classList] of [.main-nav], when the page has one *)
  mainNav : option (list string);
}.

(** The click listener of the button; it is registered only when both
    elements exist. *)
Definition onClick (s : state) : state :=
  match hamburgerBtn s, mainNav s with
  | Some btn, Some nav =>
      State (Some (Tokens.flip btn "active")) (Some (Tokens.flip nav "active"))
  | _, _ => s
  end.

Definition clicks (n : nat) (s : state) : state := Nat.iter n onClick s.

Definition open_ (cl : option (list string)) : bool :=
  match cl with
  | Some tokens => DOM.contains tokens "active"
  | None => false
  end.

End MainNav.

(** script.js, [initMobileNav]: one click toggles "mobile-nav-open" on
    the body. *)

Module V3Nav.

Record state : Type := State {
  (** whether the page has a [.menu-toggle] *)
  menuToggle : bool;
  (** [classList] of [document.body] *)
  body : list string;
}.

Definition onClick (s : state) : state :=
  if menuToggle s then State true (Tokens.flip (body s) "mobile-nav-open") else s.

Definition clicks (n : nat) (s : state) : state := Nat.iter n onClick s.

End V3Nav.

(** ** script.js 2.1: the navigation callbacks *)

Module V21Spy.
Import Spy.

Definition fragment (sec : section) : string := "#" +:+ default "null" (id sec).

(** [link.classList.remove('active'); if (link.getAttribute('href') ===
    frag) link.classList.add('active')] *)
Definition mark (frag : string) (l : link) : link :=
  let cl := DOM.remove (classList l) "active" in
  Link (href l)
       (if JS.strict_eq (href l) (Some frag) then DOM.add cl "active" else cl).

(** The body of [entries.forEach], the same in [initAttractionsNav] and
    [initPolicyNav]. *)
Definition onEntry (navLinks : list link) (e : entry) : list link :=
  if isIntersecting e
  then mark (fragment (target e)) <$> navLinks
  else navLinks.

Definition observerCallback (entries : list entry) (navLinks : list link)
    : list link :=
  foldl onEntry navLinks entries.

(** Two links with the same target and the same classes, whatever the
    order of the classes. *)
Definition sameLink (a b : link) : Prop :=
  href a = href b ∧ ∀ t, t ∈ classList a ↔ t ∈ classList b.

End V21Spy.

(** ** Gallery: what no listener changes *)

Module GalleryFrame.
Import Gallery.

(** The pictures and the controls of two pages are the same elements:
    same sources, captions, categories and filter tags, in the same
    order; displays and classes may differ. *)
Definition sameElements (items items' : list item) (buttons buttons' : list button)
    : Prop :=
  identity <$> items' = identity <$> items
  ∧ filter_ <$> buttons' = filter_ <$> buttons.

(** The entry of the [images] array of main.js for a picture. *)
Definition imageOf (link : item) : MainGallery.image :=
  MainGallery.Image (href link) (caption link).

(** The visible list of script.js refers to pictures of the page, in
    document order and without repetition. *)
Definition validRefs (s : V3Gallery.state) : Prop :=
  ∀ p r, V3Gallery.allVisibleItems s !! p = Some r →
         (r < length (V3Gallery.galleryItems s))%nat.

End GalleryFrame.

(** ** Lightbox: sequences of next and prev *)

Module Navigation.

Inductive move : Type :=
| Next
| Prev.

Definition step (m : move) : Z :=
  match m with
  | Next => 1
  | Prev => -1
  end.

(** Number of next moves minus number of prev moves. *)
Definition displacement (moves : list move) : Z :=
  foldr (λ m acc, step m + acc)%Z 0%Z moves.

(** One activation of the next or of the previous control. *)
Definition mainMove (s : MainGallery.state) (m : move) : MainGallery.state :=
  match m with
  | Next => fst (MainGallery.showNext s)
  | Prev => fst (MainGallery.showPrev s)
  end.

Definition v3Move (s : V3Gallery.state) (m : move) : V3Gallery.state :=
  match m with
  | Next => fst (V3Gallery.showNext s)
  | Prev => fst (V3Gallery.showPrev s)
  end.

End Navigation.

(** ** main.js: room thumbnails *)

Module RoomGallery.

(** [s.substring(n)] *)
Fixpoint dropChars (n : nat) (s : string) : string :=
  match n, s with
  | O, _ => s
  | S n', String _ s' => dropChars n' s'
  | S _, EmptyString => EmptyString
  end.

(** [s.replace(pat, rep)] for a string pattern and a replacement without
    "$": the first occurrence of [pat] is replaced. *)
Fixpoint replaceFirst (pat rep s : string) : string :=
  if String.prefix pat s
  then rep +:+ dropChars (String.length pat) s
  else match s with
       | EmptyString => EmptyString
       | String c s' => String c (replaceFirst pat rep s')
       end.

(** Whether the character occurs in the string. *)
Fixpoint hasChar (c : Ascii.ascii) (s : string) : bool :=
  match s with
  | EmptyString => false
  | String d s' => Ascii.eqb c d || hasChar c s'
  end.

(** The character "." *)
Definition dot : Ascii.ascii := Ascii.ascii_of_nat 46.

(** The [img] of a thumbnail, with its data attributes. *)
Record thumbImg : Type := ThumbImg {
  target : option string;
  fullWebp : option string;
  fullJpg : option string;
}.

(** A [.thumbnail-item]. *)
Record thumb : Type := Thumb {
  (** [thumb.querySelector('img')] *)
  img : option thumbImg;
  classList : list string;
  (** [thumb.closest('.gallery-thumbnails')]: the nearest element with
      that class among the thumbnail and its ancestors, if any *)
  group : option nat;
  (** the [.gallery-thumbnails] elements the thumbnail is a descendant
      of: those whose [querySelector] can return it *)
  inside : list nat;
}.

(** An element a thumbnail points to, by id, with the [source] elements
    of its parent. *)
Record picture : Type := Picture {
  (** [style.opacity] *)
  opacity : string;
  src : string;
  (** [srcset] of the parent's [source[type="image/webp"]], if there is one *)
  sourceWebp : option string;
  (** [srcset] of the parent's [source[type="image/jpeg"]], if there is one *)
  sourceJpg : option string;
}.

(** A pending [setTimeout(..., 200)] callback with what it captured. *)
Record timer : Type := Timer {
  mainImageEl : string;
  newWebp : option string;
  newJpg : string;
}.

Record state : Type := State {
  thumbnails : list thumb;
  elements : gmap string picture;
  (** oldest first *)
  timers : list timer;
}.

(** [thumbImg.dataset.fullJpg || (newWebp ? newWebp.replace('.webp',
    '.jpg') : '')] *)
Definition jpgOf (ti : thumbImg) : string :=
  if JS.truthy_opt (fullJpg ti) then default "" (fullJpg ti)
  else if JS.truthy_opt (fullWebp ti)
       then replaceFirst ".webp" ".jpg" (default "" (fullWebp ti))
       else "".

Definition isActive (th : thumb) : bool := DOM.contains (classList th) "active".

(** [parentGallery.querySelector('.thumbnail-item.active')]: the
    position of the first active thumbnail, in document order, among the
    descendants of the gallery, those of galleries nested in it
    included. *)
Definition currentActive (g : nat) (thumbs : list thumb) : option nat :=
  fst <$> list_find (λ th, g ∈ inside th ∧ isActive th = true) thumbs.

Definition setClasses (f : list string → list string) (th : thumb) : thumb :=
  Thumb (img th) (f (classList th)) (group th) (inside th).

(** [parentGallery] and [currentActive] of the listener: the thumbnail
    the marker is taken from, when the clicked one has a gallery and the
    gallery has an active thumbnail. *)
Definition takenFrom (th : thumb) (thumbs : list thumb) : option nat :=
  match group th with
  | Some g => currentActive g thumbs
  | None => None
  end.

(** The part of the listener after the timer is set: the active marker
    moves to the thumbnail at position [i]. *)
Definition moveActive (i : nat) (th : thumb) (thumbs : list thumb) : list thumb :=
  let thumbs1 :=
    match takenFrom th thumbs with
    | Some k => alter (setClasses (λ cl, DOM.remove cl "active")) k thumbs
    | None => thumbs
    end in
  alter (setClasses (λ cl, DOM.add cl "active")) i thumbs1.

(** The [mousedown] listener of the thumbnail at position [i].  An
    undefined [data-target] is looked up as the id "undefined". *)
Definition onMouseDown (i : nat) (s : state) : state * JS.completion :=
  match thumbnails s !! i with
  | None => (s, JS.Normal)
  | Some th =>
      match img th with
      | None => (s, JS.TypeError)
      | Some thumbImg =>
          let targetId := default "undefined" (target thumbImg) in
          match elements s !! targetId with
          | None => (s, JS.Normal)
          | Some el =>
              if isActive th then (s, JS.Normal)
              else
                let faded := Picture "0" (src el) (sourceWebp el) (sourceJpg el) in
                (State (moveActive i th (thumbnails s))
                       (<[targetId := faded]> (elements s))
                       (timers s ++ [Timer targetId (fullWebp thumbImg) (jpgOf thumbImg)]),
                 JS.Normal)
          end
      end
  end.

(** What the callback of a timer does to its element.  Assigning an
    undefined [newWebp] to [srcset] stores the text "undefined". *)
Definition swap (t : timer) (el : picture) : picture :=
  Picture "1" (newJpg t)
          ((λ _, default "undefined" (newWebp t)) <$> sourceWebp el)
          ((λ _, newJpg t) <$> sourceJpg el).

(** The oldest pending timer fires. *)
Definition onTimeout (s : state) : state :=
  match timers s with
  | [] => s
  | t :: rest => State (thumbnails s) (alter (swap t) (mainImageEl t) (elements s)) rest
  end.

(** Every pending timer fires, oldest first. *)
Definition flush (s : state) : state :=
  foldl (λ acc _, onTimeout acc) s (timers s).

Inductive event : Type :=
| MouseDown (i : nat)
| TimerFires.

Definition dispatch (ev : event) (s : state) : state * JS.completion :=
  match ev with
  | MouseDown i => onMouseDown i s
  | TimerFires => (onTimeout s, JS.Normal)
  end.

Definition run (evs : list event) (s : state) : state :=
  foldl (λ acc ev, fst (dispatch ev acc)) s evs.

(** No gallery lies in another and no thumbnail is a gallery itself:
    every thumbnail is a descendant of its nearest gallery and of no
    other one. *)
Definition unnested (thumbs : list thumb) : Prop :=
  Forall (λ th, inside th = option_list (group th)) thumbs.

Global Instance unnested_dec thumbs : Decision (unnested thumbs).
Proof. unfold unnested. apply _. Defined.

(** Among the thumbnails inside a gallery at most one is active. *)
Definition oneActivePerGroup (thumbs : list thumb) : Prop :=
  ∀ i j ti tj g,
    thumbs !! i = Some ti → thumbs !! j = Some tj →
    g ∈ inside ti → g ∈ inside tj →
    isActive ti = true → isActive tj = true → i = j.

End RoomGallery.

(** ** main.js: contact form *)

Module ContactForm.

Record state : Type := State {
  (** [submitBtn.disabled] *)
  disabled : bool;
  (** [classList] of [#submit-btn] *)
  submitBtn : list string;
  (** [textContent] of the [.btn-text] inside the button, when the
      button has one *)
  btnText : option string;
  (** the controls of the form: current value and default value *)
  fields : list (string * string);
  (** pending [setTimeout(..., 2000)] callbacks; they are all the same
      closure *)
  pendingSubmit : nat;
  (** pending [setTimeout(..., 3000)] callbacks, all the same closure *)
  pendingRevert : nat;
}.

(** [initContactForm]: whether the submit listener was registered, and
    how the function ended.  [submitBtn.querySelector] throws when the
    form has no [#submit-btn]. *)
Definition initContactForm (form submitBtn : bool) : bool * JS.completion :=
  if form
  then if submitBtn then (true, JS.Normal) else (false, JS.TypeError)
  else (false, JS.Normal).

(** [form.reset()] *)
Definition reset (fs : list (string * string)) : list (string * string) :=
  (λ f, (snd f, snd f)) <$> fs.

(** The submit listener. *)
Definition onSubmit (s : state) : state :=
  State true (DOM.add (submitBtn s) "loading") (btnText s) (fields s)
        (S (pendingSubmit s)) (pendingRevert s).

(** A pending 2000 ms timer fires.  Without [.btn-text] the assignment
    to [btnText.textContent] throws, after the button was released. *)
Definition onSubmitTimer (s : state) : state * JS.completion :=
  match pendingSubmit s with
  | O => (s, JS.Normal)
  | S n =>
      let cl := DOM.remove (submitBtn s) "loading" in
      match btnText s with
      | None =>
          (State false cl None (fields s) n (pendingRevert s), JS.TypeError)
      | Some _ =>
          (State false cl (Some "Submitted Successfully!") (reset (fields s))
                 n (S (pendingRevert s)),
           JS.Normal)
      end
  end.

(** A pending 3000 ms timer fires. *)
Definition onRevertTimer (s : state) : state * JS.completion :=
  match pendingRevert s with
  | O => (s, JS.Normal)
  | S n =>
      match btnText s with
      | None =>
          (State (disabled s) (submitBtn s) None (fields s) (pendingSubmit s) n,
           JS.TypeError)
      | Some _ =>
          (State (disabled s) (submitBtn s) (Some "Submit Inquiry") (fields s)
                 (pendingSubmit s) n,
           JS.Normal)
      end
  end.

Inductive event : Type :=
(** the form is submitted *)
| Submit
(** the visitor types [v] into the control at position [i] *)
| Input (i : nat) (v : string)
| SubmitTimer
| RevertTimer.

Definition onInput (i : nat) (v : string) (s : state) : state :=
  State (disabled s) (submitBtn s) (btnText s)
        (alter (λ f, (v, snd f)) i (fields s))
        (pendingSubmit s) (pendingRevert s).

Definition dispatch (ev : event) (s : state) : state * JS.completion :=
  match ev with
  | Submit => (onSubmit s, JS.Normal)
  | Input i v => (onInput i v s, JS.Normal)
  | SubmitTimer => onSubmitTimer s
  | RevertTimer => onRevertTimer s
  end.

Definition run (evs : list event) (s : state) : state :=
  foldl (λ acc ev, fst (dispatch ev acc)) s evs.

(** The page as loaded, with the button as the markup has it
    ([initContactForm] changes nothing of it); nothing is pending. *)
Definition loaded (dis : bool) (classes : list string) (text : option string)
    (fs : list (string * string)) : state :=
  State dis classes text fs 0 0.

Definition isSubmit (ev : event) : bool :=
  match ev with
  | Submit => true
  | _ => false
  end.

(** What holds of the button between events, [sent] telling whether the
    form was submitted since the load.  Before the first submission the
    button is as the markup has it; from then on it is held only while a
    2000 ms timer is pending; the success text stands only while a
    3000 ms timer is pending. *)
Definition settled (dis : bool) (classes : list string) (text : string)
    (sent : bool) (s : state) : Prop :=
  (if sent
   then disabled s = true ∨ "loading" ∈ submitBtn s → (0 < pendingSubmit s)%nat
   else disabled s = dis ∧ submitBtn s = classes ∧ btnText s = Some text
        ∧ pendingSubmit s = 0%nat ∧ pendingRevert s = 0%nat)
  ∧ (btnText s = Some "Submit Inquiry"
     ∨ (btnText s = Some "Submitted Successfully!" ∧ (0 < pendingRevert s)%nat)
     ∨ (btnText s = Some text ∧ (sent = true → (0 < pendingSubmit s)%nat))).

End ContactForm.

(** ** Initialization: which listeners a page load registers *)

Module Wiring.

(** The listeners and observers the scripts create, one name per kind. *)
Inductive listener : Type :=
| HeaderScroll
| MenuClick
| ThemeToggleClick
| SystemThemeChange
| FadeObserver
| StaggerObserver
| ThumbMouseDown
| FormSubmit
| AttractionsObserver
| PolicyObserver
| FilterClick
| ItemClick
| CloseClick
| PrevClick
| NextClick
| BackdropClick
| KeyDown.

Global Instance listener_eq_dec : EqDecision listener.
Proof. solve_decision. Defined.

(** What a piece of initialization code does: the listeners it
    registers, in order, and how it ends.  A throw ends the whole
    [init]; an early [return] ends one function only. *)
Definition code : Type := list listener * JS.completion.

Definition register (l : listener) : code := ([l], JS.Normal).

Definition skip : code := ([], JS.Normal).

Definition throw : code := ([], JS.TypeError).

Definition andThen (a b : code) : code :=
  match snd a with
  | JS.Normal => ((fst a ++ fst b)%list, snd b)
  | JS.TypeError => a
  end.

Infix "⨟" := andThen (at level 65, right associativity).

(** [document.querySelector(sel).addEventListener(...)]: throws when
    the element is missing. *)
Definition registerOn (present : bool) (l : listener) : code :=
  if present then register l else throw.

(** [list.forEach(el => el.addEventListener(...))] *)
Definition registerEach (count : nat) (l : listener) : code :=
  match count with
  | O => skip
  | S _ => register l
  end.

(** What the scripts look for in the page. *)
Record page : Type := Page {
  (** [.main-header] for main.js, [.site-header] for script.js *)
  header : bool;
  (** [#hamburger-btn] for main.js, [.menu-toggle] for script.js *)
  menuButton : bool;
  mainNav : bool;
  themeToggle : bool;
  (** number of animated elements (main.js) or of [.fade-in] elements *)
  animated : nat;
  gridStagger : nat;
  thumbnails : nat;
  contactForm : bool;
  submitBtn : bool;
  attractionsNav : bool;
  attractionSections : nat;
  (** [.policy-nav] (script.js only) *)
  policyNav : bool;
  policyNavLinks : nat;
  policySections : nat;
  galleryGrid : bool;
  filterButtons : nat;
  galleryItems : nat;
  lightbox : bool;
  lightboxClose : bool;
  lightboxPrev : bool;
  lightboxNext : bool;
}.

Definition isZero (n : nat) : bool := Nat.eqb n 0.

(** The tail shared by the two gallery initializers. *)
Definition lightboxListeners (p : page) : code :=
  registerOn (lightboxClose p) CloseClick ⨟
  registerOn (lightboxPrev p) PrevClick ⨟
  registerOn (lightboxNext p) NextClick ⨟
  register BackdropClick ⨟
  register KeyDown.

End Wiring.

(** main.js *)

Module MainInit.
Import Wiring.

Definition initHeaderManager (p : page) : code :=
  if header p then register HeaderScroll else skip.

Definition initMobileNavigation (p : page) : code :=
  if menuButton p && mainNav p then register MenuClick else skip.

Definition initThemeManager (p : page) : code :=
  if themeToggle p
  then register ThemeToggleClick ⨟ register SystemThemeChange
  else skip.

Definition initScrollObserver (p : page) : code :=
  if isZero (animated p) then skip else register FadeObserver.

Definition initRoomGallery (p : page) : code :=
  if isZero (thumbnails p) then skip else registerEach (thumbnails p) ThumbMouseDown.

Definition initContactForm (p : page) : code :=
  if contactForm p then registerOn (submitBtn p) FormSubmit else skip.

Definition initPolicyNavObserver (p : page) : code :=
  if isZero (policyNavLinks p) || isZero (policySections p)
  then skip
  else register PolicyObserver.

Definition initGalleryPage (p : page) : code :=
  if isZero (filterButtons p) || negb (lightbox p)
  then skip
  else registerEach (filterButtons p) FilterClick ⨟
       registerEach (galleryItems p) ItemClick ⨟
       lightboxListeners p.

Definition init (p : page) : code :=
  initHeaderManager p ⨟
  initMobileNavigation p ⨟
  initThemeManager p ⨟
  initScrollObserver p ⨟
  initRoomGallery p ⨟
  initContactForm p ⨟
  initPolicyNavObserver p ⨟
  initGalleryPage p.

End MainInit.

(** script.js 3.0 *)

Module V3Init.
Import Wiring.

Definition initMobileNav (p : page) : code :=
  if menuButton p then register MenuClick else skip.

(** The theme is applied in any case; the listener needs the toggle. *)
Definition initThemeToggle (p : page) : code :=
  if themeToggle p then register ThemeToggleClick else skip.

Definition initGlassmorphismHeader (p : page) : code :=
  if header p then register HeaderScroll else skip.

(** The two observers are created on every page. *)
Definition initScrollAnimations (p : page) : code :=
  register FadeObserver ⨟ register StaggerObserver.

Definition initGallery (p : page) : code :=
  if negb (galleryGrid p) then skip
  else if negb (lightbox p) then skip
  else registerEach (filterButtons p) FilterClick ⨟
       registerEach (galleryItems p) ItemClick ⨟
       lightboxListeners p.

(** [header.offsetHeight] throws when the page has no [.site-header]. *)
Definition initAttractionsNav (p : page) : code :=
  if negb (attractionsNav p) then skip
  else if header p then register AttractionsObserver else throw.

Definition initPolicyNav (p : page) : code :=
  if negb (policyNav p) then skip
  else if header p then register PolicyObserver else throw.

Definition init (p : page) : code :=
  initMobileNav p ⨟
  initThemeToggle p ⨟
  initGlassmorphismHeader p ⨟
  initScrollAnimations p ⨟
  initGallery p ⨟
  initAttractionsNav p ⨟
  initPolicyNav p.

End V3Init.

(** ** Concrete pages for the remaining components *)

Module Scenes.

(** A rooms page: one gallery with two thumbnails pointing to the same
    picture, the first one active, the second one without jpg source. *)
Definition roomThumbs : list RoomGallery.thumb :=
  [RoomGallery.Thumb
     (Some (RoomGallery.ThumbImg (Some "deluxe-main") (Some "img/deluxe-1.webp")
              (Some "img/deluxe-1.jpg")))
     ["thumbnail-item"; "active"] (Some 0%nat) [0%nat];
   RoomGallery.Thumb
     (Some (RoomGallery.ThumbImg (Some "deluxe-main") (Some "img/deluxe-2.webp") None))
     ["thumbnail-item"] (Some 0%nat) [0%nat]].

Definition roomPage : RoomGallery.state :=
  RoomGallery.State roomThumbs
    {["deluxe-main" := RoomGallery.Picture "" "img/deluxe-1.jpg"
                         (Some "img/deluxe-1.webp") (Some "img/deluxe-1.jpg")]}
    [].

(** A rooms page with a gallery inside another: gallery 0 holds first
    the gallery 1, with the thumbnail 0, and then the thumbnails 1 and
    2 of its own.  The first thumbnail of each gallery is active in the
    markup, and the picture all three point to exists. *)
Definition nestedThumbs : list RoomGallery.thumb :=
  [RoomGallery.Thumb
     (Some (RoomGallery.ThumbImg (Some "deluxe-main") (Some "img/deluxe-1.webp")
              (Some "img/deluxe-1.jpg")))
     ["thumbnail-item"; "active"] (Some 1%nat) [1%nat; 0%nat];
   RoomGallery.Thumb
     (Some (RoomGallery.ThumbImg (Some "deluxe-main") (Some "img/deluxe-2.webp") None))
     ["thumbnail-item"; "active"] (Some 0%nat) [0%nat];
   RoomGallery.Thumb
     (Some (RoomGallery.ThumbImg (Some "deluxe-main") (Some "img/deluxe-3.webp") None))
     ["thumbnail-item"] (Some 0%nat) [0%nat]].

Definition nestedPage : RoomGallery.state :=
  RoomGallery.State nestedThumbs
    {["deluxe-main" := RoomGallery.Picture "" "img/deluxe-1.jpg"
                         (Some "img/deluxe-1.webp") (Some "img/deluxe-1.jpg")]}
    [].

End Scenes.

(** * Properties *)

(** ** Token lists *)

Section TokenLists.
Implicit Types (cl : list string) (tok : string).

Lemma contains_true cl tok : DOM.contains cl tok = true ↔ tok ∈ cl.
Proof. unfold DOM.contains. apply bool_decide_eq_true. Qed.

Lemma contains_false cl tok : DOM.contains cl tok = false ↔ tok ∉ cl.
Proof. unfold DOM.contains. apply bool_decide_eq_false. Qed.

Lemma elem_of_add cl tok t : t ∈ DOM.add cl tok ↔ t ∈ cl ∨ t = tok.
Proof.
  unfold DOM.add. destruct (DOM.contains cl tok) eqn:E.
  - apply contains_true in E. split; [auto | intros [H | ->]; done].
  - rewrite elem_of_app, list_elem_of_singleton. done.
Qed.

Lemma elem_of_remove cl tok t : t ∈ DOM.remove cl tok ↔ t ∈ cl ∧ t ≠ tok.
Proof. unfold DOM.remove. rewrite list_elem_of_filter. tauto. Qed.

Lemma contains_add cl tok : DOM.contains (DOM.add cl tok) tok = true.
Proof. apply contains_true, elem_of_add. by right. Qed.

Lemma contains_remove cl tok : DOM.contains (DOM.remove cl tok) tok = false.
Proof. apply contains_false. rewrite elem_of_remove. tauto. Qed.

Lemma remove_absent cl tok : tok ∉ cl → DOM.remove cl tok = cl.
Proof.
  unfold DOM.remove. induction cl as [|t cl IH]; [done|].
  intros Hnot. apply not_elem_of_cons in Hnot as [Hne Hcl].
  rewrite filter_cons_True by congruence. by rewrite IH.
Qed.

Lemma contains_toggle cl tok force :
  DOM.contains (DOM.toggle cl tok force) tok = force.
Proof.
  destruct force; simpl; [apply contains_add | apply contains_remove].
Qed.

Lemma add_present cl tok : tok ∈ cl → DOM.add cl tok = cl.
Proof. intros H. unfold DOM.add. apply contains_true in H. by rewrite H. Qed.

End TokenLists.

(** ** Theme *)

Section ThemeFacts.
Import Theme.
Implicit Types (s : state) (t : string).

Lemma truthy_light_dark t : t ∈ ["light"; "dark"] → JS.truthy t = true.
Proof. rewrite !elem_of_cons, elem_of_nil. intros [-> | [-> | []]]; reflexivity. Qed.

Lemma ofMatches_truthy b : JS.truthy (ofMatches b) = true.
Proof. by destruct b. Qed.

Lemma getInitialTheme_truthy s : JS.truthy (MainTheme.getInitialTheme s) = true.
Proof.
  unfold MainTheme.getInitialTheme.
  destruct (getItem "theme" s) as [saved|]; [|apply ofMatches_truthy].
  destruct (JS.truthy saved) eqn:E; [done | apply ofMatches_truthy].
Qed.

Lemma applyTheme_stored t s : getItem "theme" (MainTheme.applyTheme t s) = Some t.
Proof. unfold getItem. simpl. apply lookup_insert_eq. Qed.

Lemma applyTheme_applied t s :
  getAttribute "data-theme" (MainTheme.applyTheme t s) = Some t.
Proof. unfold getAttribute. simpl. apply lookup_insert_eq. Qed.

(** With a stored preference the [change] listener does nothing. *)
Lemma onSystemChange_stored matches s :
  JS.truthy_opt (getItem "theme" s) = true → MainTheme.onSystemChange matches s = s.
Proof. intros H. unfold MainTheme.onSystemChange. by rewrite H. Qed.

(** Without one it applies, and persists, the new OS value. *)
Lemma onSystemChange_absent matches s :
  JS.truthy_opt (getItem "theme" s) = false →
  MainTheme.onSystemChange matches s = MainTheme.applyTheme (ofMatches matches) s.
Proof. intros H. unfold MainTheme.onSystemChange. by rewrite H. Qed.

Lemma applyTheme_synced t s : JS.truthy t = true → MainTheme.synced (MainTheme.applyTheme t s).
Proof.
  intros Ht. exists t. by rewrite applyTheme_stored, applyTheme_applied.
Qed.

Lemma flipped_truthy cur : JS.truthy (flipped cur) = true.
Proof. unfold flipped. by destruct (JS.strict_eq cur (Some "dark")). Qed.

Lemma handle_synced ev s : MainTheme.synced s → MainTheme.synced (MainTheme.handle true ev s).
Proof.
  intros (t & Hst & Hat & Ht). destruct ev as [|matches]; simpl.
  - apply applyTheme_synced, flipped_truthy.
  - rewrite onSystemChange_stored.
    + by exists t.
    + unfold getItem in *. simpl. rewrite Hst. done.
Qed.

Lemma run_synced evs s : MainTheme.synced (MainTheme.run true evs s).
Proof.
  unfold MainTheme.run. simpl.
  assert (H0 : MainTheme.synced (MainTheme.applyTheme (MainTheme.getInitialTheme s) s))
    by apply applyTheme_synced, getInitialTheme_truthy.
  revert H0. generalize (MainTheme.applyTheme (MainTheme.getInitialTheme s) s).
  induction evs as [|ev evs IH]; intros s0 H0; simpl; [done|].
  apply IH, handle_synced, H0.
Qed.

(** After initialization an OS change never reaches [applyTheme]: the
    marker attribute and the storage stay as they are. *)
Lemma system_change_after_init matches evs s :
  let s1 := MainTheme.run true evs s in
  MainTheme.handle true (SystemChange matches) s1 = setPrefersDark matches s1.
Proof.
  intros s1. destruct (run_synced evs s) as (t & Hst & _ & Ht). fold s1 in Hst.
  simpl. apply onSystemChange_stored.
  unfold getItem in *. simpl. by rewrite Hst.
Qed.

Lemma flipped_light_dark t :
  t ∈ ["light"; "dark"] →
  flipped (Some t) ≠ t ∧ flipped (Some t) ∈ ["light"; "dark"]
  ∧ flipped (Some (flipped (Some t))) = t.
Proof.
  rewrite !elem_of_cons, elem_of_nil.
  intros [-> | [-> | []]]; vm_compute; repeat split; try congruence;
    rewrite ?elem_of_cons; auto.
Qed.

Lemma onToggleClick_same s : V3Theme.onToggleClick s = MainTheme.onToggleClick s.
Proof. reflexivity. Qed.

End ThemeFacts.

(** C4. [getInitialTheme] depends only on the stored preference and the
    OS preference: for a stored preference that is absent, "light" or
    "dark", and either OS preference, it returns the stored value when
    there is one and the OS-derived value ("dark" if the OS prefers
    dark, else "light") otherwise. *)
Theorem getInitialTheme_stored_else_os (s : Theme.state) (stored : option string) :
  stored ∈ [None; Some "light"; Some "dark"] →
  Theme.getItem "theme" s = stored →
  MainTheme.getInitialTheme s = SpecWords.initialTheme stored (Theme.prefersDark s).
Proof.
  intros Hdom Hget. unfold MainTheme.getInitialTheme. rewrite Hget.
  rewrite !elem_of_cons, elem_of_nil in Hdom.
  destruct Hdom as [-> | [-> | [-> | []]]]; reflexivity.
Qed.

Lemma getInitialTheme_stored_else_os_witness :
  Some "dark" ∈ [None; Some "light"; Some "dark"]
  ∧ Theme.getItem "theme" Examples.darkChosen = Some "dark"
  ∧ MainTheme.getInitialTheme Examples.darkChosen
    = SpecWords.initialTheme (Some "dark") (Theme.prefersDark Examples.darkChosen).
Proof.
  assert (Hdom : Some "dark" ∈ [None; Some "light"; Some "dark"])
    by (rewrite !elem_of_cons; auto).
  assert (Hget : Theme.getItem "theme" Examples.darkChosen = Some "dark")
    by (vm_compute; reflexivity).
  split; [exact Hdom | split; [exact Hget |]].
  exact (getInitialTheme_stored_else_os Examples.darkChosen (Some "dark") Hdom Hget).
Defined.

(** C1, evaluated on main.js at the input where it fails.  A first
    visit (nothing stored, OS theme light) is initialized and the OS
    then switches to dark: the applied theme stays "light", because the
    initialization itself stored "light" and the [change] listener only
    acts while nothing is stored.  The specification asks for "dark"
    here. *)
Theorem first_visit_ignores_system_change :
  Theme.getItem "theme" Examples.firstVisit = None
  ∧ Theme.getAttribute "data-theme" Examples.firstLoadedMain = Some "light"
  ∧ Theme.getItem "theme" Examples.firstLoadedMain = Some "light"
  ∧ Theme.prefersDark Examples.firstSwitchedMain = true
  ∧ Theme.getAttribute "data-theme" Examples.firstSwitchedMain = Some "light"
  ∧ Theme.getItem "theme" Examples.firstSwitchedMain = Some "light".
Proof. vm_compute. repeat split. Qed.

(** C9 fails on script.js as stated: on a first visit under a light OS
    theme the applied theme is "light" and nothing is stored; after two
    activations of the toggle "light" is stored. *)
Lemma toggle_twice_stores_on_first_visit :
  Theme.getAttribute "data-theme" Examples.firstLoadedV3 = Some "light"
  ∧ Theme.getItem "theme" Examples.firstLoadedV3 = None
  ∧ Theme.getItem "theme"
      (V3Theme.run true [Theme.ToggleClick; Theme.ToggleClick] Examples.firstVisit)
    = Some "light"
  ∧ Theme.getItem "theme"
      (V3Theme.onToggleClick (V3Theme.onToggleClick Examples.firstLoadedV3))
    ≠ Theme.getItem "theme" Examples.firstLoadedV3.
Proof. vm_compute. repeat split. congruence. Qed.

(** One activation of the toggle of main.js on an applied theme "light"
    or "dark", and two of them. *)
Lemma onToggleClick_twice (s : Theme.state) (t : string) :
  Theme.getAttribute "data-theme" s = Some t →
  t ∈ ["light"; "dark"] →
  MainTheme.onToggleClick s = MainTheme.applyTheme (Theme.flipped (Some t)) s
  ∧ MainTheme.onToggleClick (MainTheme.onToggleClick s)
    = Theme.State (<["theme" := t]> (Theme.localStorage s))
                  (Theme.documentElement s) (Theme.prefersDark s).
Proof.
  intros Hattr Ht.
  destruct (flipped_light_dark t Ht) as (_ & _ & Hback).
  assert (E1 : MainTheme.onToggleClick s
               = MainTheme.applyTheme (Theme.flipped (Some t)) s).
  { unfold MainTheme.onToggleClick. by rewrite Hattr. }
  split; [exact E1|].
  unfold MainTheme.onToggleClick at 1. rewrite E1, applyTheme_applied, Hback.
  unfold MainTheme.applyTheme, Theme.setItem, Theme.setAttribute. simpl.
  rewrite !insert_insert_eq. f_equal. by apply insert_id.
Qed.

(** In main.js the stored value is the applied theme in every state
    after initialization, so there two activations restore the state. *)
Lemma main_toggle_twice_identity (evs : list Theme.event) (s0 : Theme.state) (t : string) :
  let s := MainTheme.run true evs s0 in
  Theme.getAttribute "data-theme" s = Some t →
  t ∈ ["light"; "dark"] →
  MainTheme.onToggleClick (MainTheme.onToggleClick s) = s.
Proof.
  intros s Hattr Ht.
  destruct (onToggleClick_twice s t Hattr Ht) as [_ ->].
  destruct (run_synced evs s0) as (t' & Hst & Hat & _). fold s in Hst, Hat.
  rewrite Hattr in Hat. injection Hat as <-.
  destruct s as [sto doc os]. simpl in *. f_equal. by apply insert_id.
Qed.

(** C9, amended.  In both scripts, for an applied theme that is "light"
    or "dark": one activation of the toggle flips the marker attribute
    and persists the flipped value; two activations restore the marker
    attribute, touch no other attribute or key, and leave the applied
    theme as the persisted value.  So the whole state is restored exactly
    when the stored value was the applied theme before the first
    activation. *)
Theorem toggle_flips_and_twice_restores_marker
    (click : Theme.state → Theme.state) (s : Theme.state) (t : string) :
  click = MainTheme.onToggleClick ∨ click = V3Theme.onToggleClick →
  Theme.getAttribute "data-theme" s = Some t →
  t ∈ ["light"; "dark"] →
  let s1 := click s in
  let s2 := click s1 in
  Theme.getAttribute "data-theme" s1 = Some (Theme.flipped (Some t))
  ∧ Theme.getItem "theme" s1 = Some (Theme.flipped (Some t))
  ∧ Theme.flipped (Some t) ≠ t
  ∧ Theme.flipped (Some t) ∈ ["light"; "dark"]
  ∧ Theme.documentElement s2 = Theme.documentElement s
  ∧ Theme.localStorage s2 = <["theme" := t]> (Theme.localStorage s)
  ∧ Theme.prefersDark s2 = Theme.prefersDark s
  ∧ (s2 = s ↔ Theme.getItem "theme" s = Some t).
Proof.
  intros Hclick Hattr Ht s1 s2.
  assert (Hc : click = MainTheme.onToggleClick) by (destruct Hclick; by subst).
  subst click. clear Hclick.
  destruct (flipped_light_dark t Ht) as (Hne & Hin & _).
  destruct (onToggleClick_twice s t Hattr Ht) as [E1 E2].
  fold s1 in E1, E2. fold s2 in E2.
  rewrite E1, E2. rewrite applyTheme_applied, applyTheme_stored. simpl.
  repeat (split; [done|]). split.
  - intros Heq. unfold Theme.getItem. rewrite <- Heq. simpl. apply lookup_insert_eq.
  - intros Hst. destruct s as [sto doc os]. simpl in *. f_equal. by apply insert_id.
Qed.

Lemma toggle_flips_and_twice_restores_marker_witness :
  (V3Theme.onToggleClick = MainTheme.onToggleClick
   ∨ V3Theme.onToggleClick = V3Theme.onToggleClick)
  ∧ Theme.getAttribute "data-theme" Examples.darkLoadedV3 = Some "dark"
  ∧ "dark" ∈ ["light"; "dark"]
  ∧ Theme.documentElement
      (V3Theme.onToggleClick (V3Theme.onToggleClick Examples.darkLoadedV3))
    = Theme.documentElement Examples.darkLoadedV3
  ∧ (V3Theme.onToggleClick (V3Theme.onToggleClick Examples.darkLoadedV3)
     = Examples.darkLoadedV3
     ↔ Theme.getItem "theme" Examples.darkLoadedV3 = Some "dark").
Proof.
  assert (Hattr : Theme.getAttribute "data-theme" Examples.darkLoadedV3 = Some "dark")
    by (vm_compute; reflexivity).
  assert (Ht : "dark" ∈ ["light"; "dark"]) by (rewrite !elem_of_cons; auto).
  pose proof (toggle_flips_and_twice_restores_marker V3Theme.onToggleClick
                Examples.darkLoadedV3 "dark" (or_intror eq_refl) Hattr Ht) as H.
  split; [right; reflexivity | split; [exact Hattr | split; [exact Ht |]]].
  split; [exact (proj1 (proj2 (proj2 (proj2 (proj2 H))))) |].
  exact (proj2 (proj2 (proj2 (proj2 (proj2 (proj2 (proj2 H))))))).
Defined.

(** ** Viewport reveal *)

Section RevealFacts.
Import Reveal.
Implicit Types (s : state) (el : nat) (e : entry).

Lemma classesOf_classAdd el el' tok s :
  classesOf el' (classAdd el tok s)
  = if decide (el = el') then DOM.add (classesOf el s) tok else classesOf el' s.
Proof.
  unfold classesOf at 1. simpl. rewrite lookup_insert.
  by destruct (decide (el = el')).
Qed.

Lemma revealed_classAdd el s : revealed el (classAdd el "is-visible" s) = true.
Proof.
  unfold revealed. rewrite classesOf_classAdd.
  destruct (decide (el = el)); [apply contains_add | done].
Qed.

(** Adding the class again to a revealed element changes no class list. *)
Lemma classesOf_classAdd_revealed el el' s :
  revealed el' s = true →
  classesOf el' (classAdd el "is-visible" s) = classesOf el' s.
Proof.
  intros Hrev. rewrite classesOf_classAdd.
  destruct (decide (el = el')) as [->|]; [|done].
  apply add_present. by apply contains_true.
Qed.

Lemma revealed_stable (f : state → state) el s :
  classesOf el (f s) = classesOf el s → revealed el (f s) = revealed el s.
Proof. unfold revealed. by intros ->. Qed.

(** *** The additions counter *)

Section Counter.
Context {A : Type} (step : state → A → state) (el : nat).
Hypothesis step_keeps : ∀ s ev, revealed el s = true → revealed el (step s ev) = true.

Lemma additions_revealed evs s : revealed el s = true → additions step el s evs = 0.
Proof.
  revert s. induction evs as [|ev evs IH]; intros s Hrev; simpl; [done|].
  rewrite Hrev. simpl. apply IH, step_keeps, Hrev.
Qed.

Lemma additions_at_most_once evs s : (additions step el s evs ≤ 1)%nat.
Proof.
  revert s. induction evs as [|ev evs IH]; intros s; simpl; [lia|].
  destruct (revealed el s) eqn:Hs; simpl.
  - rewrite additions_revealed; [lia | by apply step_keeps].
  - destruct (revealed el (step s ev)) eqn:Hs'; simpl.
    + rewrite additions_revealed; [lia | done].
    + apply IH.
Qed.

End Counter.

(** *** main.js *)

Lemma main_onEntry_classes el s e :
  revealed el s = true → classesOf el (MainReveal.onEntry s e) = classesOf el s.
Proof.
  intros Hrev. unfold MainReveal.onEntry. destruct (isIntersecting e); [|done].
  change (classesOf el (unobserve ?x ?y)) with (classesOf el y).
  by apply classesOf_classAdd_revealed.
Qed.

Lemma main_onEntry_observed el s e :
  el ∉ observed s → el ∉ observed (MainReveal.onEntry s e).
Proof.
  intros Hobs. unfold MainReveal.onEntry. destruct (isIntersecting e); [|done].
  simpl. rewrite elem_of_difference. tauto.
Qed.

Lemma main_onEntry_reveals s e :
  isIntersecting e = true →
  revealed (target e) (MainReveal.onEntry s e) = true
  ∧ target e ∉ observed (MainReveal.onEntry s e).
Proof.
  intros He. unfold MainReveal.onEntry. rewrite He. split.
  - change (revealed ?x (unobserve ?y ?z)) with (revealed x z).
    apply revealed_classAdd.
  - simpl. rewrite elem_of_difference, elem_of_singleton. tauto.
Qed.

Lemma main_callback_terminal el entries s :
  revealed el s = true → el ∉ observed s →
  classesOf el (MainReveal.observerCallback entries s) = classesOf el s
  ∧ el ∉ observed (MainReveal.observerCallback entries s).
Proof.
  unfold MainReveal.observerCallback.
  revert s. induction entries as [|e entries IH]; intros s Hrev Hobs; simpl; [done|].
  pose proof (main_onEntry_classes el s e Hrev) as Hcl.
  destruct (IH (MainReveal.onEntry s e)) as [H1 H2].
  - by rewrite (revealed_stable (λ x, MainReveal.onEntry x e)).
  - by apply main_onEntry_observed.
  - split; [by rewrite H1 | done].
Qed.

Lemma main_callback_keeps el entries s :
  revealed el s = true → revealed el (MainReveal.observerCallback entries s) = true.
Proof.
  unfold MainReveal.observerCallback.
  revert s. induction entries as [|e entries IH]; intros s Hrev; simpl; [done|].
  apply IH. rewrite (revealed_stable (λ x, MainReveal.onEntry x e)); [done|].
  by apply main_onEntry_classes.
Qed.

Lemma main_callback_reveals e entries s :
  e ∈ entries → isIntersecting e = true →
  revealed (target e) (MainReveal.observerCallback entries s) = true
  ∧ target e ∉ observed (MainReveal.observerCallback entries s).
Proof.
  unfold MainReveal.observerCallback.
  revert s. induction entries as [|e' entries IH]; intros s Hin He.
  - by apply elem_of_nil in Hin.
  - apply elem_of_cons in Hin as [<- | Hin]; simpl.
    + destruct (main_onEntry_reveals s e He) as [Hrev Hobs].
      destruct (main_callback_terminal (target e) entries _ Hrev Hobs) as [Hcl Hobs'].
      split; [|exact Hobs'].
      by apply main_callback_keeps.
    + by apply IH.
Qed.

Lemma main_runs_terminal el batches s :
  revealed el s = true → el ∉ observed s →
  let s' := foldl (λ acc b, MainReveal.observerCallback b acc) s batches in
  classesOf el s' = classesOf el s ∧ el ∉ observed s'.
Proof.
  revert s. induction batches as [|b batches IH]; intros s Hrev Hobs; simpl; [done|].
  destruct (main_callback_terminal el b s Hrev Hobs) as [Hcl Hobs'].
  destruct (IH (MainReveal.observerCallback b s)) as [H1 H2].
  - by apply main_callback_keeps.
  - done.
  - split; [by rewrite H1 | done].
Qed.

(** The host drops every entry whose target is not observed. *)
Lemma hostBatch_unobserved el targets entries :
  el ∉ targets → ∀ e, e ∈ hostBatch targets entries → target e ≠ el.
Proof.
  intros Hnot e He. unfold hostBatch in He.
  apply list_elem_of_filter in He as [Hin _]. by intros <-.
Qed.

End RevealFacts.

(** *** script.js *)

Section V3RevealFacts.
Import Reveal.
Context (children : nat → list nat).
Implicit Types (s : state) (el : nat) (e : entry).

(** The fade-in callback of script.js is the callback of main.js. *)
Lemma fadeInCallback_same entries s :
  V3Reveal.fadeInCallback entries s = MainReveal.observerCallback entries s.
Proof. reflexivity. Qed.

Lemma revealChildren_classes el i elements s :
  revealed el s = true →
  classesOf el (V3Reveal.revealChildren i elements s) = classesOf el s.
Proof.
  revert i s. induction elements as [|c elements IH]; intros i s Hrev; simpl; [done|].
  assert (Hc : classesOf el (classAdd c "is-visible" (setDelay c (i * 100) s))
               = classesOf el s).
  { by rewrite classesOf_classAdd_revealed. }
  rewrite IH; [exact Hc|].
  unfold revealed. rewrite Hc. exact Hrev.
Qed.

Lemma revealChildren_observed i elements s :
  observed (V3Reveal.revealChildren i elements s) = observed s
  ∧ staggerObserved (V3Reveal.revealChildren i elements s) = staggerObserved s.
Proof.
  revert i s. induction elements as [|c elements IH]; intros i s; simpl; [done|].
  destruct (IH (i + 1)%Z (classAdd c "is-visible" (setDelay c (i * 100) s)))
    as [-> ->].
  done.
Qed.

Lemma revealChildren_reveals c i elements s :
  c ∈ elements → revealed c (V3Reveal.revealChildren i elements s) = true.
Proof.
  revert i s. induction elements as [|c' elements IH]; intros i s Hin.
  - by apply elem_of_nil in Hin.
  - simpl. destruct (decide (c = c')) as [->|Hne].
    + unfold revealed. rewrite revealChildren_classes; apply revealed_classAdd.
    + apply elem_of_cons in Hin as [?|Hin]; [done|]. by apply IH.
Qed.

Lemma onStaggerEntry_classes el s e :
  revealed el s = true →
  classesOf el (V3Reveal.onStaggerEntry children s e) = classesOf el s.
Proof.
  intros Hrev. unfold V3Reveal.onStaggerEntry. destruct (isIntersecting e); [|done].
  change (classesOf el (staggerUnobserve ?x ?y)) with (classesOf el y).
  by apply revealChildren_classes.
Qed.

Lemma onStaggerEntry_observed s e :
  observed (V3Reveal.onStaggerEntry children s e) = observed s.
Proof.
  unfold V3Reveal.onStaggerEntry. destruct (isIntersecting e); [|done].
  simpl. apply revealChildren_observed.
Qed.

Lemma staggerCallback_terminal el entries s :
  revealed el s = true →
  classesOf el (V3Reveal.staggerCallback children entries s) = classesOf el s
  ∧ observed (V3Reveal.staggerCallback children entries s) = observed s.
Proof.
  unfold V3Reveal.staggerCallback.
  revert s. induction entries as [|e entries IH]; intros s Hrev; simpl; [done|].
  pose proof (onStaggerEntry_classes el s e Hrev) as Hcl.
  destruct (IH (V3Reveal.onStaggerEntry children s e)) as [H1 H2].
  - unfold revealed. by rewrite Hcl.
  - rewrite H1, H2, Hcl, onStaggerEntry_observed. done.
Qed.

Lemma deliver_terminal el b s :
  revealed el s = true → el ∉ observed s →
  classesOf el (V3Reveal.deliver children s b) = classesOf el s
  ∧ el ∉ observed (V3Reveal.deliver children s b).
Proof.
  intros Hrev Hobs. destruct b as [entries|entries]; simpl.
  - rewrite fadeInCallback_same. by apply main_callback_terminal.
  - destruct (staggerCallback_terminal el entries s Hrev) as [-> ->]. done.
Qed.

Lemma deliver_keeps el b s :
  revealed el s = true → revealed el (V3Reveal.deliver children s b) = true.
Proof.
  intros Hrev. destruct b as [entries|entries]; simpl.
  - rewrite fadeInCallback_same. by apply main_callback_keeps.
  - unfold revealed.
    destruct (staggerCallback_terminal el entries s Hrev) as [-> _]. exact Hrev.
Qed.

Lemma deliver_runs_terminal el batches s :
  revealed el s = true → el ∉ observed s →
  let s' := foldl (V3Reveal.deliver children) s batches in
  classesOf el s' = classesOf el s ∧ el ∉ observed s'.
Proof.
  revert s. induction batches as [|b batches IH]; intros s Hrev Hobs; simpl; [done|].
  destruct (deliver_terminal el b s Hrev Hobs) as [Hcl Hobs'].
  destruct (IH (V3Reveal.deliver children s b)) as [H1 H2].
  - by apply deliver_keeps.
  - done.
  - split; [by rewrite H1 | done].
Qed.

End V3RevealFacts.

(** C7. For any element, over every sequence of intersection batches of
    one page load, the class "is-visible" is added at most once: the
    element goes from not revealed to revealed in at most one step, in
    main.js and in script.js (fade-in and stagger observers together).
    An intersecting entry for the element reveals it and removes it from
    the observation targets.  Once revealed and unobserved, no later
    batch changes its class list or observes it again, and the host
    delivers no further entry for it. *)
Theorem reveal_once_and_terminal
    (children : nat → list nat) (el : nat) (s : Reveal.state) :
  (∀ (runs : list (list Reveal.entry)) (batches : list V3Reveal.batch),
      (Reveal.additions (λ acc b, MainReveal.observerCallback b acc) el s runs ≤ 1)%nat
      ∧ (Reveal.additions (V3Reveal.deliver children) el s batches ≤ 1)%nat)
  ∧ (∀ e entries,
        e ∈ entries → Reveal.isIntersecting e = true → Reveal.target e = el →
        (Reveal.revealed el (MainReveal.observerCallback entries s) = true
         ∧ el ∉ Reveal.observed (MainReveal.observerCallback entries s))
        ∧ (Reveal.revealed el (V3Reveal.fadeInCallback entries s) = true
           ∧ el ∉ Reveal.observed (V3Reveal.fadeInCallback entries s)))
  ∧ (Reveal.revealed el s = true → el ∉ Reveal.observed s →
     ∀ (runs : list (list Reveal.entry)) (batches : list V3Reveal.batch),
       let main := foldl (λ acc b, MainReveal.observerCallback b acc) s runs in
       let v3 := foldl (V3Reveal.deliver children) s batches in
       (Reveal.classesOf el main = Reveal.classesOf el s
        ∧ (el ∉ Reveal.observed main)
        ∧ (∀ entries e, e ∈ Reveal.hostBatch (Reveal.observed main) entries →
                        Reveal.target e ≠ el))
       ∧ (Reveal.classesOf el v3 = Reveal.classesOf el s
          ∧ (el ∉ Reveal.observed v3)
          ∧ (∀ entries e, e ∈ Reveal.hostBatch (Reveal.observed v3) entries →
                          Reveal.target e ≠ el))).
Proof.
  split; [|split].
  - intros runs batches. split.
    + apply additions_at_most_once. intros s0 b. apply main_callback_keeps.
    + apply additions_at_most_once. intros s0 b. apply deliver_keeps.
  - intros e entries Hin He <-. split.
    + by apply main_callback_reveals.
    + rewrite fadeInCallback_same. by apply main_callback_reveals.
  - intros Hrev Hobs runs batches main v3.
    destruct (main_runs_terminal el runs s Hrev Hobs) as [Hm1 Hm2].
    destruct (deliver_runs_terminal children el batches s Hrev Hobs) as [Hv1 Hv2].
    split; (split; [done | split; [done |]]);
      intros entries e; by apply hostBatch_unobserved.
Qed.

Lemma reveal_once_and_terminal_witness :
  Reveal.revealed 1 Examples.oneRevealed = true
  ∧ (1 ∉ Reveal.observed Examples.oneRevealed)
  ∧ Reveal.classesOf 1
      (foldl (V3Reveal.deliver Examples.gridChildren) Examples.oneRevealed
             [V3Reveal.FadeBatch [Reveal.Entry 1 true];
              V3Reveal.StaggerBatch [Reveal.Entry 3 true]])
    = Reveal.classesOf 1 Examples.oneRevealed.
Proof.
  assert (Hrev : Reveal.revealed 1 Examples.oneRevealed = true)
    by (vm_compute; reflexivity).
  assert (Hobs : 1 ∉ Reveal.observed Examples.oneRevealed)
    by (apply (bool_decide_unpack _); vm_compute; reflexivity).
  split; [exact Hrev | split; [exact Hobs |]].
  exact (proj1 (proj2
    (proj2 (proj2 (reveal_once_and_terminal Examples.gridChildren 1 Examples.oneRevealed))
       Hrev Hobs []
       [V3Reveal.FadeBatch [Reveal.Entry 1 true];
        V3Reveal.StaggerBatch [Reveal.Entry 3 true]]))).
Defined.

(** ** Scroll-spy *)

Section SpyFacts.
Import Spy.
Implicit Types (l : link) (links : list link) (e : entry) (entries : list entry).

Lemma active_mark frag l : active (mark frag l) = JS.strict_eq (href l) (Some frag).
Proof. unfold active, mark. simpl. apply contains_toggle. Qed.

Lemma href_mark frag l : href (mark frag l) = href l.
Proof. reflexivity. Qed.

(** The callbacks of the three observers are one fold, up to the way
    the fragment is built from the section. *)
Section Callback.
Context (fragment : section → string).

Lemma fold_hrefs entries links :
  href <$> foldl (onEntryWith fragment) links entries = href <$> links.
Proof.
  revert links. induction entries as [|e entries IH]; intros links; simpl; [done|].
  rewrite IH. unfold onEntryWith. destruct (isIntersecting e); [|done].
  rewrite <- list_fmap_compose. by apply list_fmap_ext.
Qed.

Lemma fold_none_intersecting entries links :
  intersecting entries = [] → foldl (onEntryWith fragment) links entries = links.
Proof.
  revert links. induction entries as [|e entries IH]; intros links; simpl; [done|].
  unfold intersecting. destruct (isIntersecting e) eqn:He.
  - rewrite filter_cons_True by done. discriminate.
  - rewrite filter_cons_False by congruence. intros H.
    rewrite IH by exact H. unfold onEntryWith. by rewrite He.
Qed.

(** The last intersecting entry decides: the result is that entry's
    marking applied to lists with the same [href]s. *)
Lemma fold_last entries links e :
  last (intersecting entries) = Some e →
  ∀ j l', foldl (onEntryWith fragment) links entries !! j = Some l' →
    ∃ l, links !! j = Some l ∧ href l' = href l
         ∧ active l' = JS.strict_eq (href l) (Some (fragment (target e))).
Proof.
  revert links e. induction entries as [|e0 entries IH] using rev_ind;
    intros links e Hlast j l' Hj.
  - discriminate.
  - rewrite foldl_app in Hj. simpl in Hj.
    unfold intersecting in Hlast. rewrite filter_app in Hlast.
    unfold onEntryWith in Hj at 1. destruct (isIntersecting e0) eqn:He0.
    + rewrite filter_cons_True, filter_nil in Hlast by done.
      rewrite last_snoc in Hlast. injection Hlast as <-.
      rewrite list_lookup_fmap in Hj.
      destruct (foldl (onEntryWith fragment) links entries !! j) as [l0|] eqn:Hl0;
        [|discriminate].
      injection Hj as <-.
      assert (Hh : (href <$> foldl (onEntryWith fragment) links entries) !! j
                   = Some (href l0))
        by (by rewrite list_lookup_fmap, Hl0).
      rewrite fold_hrefs, list_lookup_fmap in Hh.
      destruct (links !! j) as [l|]; [|discriminate].
      injection Hh as Hh. exists l. rewrite active_mark, href_mark, Hh. done.
    + rewrite filter_cons_False, filter_nil, app_nil_r in Hlast by congruence.
      by apply (IH links e).
Qed.

(** Whatever the batch, a callback keeps the links at most one active
    when their [href]s are pairwise distinct. *)
Lemma fold_at_most_one entries links :
  NoDup (href <$> links) →
  atMostOneActive links →
  atMostOneActive (foldl (onEntryWith fragment) links entries).
Proof.
  intros Hnd Hone. destruct (last (intersecting entries)) as [e|] eqn:Hlast.
  - intros i j li lj Hi Hj Hai Haj.
    destruct (fold_last entries links e Hlast i li Hi) as (li0 & Hi0 & _ & Hacti).
    destruct (fold_last entries links e Hlast j lj Hj) as (lj0 & Hj0 & _ & Hactj).
    rewrite Hai in Hacti. rewrite Haj in Hactj.
    symmetry in Hacti, Hactj. unfold JS.strict_eq in Hacti, Hactj.
    apply bool_decide_eq_true in Hacti, Hactj.
    apply (NoDup_lookup (href <$> links) i j (href li0)); [done | |].
    + by rewrite list_lookup_fmap, Hi0.
    + rewrite list_lookup_fmap, Hj0. simpl. congruence.
  - apply last_None in Hlast. by rewrite fold_none_intersecting.
Qed.

End Callback.

Lemma fragment_inj (a b : string) : "#" +:+ a = "#" +:+ b → a = b.
Proof. simpl. intros H. by injection H. Qed.

(** With links matched to sections with distinct ids, the fragment of
    section [k] selects link [k] and no other. *)
Lemma matched_link (ids : list string) links k idk j l :
  NoDup ids →
  href <$> links = (λ i, Some ("#" +:+ i)) <$> ids →
  ids !! k = Some idk →
  links !! j = Some l →
  JS.strict_eq (href l) (Some ("#" +:+ idk)) = true ↔ j = k.
Proof.
  intros Hnd Hmatch Hk Hj.
  assert (Hh : (href <$> links) !! j = Some (href l))
    by (by rewrite list_lookup_fmap, Hj).
  rewrite Hmatch, list_lookup_fmap in Hh.
  destruct (ids !! j) as [idj|] eqn:Hidj; [|discriminate].
  injection Hh as Hh. unfold JS.strict_eq. rewrite bool_decide_eq_true, <- Hh.
  split.
  - intros Heq. assert (Hid : idj = idk) by (apply fragment_inj; congruence).
    eapply NoDup_lookup; [exact Hnd | exact Hidj |]. by rewrite Hk, Hid.
  - intros ->. rewrite Hk in Hidj. by injection Hidj as ->.
Qed.

End SpyFacts.

(** C8. For a scroll-spy instance whose links are matched to sections
    with distinct ids (link k has href "#" followed by the id of section
    k): after a callback whose last intersecting entry is section k,
    link k carries the class "active" and no other link of the instance
    does; no link is added, removed or re-targeted.  No callback, with
    whatever batch, takes the links from at most one active to more than
    one.  This holds for the policy observer of main.js and for both
    observers of script.js. *)
Theorem spy_last_intersecting_wins
    (ids : list string) (links : list Spy.link) (entries : list Spy.entry)
    (e : Spy.entry) (k : nat) (idk : string)
    (callback : list Spy.entry → list Spy.link → list Spy.link) :
  callback ∈ [MainSpy.observerCallback; V3Spy.attractionsCallback;
              V3Spy.policyCallback] →
  NoDup ids →
  Spy.href <$> links = (λ i, Some ("#" +:+ i)) <$> ids →
  last (Spy.intersecting entries) = Some e →
  Spy.id (Spy.target e) = Some idk →
  ids !! k = Some idk →
  let links' := callback entries links in
  Spy.href <$> links' = Spy.href <$> links
  ∧ (∀ j l', links' !! j = Some l' → (Spy.active l' = true ↔ j = k))
  ∧ Spy.atMostOneActive links'
  ∧ (∀ batch, Spy.atMostOneActive links → Spy.atMostOneActive (callback batch links)).
Proof.
  intros Hcb Hnd Hmatch Hlast Hid Hk links'.
  assert (Hgen : ∃ fragment,
             callback = (λ batch ls, foldl (Spy.onEntryWith fragment) ls batch)
             ∧ fragment (Spy.target e) = "#" +:+ idk).
  { rewrite !elem_of_cons, elem_of_nil in Hcb.
    destruct Hcb as [-> | [-> | [-> | []]]].
    - exists MainSpy.fragment. split; [done|]. unfold MainSpy.fragment. by rewrite Hid.
    - exists V3Spy.fragment. split; [done|]. unfold V3Spy.fragment. by rewrite Hid.
    - exists V3Spy.fragment. split; [done|]. unfold V3Spy.fragment. by rewrite Hid. }
  destruct Hgen as (fragment & -> & Hfrag). simpl in links'.
  assert (Hat : ∀ j l', links' !! j = Some l' → (Spy.active l' = true ↔ j = k)).
  { intros j l' Hj.
    destruct (fold_last fragment entries links e Hlast j l' Hj) as (l & Hl & _ & Hact).
    rewrite Hact, Hfrag. by apply (matched_link ids links k idk j l). }
  split; [apply fold_hrefs | split; [exact Hat | split]].
  - intros i j li lj Hi Hj Hai Haj.
    apply (Hat i li Hi) in Hai. apply (Hat j lj Hj) in Haj. congruence.
  - intros batch. apply fold_at_most_one. rewrite Hmatch.
    apply NoDup_fmap_2; [|exact Hnd].
    intros a b Hab. apply fragment_inj. congruence.
Qed.

Lemma spy_last_intersecting_wins_witness :
  V3Spy.attractionsCallback
    ∈ [MainSpy.observerCallback; V3Spy.attractionsCallback; V3Spy.policyCallback]
  ∧ NoDup Examples.navIds
  ∧ Spy.href <$> Examples.navLinks = (λ i, Some ("#" +:+ i)) <$> Examples.navIds
  ∧ last (Spy.intersecting Examples.navBatch)
    = Some (Spy.Entry (Spy.Section_ (Some "beaches")) true)
  ∧ Examples.navIds !! 1%nat = Some "beaches"
  ∧ (∀ j l', V3Spy.attractionsCallback Examples.navBatch Examples.navLinks !! j
             = Some l' → (Spy.active l' = true ↔ j = 1%nat)).
Proof.
  assert (Hcb : V3Spy.attractionsCallback
                  ∈ [MainSpy.observerCallback; V3Spy.attractionsCallback;
                     V3Spy.policyCallback])
    by (rewrite !elem_of_cons; auto).
  assert (Hnd : NoDup Examples.navIds)
    by (apply (bool_decide_unpack _); vm_compute; reflexivity).
  assert (Hmatch : Spy.href <$> Examples.navLinks
                   = (λ i, Some ("#" +:+ i)) <$> Examples.navIds)
    by reflexivity.
  assert (Hlast : last (Spy.intersecting Examples.navBatch)
                  = Some (Spy.Entry (Spy.Section_ (Some "beaches")) true))
    by (vm_compute; reflexivity).
  assert (Hk : Examples.navIds !! 1%nat = Some "beaches") by reflexivity.
  repeat (split; [assumption|]).
  exact (proj1 (proj2
    (spy_last_intersecting_wins Examples.navIds Examples.navLinks Examples.navBatch
       (Spy.Entry (Spy.Section_ (Some "beaches")) true) 1 "beaches"
       V3Spy.attractionsCallback Hcb Hnd Hmatch Hlast eq_refl Hk))).
Defined.

(** ** Lightbox cursor arithmetic *)

Section CursorArithmetic.
Open Scope Z_scope.
Implicit Types (i : Z) (n : nat).

Lemma rem_next i n :
  0 ≤ i < Z.of_nat n →
  JS.rem (JS.add (JS.Int i) (JS.Int 1)) (JS.of_nat n)
  = JS.Int ((i + 1) mod Z.of_nat n).
Proof.
  intros Hi. unfold JS.of_nat. simpl.
  destruct (Z.eqb_spec (Z.of_nat n) 0) as [E|_]; [lia|].
  f_equal. apply Z.rem_mod_nonneg; lia.
Qed.

Lemma rem_prev i n :
  0 ≤ i < Z.of_nat n →
  JS.rem (JS.add (JS.sub (JS.Int i) (JS.Int 1)) (JS.of_nat n)) (JS.of_nat n)
  = JS.Int ((i - 1 + Z.of_nat n) mod Z.of_nat n).
Proof.
  intros Hi. unfold JS.of_nat. simpl.
  destruct (Z.eqb_spec (Z.of_nat n) 0) as [E|_]; [lia|].
  f_equal. apply Z.rem_mod_nonneg; lia.
Qed.

(** A remainder by the length of an empty list is [NaN], whatever the
    cursor holds. *)
Lemma rem_zero (x : JS.num) : JS.rem x (JS.of_nat 0) = JS.NaN.
Proof. by destruct x. Qed.

Lemma index_in_range {A : Type} (arr : list A) i :
  0 ≤ i < Z.of_nat (length arr) → ∃ x, JS.index arr (JS.Int i) = Some x
                                       ∧ arr !! Z.to_nat i = Some x.
Proof.
  intros Hi. unfold JS.index.
  destruct (Z.leb_spec 0 i) as [_|]; [|lia].
  destruct (lookup_lt_is_Some_2 arr (Z.to_nat i)) as [x Hx]; [lia|].
  exists x. by rewrite Hx.
Qed.

Lemma mod_in_range i n :
  0 < Z.of_nat n → 0 ≤ i mod Z.of_nat n < Z.of_nat n.
Proof. intros Hn. apply Z.mod_pos_bound. lia. Qed.

End CursorArithmetic.

(** ** script.js: gallery *)

Section V3GalleryFacts.
Import Gallery V3Gallery.
Implicit Types (s : state) (i : nat).

Lemma openLightbox_cursor idx s : currentIndex (fst (openLightbox idx s)) = idx.
Proof.
  unfold openLightbox. simpl.
  destruct (JS.index (allVisibleItems s) idx) as [ref|]; [|done].
  by destruct (galleryItems s !! ref).
Qed.

(** Outside the range of the visible list nothing is shown. *)
Lemma openLightbox_undefined idx s :
  JS.index (allVisibleItems s) idx = None →
  openLightbox idx s = (setIndex idx s, JS.TypeError).
Proof. intros H. unfold openLightbox. simpl. by rewrite H. Qed.

Lemma openLightbox_shows idx ref item s :
  JS.index (allVisibleItems s) idx = Some ref →
  galleryItems s !! ref = Some item →
  openLightbox idx s
  = (setLightbox (DOM.add (lightbox s) "active")
       (setCaption (default "" (caption item))
          (setImg (href item) (setIndex idx s))),
     JS.Normal).
Proof. intros H1 H2. unfold openLightbox. simpl. by rewrite H1, H2. Qed.

Lemma showNext_empty s :
  allVisibleItems s = [] → showNext s = (setIndex JS.NaN s, JS.TypeError).
Proof.
  intros H. unfold showNext, length_. rewrite H. simpl length.
  rewrite rem_zero. by apply openLightbox_undefined.
Qed.

Lemma showPrev_empty s :
  allVisibleItems s = [] → showPrev s = (setIndex JS.NaN s, JS.TypeError).
Proof.
  intros H. unfold showPrev, length_. rewrite H. simpl length.
  rewrite rem_zero. by apply openLightbox_undefined.
Qed.

End V3GalleryFacts.

(** ** main.js: gallery *)

Section MainGalleryFacts.
Import Gallery MainGallery.
Implicit Types (s : state) (i : nat).

Lemma main_openLightbox_cursor idx s : currentIndex (fst (openLightbox idx s)) = idx.
Proof.
  unfold openLightbox. simpl. by destruct (JS.index (images s) idx).
Qed.

Lemma main_openLightbox_undefined idx s :
  JS.index (images s) idx = None →
  openLightbox idx s = (setIndex idx s, JS.TypeError).
Proof. intros H. unfold openLightbox. simpl. by rewrite H. Qed.

Lemma main_openLightbox_shows idx img s :
  JS.index (images s) idx = Some img →
  openLightbox idx s
  = (setLightbox (DOM.add (lightbox s) "active")
       (setCaption (default "" (img_caption img))
          (setImg (src img) (setIndex idx s))),
     JS.Normal).
Proof. intros H. unfold openLightbox. simpl. by rewrite H. Qed.

Lemma main_showNext_empty s :
  images s = [] → showNext s = (setIndex JS.NaN s, JS.TypeError).
Proof.
  intros H. unfold showNext, length_. rewrite H. simpl length.
  rewrite rem_zero. simpl. rewrite main_openLightbox_undefined by done.
  by destruct s.
Qed.

Lemma main_showPrev_empty s :
  images s = [] → showPrev s = (setIndex JS.NaN s, JS.TypeError).
Proof.
  intros H. unfold showPrev, length_. rewrite H. simpl length.
  rewrite rem_zero. simpl. rewrite main_openLightbox_undefined by done.
  by destruct s.
Qed.

End MainGalleryFacts.

(** ** Lightbox navigation *)

Example galleryMain_is_initialized :
  MainGallery.initGalleryPage Examples.buttons Examples.items (Some ["lightbox"]) "" ""
  = Some Examples.galleryMain
  ∧ MainGallery.initGalleryPage Examples.buttons [] (Some ["lightbox"]) "" ""
    = Some Examples.emptyMain.
Proof. split; reflexivity. Qed.

(** The previous and next controls and the arrow keys run [showPrev] and
    [showNext]; the click also reaches the listener of [#lightbox],
    which ignores it. *)
Lemma v3_dispatch_navigation s :
  V3Gallery.dispatch (V3Gallery.Click Gallery.LightboxNext) s = V3Gallery.showNext s
  ∧ V3Gallery.dispatch (V3Gallery.Click Gallery.LightboxPrev) s = V3Gallery.showPrev s
  ∧ (DOM.contains (V3Gallery.lightbox s) "active" = true →
     V3Gallery.dispatch (V3Gallery.KeyDown "ArrowRight") s = V3Gallery.showNext s
     ∧ V3Gallery.dispatch (V3Gallery.KeyDown "ArrowLeft") s = V3Gallery.showPrev s).
Proof.
  split; [|split].
  - simpl. by destruct (V3Gallery.showNext s).
  - simpl. by destruct (V3Gallery.showPrev s).
  - intros Hact. simpl. unfold V3Gallery.onKeyDown. rewrite Hact. simpl.
    split; [done|]. by destruct (V3Gallery.showPrev s) as [s2 []].
Qed.

Lemma main_dispatch_navigation s :
  MainGallery.dispatch (MainGallery.Click Gallery.LightboxNext) s = MainGallery.showNext s
  ∧ MainGallery.dispatch (MainGallery.Click Gallery.LightboxPrev) s
    = MainGallery.showPrev s
  ∧ (DOM.contains (MainGallery.lightbox s) "active" = true →
     MainGallery.dispatch (MainGallery.KeyDown "ArrowRight") s = MainGallery.showNext s
     ∧ MainGallery.dispatch (MainGallery.KeyDown "ArrowLeft") s = MainGallery.showPrev s).
Proof.
  split; [|split].
  - simpl. by destruct (MainGallery.showNext s).
  - simpl. by destruct (MainGallery.showPrev s).
  - intros Hact. simpl. unfold MainGallery.onKeyDown. rewrite Hact. simpl.
    split; [done|]. by destruct (MainGallery.showPrev s) as [s2 []].
Qed.

(** Wrap-around on the list each script navigates.  For a list of
    length N ≥ 1 (the visible items in script.js, the images built at
    initialization in main.js) and a cursor i with 0 ≤ i < N, next sets
    the cursor to (i+1) mod N and prev sets it to (i−1+N) mod N; for
    N = 1 both leave the cursor at i.  In main.js, and in script.js when
    the visible list refers to gallery items, both operations complete
    without error. *)
Theorem lightbox_next_prev_wrap (i : Z) :
  (∀ s : V3Gallery.state,
      let N := Z.of_nat (length (V3Gallery.allVisibleItems s)) in
      V3Gallery.currentIndex s = JS.Int i → (0 ≤ i < N)%Z →
      V3Gallery.currentIndex (fst (V3Gallery.showNext s)) = JS.Int ((i + 1) mod N)
      ∧ V3Gallery.currentIndex (fst (V3Gallery.showPrev s))
        = JS.Int ((i - 1 + N) mod N)
      ∧ (N = 1%Z →
         V3Gallery.currentIndex (fst (V3Gallery.showNext s)) = JS.Int i
         ∧ V3Gallery.currentIndex (fst (V3Gallery.showPrev s)) = JS.Int i)
      ∧ ((∀ ref, ref ∈ V3Gallery.allVisibleItems s →
                 (ref < length (V3Gallery.galleryItems s))%nat) →
         snd (V3Gallery.showNext s) = JS.Normal
         ∧ snd (V3Gallery.showPrev s) = JS.Normal))
  ∧ (∀ s : MainGallery.state,
        let N := Z.of_nat (length (MainGallery.images s)) in
        MainGallery.currentIndex s = JS.Int i → (0 ≤ i < N)%Z →
        MainGallery.currentIndex (fst (MainGallery.showNext s))
        = JS.Int ((i + 1) mod N)
        ∧ MainGallery.currentIndex (fst (MainGallery.showPrev s))
          = JS.Int ((i - 1 + N) mod N)
        ∧ (N = 1%Z →
           MainGallery.currentIndex (fst (MainGallery.showNext s)) = JS.Int i
           ∧ MainGallery.currentIndex (fst (MainGallery.showPrev s)) = JS.Int i)
        ∧ snd (MainGallery.showNext s) = JS.Normal
        ∧ snd (MainGallery.showPrev s) = JS.Normal).
Proof.
  split.
  - intros s N Hcur Hi.
    assert (Hn : V3Gallery.currentIndex (fst (V3Gallery.showNext s))
                 = JS.Int ((i + 1) mod N)).
    { unfold V3Gallery.showNext. rewrite openLightbox_cursor, Hcur.
      by apply rem_next. }
    assert (Hp : V3Gallery.currentIndex (fst (V3Gallery.showPrev s))
                 = JS.Int ((i - 1 + N) mod N)).
    { unfold V3Gallery.showPrev. rewrite openLightbox_cursor, Hcur.
      by apply rem_prev. }
    split; [exact Hn | split; [exact Hp | split]].
    + intros HN. rewrite Hn, Hp, HN. assert (i = 0)%Z as -> by lia. done.
    + intros Hwf.
      assert (Hok : ∀ j, (0 ≤ j < N)%Z →
                snd (V3Gallery.openLightbox (JS.Int j) s) = JS.Normal).
      { intros j Hj.
        destruct (index_in_range (V3Gallery.allVisibleItems s) j Hj)
          as (ref & Href & Hlook).
        destruct (lookup_lt_is_Some_2 (V3Gallery.galleryItems s) ref) as [item Hitem].
        { apply Hwf. by eapply list_elem_of_lookup_2. }
        by rewrite (openLightbox_shows (JS.Int j) ref item s Href Hitem). }
      unfold V3Gallery.showNext, V3Gallery.showPrev, V3Gallery.length_. rewrite Hcur.
      rewrite rem_next, rem_prev by exact Hi.
      split; apply Hok; apply mod_in_range; lia.
  - intros s N Hcur Hi.
    assert (Hshow : ∀ j, (0 ≤ j < N)%Z →
              MainGallery.openLightbox (JS.Int j) (MainGallery.setIndex (JS.Int j) s)
              = (fst (MainGallery.openLightbox (JS.Int j)
                        (MainGallery.setIndex (JS.Int j) s)), JS.Normal)).
    { intros j Hj.
      destruct (index_in_range (MainGallery.images s) j Hj) as (img & Himg & _).
      by rewrite (main_openLightbox_shows (JS.Int j) img
                    (MainGallery.setIndex (JS.Int j) s) Himg). }
    assert (Hn : MainGallery.showNext s
                 = (fst (MainGallery.showNext s), JS.Normal)
                 ∧ MainGallery.currentIndex (fst (MainGallery.showNext s))
                   = JS.Int ((i + 1) mod N)).
    { unfold MainGallery.showNext, MainGallery.length_.
      rewrite Hcur, rem_next by exact Hi. simpl.
      rewrite main_openLightbox_cursor. split; [|done].
      apply Hshow, mod_in_range. lia. }
    assert (Hp : MainGallery.showPrev s
                 = (fst (MainGallery.showPrev s), JS.Normal)
                 ∧ MainGallery.currentIndex (fst (MainGallery.showPrev s))
                   = JS.Int ((i - 1 + N) mod N)).
    { unfold MainGallery.showPrev, MainGallery.length_.
      rewrite Hcur, rem_prev by exact Hi. simpl.
      rewrite main_openLightbox_cursor. split; [|done].
      apply Hshow, mod_in_range. lia. }
    destruct Hn as [Hn1 Hn2], Hp as [Hp1 Hp2].
    split; [exact Hn2 | split; [exact Hp2 | split; [| split]]].
    + intros HN. rewrite Hn2, Hp2, HN. assert (i = 0)%Z as -> by lia. done.
    + by rewrite Hn1.
    + by rewrite Hp1.
Qed.

Lemma lightbox_next_prev_wrap_witness :
  (V3Gallery.currentIndex Examples.openedV3 = JS.Int 2
   ∧ (0 ≤ 2 < Z.of_nat (length (V3Gallery.allVisibleItems Examples.openedV3)))%Z
   ∧ V3Gallery.currentIndex (fst (V3Gallery.showNext Examples.openedV3))
     = JS.Int ((2 + 1) mod Z.of_nat (length (V3Gallery.allVisibleItems Examples.openedV3))))
  ∧ (MainGallery.currentIndex Examples.openedMain = JS.Int 2
     ∧ (0 ≤ 2 < Z.of_nat (length (MainGallery.images Examples.openedMain)))%Z
     ∧ MainGallery.currentIndex (fst (MainGallery.showNext Examples.openedMain))
       = JS.Int ((2 + 1) mod Z.of_nat (length (MainGallery.images Examples.openedMain)))).
Proof.
  assert (Hc3 : V3Gallery.currentIndex Examples.openedV3 = JS.Int 2) by reflexivity.
  assert (Hr3 : (0 ≤ 2 < Z.of_nat (length (V3Gallery.allVisibleItems Examples.openedV3)))%Z)
    by (vm_compute; split; [discriminate | reflexivity]).
  assert (Hcm : MainGallery.currentIndex Examples.openedMain = JS.Int 2) by reflexivity.
  assert (Hrm : (0 ≤ 2 < Z.of_nat (length (MainGallery.images Examples.openedMain)))%Z)
    by (vm_compute; split; [discriminate | reflexivity]).
  split; (split; [assumption | split; [assumption |]]).
  - exact (proj1 (proj1 (lightbox_next_prev_wrap 2) Examples.openedV3 Hc3 Hr3)).
  - exact (proj1 (proj2 (lightbox_next_prev_wrap 2) Examples.openedMain Hcm Hrm)).
Defined.

(** C5, evaluated on both scripts with the "rooms" filter selected, so
    that the visible pictures are those at positions 0 and 2 (N = 2),
    after a click on the suite (position 0) and one next.  Both cursors
    are then 1, inside the visible list.  In script.js the next
    operation sets the cursor to (1+1) mod 2 = 0 and prev, from the
    cursor 0, to (0−1+2) mod 2 = 1.  In main.js, which wraps over the
    three images built at initialization, next sets the cursor to 2 and
    prev, from the cursor 0, sets it to 2 as well: neither is the value
    the specification gives, and 2 is no position of the visible list.
    On the way main.js has shown the hidden restaurant picture. *)
Theorem main_wrap_ignores_visible_list :
  (V3Gallery.allVisibleItems Examples.browsingV3 = [0; 2]%nat
   ∧ V3Gallery.currentIndex Examples.browsingV3 = JS.Int 1
   ∧ V3Gallery.currentIndex (fst (V3Gallery.showNext Examples.browsingV3))
     = JS.Int ((1 + 1) mod 2)
   ∧ V3Gallery.currentIndex Examples.pickedV3 = JS.Int 0
   ∧ V3Gallery.currentIndex (fst (V3Gallery.showPrev Examples.pickedV3))
     = JS.Int ((0 - 1 + 2) mod 2))
  ∧ (V3Gallery.visibleFrom 0 (MainGallery.galleryItems Examples.browsingMain)
     = [0; 2]%nat
     ∧ MainGallery.currentIndex Examples.browsingMain = JS.Int 1
     ∧ MainGallery.lightboxImg Examples.browsingMain = "img/buffet.jpg"
     ∧ MainGallery.showNext Examples.browsingMain
       = (fst (MainGallery.showNext Examples.browsingMain), JS.Normal)
     ∧ MainGallery.currentIndex (fst (MainGallery.showNext Examples.browsingMain))
       = JS.Int 2
     ∧ JS.Int 2 ≠ JS.Int ((1 + 1) mod 2)
     ∧ MainGallery.currentIndex Examples.pickedMain = JS.Int 0
     ∧ MainGallery.currentIndex (fst (MainGallery.showPrev Examples.pickedMain))
       = JS.Int 2
     ∧ JS.Int 2 ≠ JS.Int ((0 - 1 + 2) mod 2)).
Proof. vm_compute. repeat split; discriminate. Qed.

(** C2, evaluated on the code at inputs with an empty list.  In
    script.js the visible list is empty until a picture is opened; in
    main.js the image list is empty on a page without pictures.  There
    next and prev take a remainder by zero: the cursor becomes [NaN] and
    the listener throws on the missing item.  The specification asks for
    the cursor to stay as it was. *)
Theorem next_prev_on_empty_list_corrupt_cursor :
  (V3Gallery.allVisibleItems Examples.galleryV3 = []
   ∧ V3Gallery.currentIndex Examples.galleryV3 = JS.Int 0
   ∧ V3Gallery.dispatch (V3Gallery.Click Gallery.LightboxNext) Examples.galleryV3
     = (V3Gallery.setIndex JS.NaN Examples.galleryV3, JS.TypeError)
   ∧ V3Gallery.dispatch (V3Gallery.Click Gallery.LightboxPrev) Examples.galleryV3
     = (V3Gallery.setIndex JS.NaN Examples.galleryV3, JS.TypeError))
  ∧ (MainGallery.images Examples.emptyMain = []
     ∧ MainGallery.currentIndex Examples.emptyMain = JS.Int 0
     ∧ MainGallery.dispatch (MainGallery.Click Gallery.LightboxNext) Examples.emptyMain
       = (MainGallery.setIndex JS.NaN Examples.emptyMain, JS.TypeError)
     ∧ MainGallery.dispatch (MainGallery.Click Gallery.LightboxPrev) Examples.emptyMain
       = (MainGallery.setIndex JS.NaN Examples.emptyMain, JS.TypeError)).
Proof. repeat split. Qed.

(** ** Closing the lightbox *)

Lemma v3_setLightbox_same s cl :
  cl = V3Gallery.lightbox s → V3Gallery.setLightbox cl s = s.
Proof. intros ->. by destruct s. Qed.

Lemma main_setLightbox_same s cl :
  cl = MainGallery.lightbox s → MainGallery.setLightbox cl s = s.
Proof. intros ->. by destruct s. Qed.

Lemma v3_escape s :
  V3Gallery.onKeyDown "Escape" s = (V3Gallery.closeLightbox s, JS.Normal).
Proof.
  unfold V3Gallery.onKeyDown. destruct (DOM.contains _ _) eqn:Hact; simpl; [done|].
  unfold V3Gallery.closeLightbox. rewrite v3_setLightbox_same; [done|].
  apply remove_absent. by apply contains_false.
Qed.

Lemma main_escape s :
  MainGallery.onKeyDown "Escape" s = (MainGallery.closeLightbox s, JS.Normal).
Proof.
  unfold MainGallery.onKeyDown. destruct (DOM.contains _ _) eqn:Hact; simpl; [done|].
  unfold MainGallery.closeLightbox. rewrite main_setLightbox_same; [done|].
  apply remove_absent. by apply contains_false.
Qed.

(** C10. Closing the lightbox, by the close control, by a click on the
    backdrop or by Escape, only removes "active" from the class list of
    the lightbox: the filter buttons, the gallery items with their
    display, the image source, the caption, the cursor and the lists the
    cursor points into are unchanged, and so is every other class of the
    lightbox. *)
Theorem close_only_clears_active :
  (∀ s : V3Gallery.state,
      let closed := V3Gallery.closeLightbox s in
      V3Gallery.dispatch (V3Gallery.Click Gallery.LightboxClose) s = (closed, JS.Normal)
      ∧ V3Gallery.dispatch (V3Gallery.Click Gallery.Lightbox) s = (closed, JS.Normal)
      ∧ V3Gallery.dispatch (V3Gallery.KeyDown "Escape") s = (closed, JS.Normal)
      ∧ V3Gallery.filterButtons closed = V3Gallery.filterButtons s
      ∧ V3Gallery.galleryItems closed = V3Gallery.galleryItems s
      ∧ V3Gallery.lightboxImg closed = V3Gallery.lightboxImg s
      ∧ V3Gallery.lightboxCaption closed = V3Gallery.lightboxCaption s
      ∧ V3Gallery.allVisibleItems closed = V3Gallery.allVisibleItems s
      ∧ V3Gallery.currentIndex closed = V3Gallery.currentIndex s
      ∧ (∀ tok, tok ∈ V3Gallery.lightbox closed
                ↔ tok ∈ V3Gallery.lightbox s ∧ tok ≠ "active"))
  ∧ (∀ s : MainGallery.state,
        let closed := MainGallery.closeLightbox s in
        MainGallery.dispatch (MainGallery.Click Gallery.LightboxClose) s
        = (closed, JS.Normal)
        ∧ MainGallery.dispatch (MainGallery.Click Gallery.Lightbox) s
          = (closed, JS.Normal)
        ∧ MainGallery.dispatch (MainGallery.KeyDown "Escape") s = (closed, JS.Normal)
        ∧ MainGallery.filterButtons closed = MainGallery.filterButtons s
        ∧ MainGallery.galleryItems closed = MainGallery.galleryItems s
        ∧ MainGallery.lightboxImg closed = MainGallery.lightboxImg s
        ∧ MainGallery.lightboxCaption closed = MainGallery.lightboxCaption s
        ∧ MainGallery.images closed = MainGallery.images s
        ∧ MainGallery.currentIndex closed = MainGallery.currentIndex s
        ∧ MainGallery.timers closed = MainGallery.timers s
        ∧ (∀ tok, tok ∈ MainGallery.lightbox closed
                  ↔ tok ∈ MainGallery.lightbox s ∧ tok ≠ "active")).
Proof.
  split; intros s closed.
  - split; [|split; [|split]].
    + reflexivity.
    + reflexivity.
    + apply v3_escape.
    + repeat (split; [reflexivity|]). intros tok. apply elem_of_remove.
  - split; [|split; [|split]].
    + reflexivity.
    + reflexivity.
    + apply main_escape.
    + repeat (split; [reflexivity|]). intros tok. apply elem_of_remove.
Qed.

(** ** Gallery filter *)

Section FilterFacts.
Import Gallery.
Implicit Types (it : item) (items : list item) (T : string).

Lemma matches_tag T it :
  matches (Some T) it = true ↔ T = "all" ∨ category it = Some T.
Proof.
  unfold matches, JS.strict_eq.
  rewrite orb_true_iff, !bool_decide_eq_true. split.
  - intros [H | H]; [left; congruence | by right].
  - intros [-> | H]; [by left | by right].
Qed.

Lemma visible_setDisplay_block it : visible (setDisplay "block" it) = true.
Proof. reflexivity. Qed.

Lemma visible_setDisplay_none it : visible (setDisplay "none" it) = false.
Proof. reflexivity. Qed.

Lemma identity_setDisplay d it : identity (setDisplay d it) = identity it.
Proof. reflexivity. Qed.

Lemma identity_fmap_setDisplay (d : item → string) items :
  identity <$> ((λ it, setDisplay (d it) it) <$> items) = identity <$> items.
Proof. rewrite <- list_fmap_compose. by apply list_fmap_ext. Qed.

(** *** script.js: the items are re-displayed by the click itself *)

Lemma v3_filter_items b btn (s : V3Gallery.state) :
  V3Gallery.filterButtons s !! b = Some btn →
  V3Gallery.galleryItems (V3Gallery.onFilterClick b s)
  = (λ it, setDisplay (if matches (filter_ btn) it then "block" else "none") it)
      <$> V3Gallery.galleryItems s.
Proof. intros Hb. unfold V3Gallery.onFilterClick. by rewrite Hb. Qed.

(** *** main.js: the click hides, the timers show *)

Lemma main_filter_click b btn (s : MainGallery.state) :
  MainGallery.filterButtons s !! b = Some btn →
  MainGallery.galleryItems (MainGallery.onFilterClick b s)
  = setDisplay "none" <$> MainGallery.galleryItems s
  ∧ MainGallery.timers (MainGallery.onFilterClick b s)
    = (MainGallery.timers s
         ++ MainGallery.scheduled (filter_ btn) 0 (MainGallery.galleryItems s))%list.
Proof. intros Hb. unfold MainGallery.onFilterClick. by rewrite Hb. Qed.

Lemma elem_of_scheduled filter k items i :
  i ∈ MainGallery.scheduled filter k items
  ↔ ∃ it, (k ≤ i)%nat ∧ items !! (i - k)%nat = Some it ∧ matches filter it = true.
Proof.
  revert k. induction items as [|it0 items IH]; intros k; simpl.
  - rewrite elem_of_nil. split; [done | by intros (it & _ & ? & _)].
  - assert (Hrest : i ∈ MainGallery.scheduled filter (S k) items
              ↔ ∃ it, (S k ≤ i)%nat ∧ (it0 :: items) !! (i - k)%nat = Some it
                      ∧ matches filter it = true).
    { rewrite IH. split; intros (it & Hle & Hl & Hm); exists it;
        (split; [lia | split; [|done]]).
      - replace (i - k)%nat with (S (i - S k)) by lia. done.
      - replace (i - k)%nat with (S (i - S k)) in Hl by lia. done. }
    destruct (matches filter it0) eqn:Hm0.
    + rewrite elem_of_cons, Hrest. split.
      * intros [-> | (it & Hle & Hl & Hm)].
        -- exists it0. rewrite Nat.sub_diag. done.
        -- exists it. split; [lia | done].
      * intros (it & Hle & Hl & Hm). destruct (decide (i = k)) as [->|Hne]; [by left|].
        right. exists it. split; [lia | done].
    + rewrite Hrest. split.
      * intros (it & Hle & Hl & Hm). exists it. split; [lia | done].
      * intros (it & Hle & Hl & Hm). destruct (decide (i = k)) as [->|Hne].
        -- rewrite Nat.sub_diag in Hl. simpl in Hl. congruence.
        -- exists it. split; [lia | done].
Qed.

Lemma fired_lookup ts items i :
  MainGallery.fired ts items !! i
  = (λ it, if bool_decide (i ∈ ts) then setDisplay "block" it else it) <$> items !! i.
Proof.
  unfold MainGallery.fired.
  revert items. induction ts as [|t ts IH]; intros items; simpl.
  - by destruct (items !! i).
  - rewrite IH, list_lookup_alter.
    destruct (decide (t = i)) as [->|Hne].
    + rewrite (bool_decide_eq_true_2 (i ∈ i :: ts)) by (by left).
      destruct (items !! i) as [it|]; [|done]. simpl.
      by destruct (bool_decide (i ∈ ts)).
    + destruct (items !! i) as [it|]; [|done]. simpl.
      destruct (bool_decide_reflect (i ∈ ts)) as [Hin|Hnin].
      * by rewrite bool_decide_eq_true_2 by (by right).
      * rewrite bool_decide_eq_false_2; [done|].
        rewrite not_elem_of_cons. split; [congruence | done].
Qed.

Lemma flush_fired (s : MainGallery.state) :
  MainGallery.flush s
  = MainGallery.setTimers []
      (MainGallery.setItems
         (MainGallery.fired (MainGallery.timers s) (MainGallery.galleryItems s)) s).
Proof.
  unfold MainGallery.flush, MainGallery.fired.
  remember (MainGallery.timers s) as ts eqn:Hts.
  revert s Hts. induction ts as [|t ts IH]; intros s Hts; simpl.
  - destruct s. simpl in *. by subst.
  - assert (Hstep : MainGallery.onTimeout s
              = MainGallery.setTimers ts
                  (MainGallery.setItems
                     (alter (setDisplay "block") t (MainGallery.galleryItems s)) s)).
    { unfold MainGallery.onTimeout. by rewrite <- Hts. }
    rewrite Hstep, IH by done. by destruct s.
Qed.

(** Firing the timers one event at a time is the same thing. *)
Lemma flush_as_events (s : MainGallery.state) :
  MainGallery.run (replicate (length (MainGallery.timers s)) MainGallery.TimerFires) s
  = MainGallery.flush s.
Proof.
  unfold MainGallery.flush, MainGallery.run.
  generalize (MainGallery.timers s) as ts. intros ts. revert s.
  induction ts as [|t ts IH]; intros s; simpl; [done|]. apply IH.
Qed.

End FilterFacts.

(** C6 fails on main.js as stated.  On the example page, right after
    the click on the "rooms" control the suite picture, whose category
    is "rooms", is hidden; and when the "dining" control is clicked
    before the timers of the "rooms" click have fired, the suite picture
    is visible once all timers have fired, although its category is not
    "dining". *)
Lemma filter_click_main_hides_then_races :
  Gallery.filter_ <$> Examples.buttons !! 1%nat = Some (Some "rooms")
  ∧ Gallery.category <$> Examples.items !! 0%nat = Some (Some "rooms")
  ∧ Gallery.visible
      <$> MainGallery.galleryItems
            (MainGallery.run [Examples.clickRooms] Examples.galleryMain) !! 0%nat
    = Some false
  ∧ Gallery.visible
      <$> MainGallery.galleryItems
            (MainGallery.flush
               (MainGallery.run [Examples.clickRooms; Examples.clickDining]
                  Examples.galleryMain)) !! 0%nat
    = Some true.
Proof. repeat split. Qed.

(** C6, amended.  A click on the filter control with tag T leaves every
    gallery item in place, changing displays only.  In script.js, when
    the click listener returns an item is visible exactly when its
    category is T or T is "all".  In main.js the click listener hides
    every item and schedules timers; once the pending timers have fired
    every item whose category is T (every item, for "all") is visible,
    and any other item is hidden unless a timer of an earlier click was
    still pending for it at the click. *)
Theorem filter_click_shows_matching (T : string) (b : nat) (btn : Gallery.button) :
  Gallery.filter_ btn = Some T →
  (∀ s : V3Gallery.state,
      V3Gallery.filterButtons s !! b = Some btn →
      let s' := fst (V3Gallery.dispatch (V3Gallery.Click (Gallery.FilterBtn b)) s) in
      Gallery.identity <$> V3Gallery.galleryItems s'
      = Gallery.identity <$> V3Gallery.galleryItems s
      ∧ (∀ i it, V3Gallery.galleryItems s !! i = Some it →
           ∃ it', V3Gallery.galleryItems s' !! i = Some it'
                  ∧ (Gallery.visible it' = true
                     ↔ T = "all" ∨ Gallery.category it = Some T)))
  ∧ (∀ s : MainGallery.state,
        MainGallery.filterButtons s !! b = Some btn →
        let s1 := fst (MainGallery.dispatch (MainGallery.Click (Gallery.FilterBtn b)) s) in
        let s2 := MainGallery.flush s1 in
        Gallery.identity <$> MainGallery.galleryItems s1
        = Gallery.identity <$> MainGallery.galleryItems s
        ∧ Gallery.identity <$> MainGallery.galleryItems s2
          = Gallery.identity <$> MainGallery.galleryItems s
        ∧ (∀ i it1, MainGallery.galleryItems s1 !! i = Some it1 →
                    Gallery.visible it1 = false)
        ∧ MainGallery.timers s2 = []
        ∧ (∀ i it, MainGallery.galleryItems s !! i = Some it →
             ∃ it2, MainGallery.galleryItems s2 !! i = Some it2
                    ∧ (Gallery.visible it2 = true
                       ↔ (T = "all" ∨ Gallery.category it = Some T)
                         ∨ i ∈ MainGallery.timers s))).
Proof.
  intros HT. split.
  - intros s Hb s'. unfold s'. simpl. rewrite (v3_filter_items b btn s Hb), HT.
    split; [apply identity_fmap_setDisplay|].
    intros i it Hi. rewrite list_lookup_fmap, Hi. simpl. eexists. split; [done|].
    rewrite <- matches_tag. by destruct (Gallery.matches (Some T) it).
  - intros s Hb s1 s2.
    destruct (main_filter_click b btn s Hb) as [Hitems Htimers].
    assert (E1 : MainGallery.galleryItems s1
                 = Gallery.setDisplay "none" <$> MainGallery.galleryItems s)
      by exact Hitems.
    assert (E2 : ∀ i, MainGallery.galleryItems s2 !! i
                 = (λ it, if bool_decide (i ∈ MainGallery.timers s1)
                          then Gallery.setDisplay "block" it
                          else Gallery.setDisplay "none" it)
                     <$> MainGallery.galleryItems s !! i).
    { intros i. unfold s2. rewrite flush_fired. simpl.
      rewrite fired_lookup, E1, list_lookup_fmap.
      destruct (MainGallery.galleryItems s !! i) as [it|]; [|done]. simpl.
      by destruct (bool_decide (i ∈ MainGallery.timers s1)). }
    split; [|split; [|split; [|split]]].
    + rewrite E1. apply (identity_fmap_setDisplay (λ _, "none")).
    + apply list_eq. intros i. rewrite !list_lookup_fmap, E2.
      destruct (MainGallery.galleryItems s !! i) as [it|]; [|done]. simpl.
      by destruct (bool_decide (i ∈ MainGallery.timers s1)).
    + intros i it1. rewrite E1, list_lookup_fmap.
      destruct (MainGallery.galleryItems s !! i) as [it|]; [|done]. simpl.
      by intros [= <-].
    + unfold s2. by rewrite flush_fired.
    + intros i it Hi. rewrite E2, Hi. simpl. eexists. split; [done|].
      assert (Hin : i ∈ MainGallery.timers s1
                ↔ (T = "all" ∨ Gallery.category it = Some T)
                  ∨ i ∈ MainGallery.timers s).
      { change (MainGallery.timers s1) with
          (MainGallery.timers (MainGallery.onFilterClick b s)).
        rewrite Htimers, elem_of_app, elem_of_scheduled, HT, <- matches_tag.
        split.
        - intros [Hold | (it' & _ & Hl & Hm)]; [by right | left].
          rewrite Nat.sub_0_r, Hi in Hl. by injection Hl as <-.
        - intros [Hm | Hold]; [right | by left].
          exists it. rewrite Nat.sub_0_r. split; [lia | done]. }
      rewrite <- Hin.
      destruct (bool_decide_reflect (i ∈ MainGallery.timers s1)) as [H|H];
        simpl; split; done.
Qed.

Lemma filter_click_shows_matching_witness :
  Gallery.filter_ Examples.roomsButton = Some "rooms"
  ∧ MainGallery.filterButtons Examples.galleryMain !! 1%nat = Some Examples.roomsButton
  ∧ (∀ i it, MainGallery.galleryItems Examples.galleryMain !! i = Some it →
       ∃ it2, MainGallery.galleryItems Examples.roomsMain !! i = Some it2
              ∧ (Gallery.visible it2 = true
                 ↔ ("rooms" = "all" ∨ Gallery.category it = Some "rooms")
                   ∨ i ∈ MainGallery.timers Examples.galleryMain)).
Proof.
  assert (HT : Gallery.filter_ Examples.roomsButton = Some "rooms") by reflexivity.
  assert (Hb : MainGallery.filterButtons Examples.galleryMain !! 1%nat
               = Some Examples.roomsButton) by reflexivity.
  split; [exact HT | split; [exact Hb |]].
  exact (proj2 (proj2 (proj2 (proj2
    (proj2 (filter_click_shows_matching "rooms" 1 Examples.roomsButton HT)
       Examples.galleryMain Hb))))).
Defined.

(** ** Opening the lightbox *)

Section OpenFacts.
Import Gallery.
Implicit Types (items : list item) (arr : list nat).

Lemma elem_of_visibleFrom k items r :
  r ∈ V3Gallery.visibleFrom k items
  ↔ ∃ it, (k ≤ r)%nat ∧ items !! (r - k)%nat = Some it ∧ visible it = true.
Proof.
  revert k. induction items as [|it0 items IH]; intros k; simpl.
  - rewrite elem_of_nil. split; [done | by intros (it & _ & ? & _)].
  - assert (Hrest : r ∈ V3Gallery.visibleFrom (S k) items
              ↔ ∃ it, (S k ≤ r)%nat ∧ (it0 :: items) !! (r - k)%nat = Some it
                      ∧ visible it = true).
    { rewrite IH. split; intros (it & Hle & Hl & Hv); exists it;
        (split; [lia | split; [|done]]).
      - replace (r - k)%nat with (S (r - S k)) by lia. done.
      - replace (r - k)%nat with (S (r - S k)) in Hl by lia. done. }
    destruct (visible it0) eqn:Hv0.
    + rewrite elem_of_cons, Hrest. split.
      * intros [-> | (it & Hle & Hl & Hv)].
        -- exists it0. rewrite Nat.sub_diag. done.
        -- exists it. split; [lia | done].
      * intros (it & Hle & Hl & Hv). destruct (decide (r = k)) as [->|Hne]; [by left|].
        right. exists it. split; [lia | done].
    + rewrite Hrest. split.
      * intros (it & Hle & Hl & Hv). exists it. split; [lia | done].
      * intros (it & Hle & Hl & Hv). destruct (decide (r = k)) as [->|Hne].
        -- rewrite Nat.sub_diag in Hl. simpl in Hl. congruence.
        -- exists it. split; [lia | done].
Qed.

Lemma index_of_nat {A : Type} (l : list A) p : JS.index l (JS.of_nat p) = l !! p.
Proof.
  unfold JS.index, JS.of_nat.
  destruct (Z.leb_spec 0 (Z.of_nat p)) as [_|]; [|lia]. by rewrite Nat2Z.id.
Qed.

(** [indexOf] returns the first position of the reference. *)
Lemma indexOf_from_elem k x arr :
  x ∈ arr →
  ∃ p, JS.indexOf_from k x arr = JS.of_nat (k + p) ∧ arr !! p = Some x.
Proof.
  revert k. induction arr as [|y arr IH]; intros k Hin.
  - by apply elem_of_nil in Hin.
  - simpl. destruct (Nat.eqb_spec y x) as [->|Hne].
    + exists 0%nat. by rewrite Nat.add_0_r.
    + apply elem_of_cons in Hin as [?|Hin]; [congruence|].
      destruct (IH (S k) Hin) as (p & Hp & Hl). exists (S p).
      rewrite Hp. split; [f_equal; lia | done].
Qed.

Lemma indexOf_from_absent k x arr : x ∉ arr → JS.indexOf_from k x arr = JS.Int (-1).
Proof.
  revert k. induction arr as [|y arr IH]; intros k Hnin; simpl; [done|].
  apply not_elem_of_cons in Hnin as [Hne Hnin].
  destruct (Nat.eqb_spec y x) as [->|_]; [done|]. by apply IH.
Qed.

(** script.js: a click on a visible picture recomputes the visible
    list, puts the cursor on the position of the picture in that list,
    loads its source and caption and marks the lightbox active. *)
Lemma v3_item_click_opens (s : V3Gallery.state) i it :
  V3Gallery.galleryItems s !! i = Some it → visible it = true →
  ∃ p, V3Gallery.visibleFrom 0 (V3Gallery.galleryItems s) !! p = Some i
       ∧ V3Gallery.dispatch (V3Gallery.Click (GalleryItem i)) s
         = (V3Gallery.setLightbox (DOM.add (V3Gallery.lightbox s) "active")
              (V3Gallery.setCaption (default "" (caption it))
                 (V3Gallery.setImg (href it)
                    (V3Gallery.setIndex (JS.of_nat p)
                       (V3Gallery.updateVisibleItems s)))),
            JS.Normal).
Proof.
  intros Hi Hv.
  assert (Hin : i ∈ V3Gallery.visibleFrom 0 (V3Gallery.galleryItems s)).
  { apply elem_of_visibleFrom. exists it. rewrite Nat.sub_0_r. split; [lia | done]. }
  destruct (indexOf_from_elem 0 i _ Hin) as (p & Hp & Hl). simpl in Hp.
  exists p. split; [exact Hl|].
  simpl. rewrite bool_decide_eq_true_2 by (by eapply lookup_lt_Some).
  unfold V3Gallery.onItemClick, JS.indexOf.
  change (V3Gallery.allVisibleItems (V3Gallery.updateVisibleItems s))
    with (V3Gallery.visibleFrom 0 (V3Gallery.galleryItems s)).
  rewrite Hp.
  by rewrite (openLightbox_shows (JS.of_nat p) i it (V3Gallery.updateVisibleItems s))
    by (by rewrite ?index_of_nat).
Qed.

(** script.js: a click that reaches a hidden picture opens nothing. *)
Lemma v3_item_click_hidden (s : V3Gallery.state) i it :
  V3Gallery.galleryItems s !! i = Some it → visible it = false →
  V3Gallery.dispatch (V3Gallery.Click (GalleryItem i)) s
  = (V3Gallery.setIndex (JS.Int (-1)) (V3Gallery.updateVisibleItems s), JS.TypeError).
Proof.
  intros Hi Hv.
  assert (Hnin : i ∉ V3Gallery.visibleFrom 0 (V3Gallery.galleryItems s)).
  { rewrite elem_of_visibleFrom. intros (it' & _ & Hl & Hv').
    rewrite Nat.sub_0_r, Hi in Hl. congruence. }
  simpl. rewrite bool_decide_eq_true_2 by (by eapply lookup_lt_Some).
  unfold V3Gallery.onItemClick, JS.indexOf.
  change (V3Gallery.allVisibleItems (V3Gallery.updateVisibleItems s))
    with (V3Gallery.visibleFrom 0 (V3Gallery.galleryItems s)).
  rewrite (indexOf_from_absent 0 i _ Hnin).
  by rewrite openLightbox_undefined.
Qed.

(** main.js: a click on picture [i] puts the cursor on [i], its
    position among all pictures, whatever the filter shows. *)
Lemma main_item_click_opens (s : MainGallery.state) i img :
  (i < length (MainGallery.galleryItems s))%nat →
  MainGallery.images s !! i = Some img →
  MainGallery.dispatch (MainGallery.Click (GalleryItem i)) s
  = (MainGallery.setLightbox (DOM.add (MainGallery.lightbox s) "active")
       (MainGallery.setCaption (default "" (MainGallery.img_caption img))
          (MainGallery.setImg (MainGallery.src img)
             (MainGallery.setIndex (JS.of_nat i) s))),
     JS.Normal).
Proof.
  intros Hlt Himg. simpl. rewrite bool_decide_eq_true_2 by done.
  unfold MainGallery.onItemClick.
  by rewrite (main_openLightbox_shows (JS.of_nat i) img s) by (by rewrite index_of_nat).
Qed.

End OpenFacts.

(** C3, evaluated on both scripts with the "rooms" filter selected, so
    that the restaurant picture (position 1) is hidden, and a click on
    the deluxe picture (position 2).  script.js recomputes the visible
    list [0; 2] and puts the cursor on 1, and prev shows the suite.
    main.js indexes the image list built at initialization: the cursor
    is 2, the position among all pictures, and prev shows the hidden
    restaurant picture.  The specification asks for the behaviour of
    script.js. *)
Theorem main_lightbox_cursor_ignores_filter :
  (Gallery.visible <$> V3Gallery.galleryItems Examples.roomsV3 = [true; false; true]
   ∧ V3Gallery.allVisibleItems
       (V3Gallery.run [V3Gallery.Click (Gallery.GalleryItem 2)] Examples.roomsV3)
     = [0; 2]%nat
   ∧ V3Gallery.currentIndex
       (V3Gallery.run [V3Gallery.Click (Gallery.GalleryItem 2)] Examples.roomsV3)
     = JS.Int 1
   ∧ V3Gallery.lightboxImg
       (V3Gallery.run [V3Gallery.Click (Gallery.GalleryItem 2)] Examples.roomsV3)
     = "img/deluxe.jpg"
   ∧ V3Gallery.lightboxImg
       (V3Gallery.run [V3Gallery.Click (Gallery.GalleryItem 2);
                       V3Gallery.Click Gallery.LightboxPrev] Examples.roomsV3)
     = "img/suite.jpg")
  ∧ (Gallery.visible <$> MainGallery.galleryItems Examples.roomsMain
     = [true; false; true]
     ∧ MainGallery.currentIndex
         (MainGallery.run [MainGallery.Click (Gallery.GalleryItem 2)] Examples.roomsMain)
       = JS.Int 2
     ∧ MainGallery.lightboxImg
         (MainGallery.run [MainGallery.Click (Gallery.GalleryItem 2)] Examples.roomsMain)
       = "img/deluxe.jpg"
     ∧ MainGallery.currentIndex
         (MainGallery.run [MainGallery.Click (Gallery.GalleryItem 2);
                           MainGallery.Click Gallery.LightboxPrev] Examples.roomsMain)
       = JS.Int 1
     ∧ MainGallery.lightboxImg
         (MainGallery.run [MainGallery.Click (Gallery.GalleryItem 2);
                           MainGallery.Click Gallery.LightboxPrev] Examples.roomsMain)
       = "img/buffet.jpg").
Proof. vm_compute. repeat split. Qed.

(** * Properties of the remaining components *)

(** ** Token lists, continued *)

Section FlipFacts.
Implicit Types (cl : list string) (tok t : string).

Lemma contains_flip cl tok :
  DOM.contains (Tokens.flip cl tok) tok = negb (DOM.contains cl tok).
Proof.
  unfold Tokens.flip. destruct (DOM.contains cl tok) eqn:E; simpl.
  - apply contains_remove.
  - apply contains_add.
Qed.

Lemma elem_of_flip_other cl tok t : t ≠ tok → t ∈ Tokens.flip cl tok ↔ t ∈ cl.
Proof.
  intros Hne. unfold Tokens.flip. destruct (DOM.contains cl tok).
  - rewrite elem_of_remove. tauto.
  - rewrite elem_of_add. tauto.
Qed.

Lemma elem_of_toggle_other cl tok t force :
  t ≠ tok → t ∈ DOM.toggle cl tok force ↔ t ∈ cl.
Proof.
  intros Hne. destruct force; simpl.
  - rewrite elem_of_add. tauto.
  - rewrite elem_of_remove. tauto.
Qed.

End FlipFacts.

(** ** Header *)

Section HeaderFacts.
Import Header.

Lemma v3_handle_ticking wired s ev :
  V3Header.frames s = (if V3Header.isTicking s then 1 else 0)%nat →
  V3Header.frames (V3Header.handle wired s ev)
  = (if V3Header.isTicking (V3Header.handle wired s ev) then 1 else 0)%nat.
Proof.
  intros Hinv. destruct s as [y h tick n]. simpl in Hinv.
  destruct ev as [y'|]; simpl.
  - destruct wired; [|done]. unfold V3Header.onScroll. simpl.
    destruct tick; simpl; [done | by subst].
  - destruct n as [|n]; [done|]. simpl. destruct tick; [|done]. congruence.
Qed.

Lemma v3_run_ticking wired evs s :
  V3Header.frames s = (if V3Header.isTicking s then 1 else 0)%nat →
  V3Header.frames (foldl (V3Header.handle wired) s evs)
  = (if V3Header.isTicking (foldl (V3Header.handle wired) s evs) then 1 else 0)%nat.
Proof.
  revert s. induction evs as [|ev evs IH]; intros s Hinv; simpl; [done|].
  by apply IH, v3_handle_ticking.
Qed.

Lemma v3_handle_tokens wired cl s ev :
  sameButScrolled cl (V3Header.header s) →
  sameButScrolled cl (V3Header.header (V3Header.handle wired s ev)).
Proof.
  intros (cl' & Hh & Hcl). destruct s as [y h tick n]. simpl in Hh. subst h.
  destruct ev as [y'|]; simpl.
  - destruct wired; [|by exists cl']. unfold V3Header.onScroll. simpl.
    destruct tick; simpl; by exists cl'.
  - destruct n as [|n]; [by exists cl'|]. simpl. eexists. split; [done|].
    intros t Ht. rewrite <- (Hcl t Ht). destruct (beyond50 y).
    + rewrite elem_of_add. tauto.
    + rewrite elem_of_remove. tauto.
Qed.

Lemma v3_run_tokens wired cl evs s :
  sameButScrolled cl (V3Header.header s) →
  sameButScrolled cl (V3Header.header (foldl (V3Header.handle wired) s evs)).
Proof.
  revert s. induction evs as [|ev evs IH]; intros s Hinv; simpl; [done|].
  by apply IH, v3_handle_tokens.
Qed.

Lemma main_handle_tokens wired cl s ev :
  sameButScrolled cl (MainHeader.header s) →
  sameButScrolled cl (MainHeader.header (MainHeader.handle wired s ev)).
Proof.
  intros (cl' & Hh & Hcl). destruct s as [y h]. simpl in Hh. subst h.
  destruct ev as [y'|]; simpl; [|by exists cl'].
  destruct wired; [|by exists cl']. simpl. eexists. split; [done|].
  intros t Ht. rewrite <- (Hcl t Ht). by apply elem_of_toggle_other.
Qed.

Lemma main_run_tokens wired cl evs s :
  sameButScrolled cl (MainHeader.header s) →
  sameButScrolled cl (MainHeader.header (foldl (MainHeader.handle wired) s evs)).
Proof.
  revert s. induction evs as [|ev evs IH]; intros s Hinv; simpl; [done|].
  by apply IH, main_handle_tokens.
Qed.

(** A scroll to position y followed by an animation frame. *)
Lemma v3_scroll_then_frame (y0 y : pixels) (cl : list string) (evs : list event) :
  let s' := foldl (V3Header.handle true) (V3Header.loaded y0 (Some cl))
                  (evs ++ [Scroll y; AnimationFrame]) in
  V3Header.frames s' = 0%nat
  ∧ V3Header.isTicking s' = false
  ∧ ∃ cl', V3Header.header s' = Some cl'
           ∧ DOM.contains cl' "scrolled" = beyond50 y
           ∧ ∀ t, t ≠ "scrolled" → t ∈ cl' ↔ t ∈ cl.
Proof.
  intros s'. unfold s'. clear s'.
  pose proof (v3_run_ticking true evs (V3Header.loaded y0 (Some cl)) eq_refl) as Htick.
  assert (Htok : sameButScrolled cl (V3Header.header (V3Header.loaded y0 (Some cl))))
    by (by exists cl).
  apply (v3_run_tokens true cl evs) in Htok.
  rewrite foldl_app. simpl.
  destruct (foldl (V3Header.handle true) (V3Header.loaded y0 (Some cl)) evs)
    as [y1 h tick n]. simpl in *.
  destruct Htok as (cl1 & -> & Hcl1).
  unfold V3Header.onScroll. simpl.
  destruct tick; simpl; subst n; simpl;
    (split; [done|]; split; [done|]; eexists; split; [done|]);
    destruct (beyond50 y); (split; [apply contains_add || apply contains_remove|]);
      intros t Ht; rewrite <- (Hcl1 t Ht);
      rewrite ?elem_of_add, ?elem_of_remove; tauto.
Qed.

(** X1. script.js header: over any sequence of scroll events and
    animation frames after the page load, at most one animation-frame
    callback is pending, and one is pending exactly while [isTicking] is
    set.  After a scroll to position y followed by an animation frame,
    no callback is pending and the header carries "scrolled" exactly
    when y > 50; its other classes are never touched. *)
Theorem header_throttle_one_frame
    (y0 y : pixels) (cl : list string) (evs : list event) :
  let s := V3Header.run evs (V3Header.loaded y0 (Some cl)) in
  let s' := V3Header.run (evs ++ [Scroll y; AnimationFrame])
                         (V3Header.loaded y0 (Some cl)) in
  (V3Header.frames s ≤ 1)%nat
  ∧ (V3Header.isTicking s = true ↔ V3Header.frames s = 1%nat)
  ∧ V3Header.frames s' = 0%nat
  ∧ V3Header.isTicking s' = false
  ∧ ∃ cl', V3Header.header s' = Some cl'
           ∧ DOM.contains cl' "scrolled" = beyond50 y
           ∧ ∀ t, t ≠ "scrolled" → t ∈ cl' ↔ t ∈ cl.
Proof.
  intros s s'.
  assert (Htick : V3Header.frames s = (if V3Header.isTicking s then 1 else 0)%nat)
    by exact (v3_run_ticking true evs (V3Header.loaded y0 (Some cl)) eq_refl).
  split; [destruct (V3Header.isTicking s); lia|].
  split; [destruct (V3Header.isTicking s); split; (done || lia)|].
  apply v3_scroll_then_frame.
Qed.

(** X2. main.js header: after any events ending in a scroll to position
    y the header carries "scrolled" exactly when y > 50, and its other
    classes are never touched.  So once the pending frame has run, the
    header of script.js shows the same state as that of main.js after
    the same scroll events. *)
Theorem header_follows_scroll
    (y0 y : pixels) (cl : list string) (evs : list event) :
  let main := MainHeader.run (evs ++ [Scroll y]) (MainHeader.State y0 (Some cl)) in
  let v3 := V3Header.run (evs ++ [Scroll y; AnimationFrame])
                         (V3Header.loaded y0 (Some cl)) in
  ∃ clm cl3,
    MainHeader.header main = Some clm
    ∧ V3Header.header v3 = Some cl3
    ∧ DOM.contains clm "scrolled" = beyond50 y
    ∧ (∀ t, t ≠ "scrolled" → t ∈ clm ↔ t ∈ cl)
    ∧ (∀ t, t ∈ clm ↔ t ∈ cl3).
Proof.
  intros main v3.
  assert (Hv3 : ∃ cl3, V3Header.header v3 = Some cl3
                  ∧ DOM.contains cl3 "scrolled" = beyond50 y
                  ∧ ∀ t, t ≠ "scrolled" → t ∈ cl3 ↔ t ∈ cl)
    by exact (proj2 (proj2 (v3_scroll_then_frame y0 y cl evs))).
  destruct Hv3 as (cl3 & H3 & Hs3 & Ht3).
  assert (Htok : sameButScrolled cl (MainHeader.header (MainHeader.State y0 (Some cl))))
    by (by exists cl).
  apply (main_run_tokens true cl evs) in Htok.
  unfold main, MainHeader.run.
  change (MainHeader.initHeaderManager (MainHeader.State y0 (Some cl))) with true.
  rewrite foldl_app. simpl.
  destruct (foldl (MainHeader.handle true) (MainHeader.State y0 (Some cl)) evs)
    as [y1 h]. simpl in *.
  destruct Htok as (cl1 & -> & Hcl1). simpl.
  exists (DOM.toggle cl1 "scrolled" (beyond50 y)), cl3.
  assert (Hm : ∀ t, t ≠ "scrolled" →
             t ∈ DOM.toggle cl1 "scrolled" (beyond50 y) ↔ t ∈ cl).
  { intros t Ht. rewrite <- (Hcl1 t Ht). by apply elem_of_toggle_other. }
  split; [done|]. split; [exact H3|]. split; [apply contains_toggle|].
  split; [exact Hm|].
  intros t. destruct (decide (t = "scrolled")) as [->|Hne].
  - rewrite <- !contains_true, contains_toggle, Hs3. done.
  - rewrite (Hm t Hne), (Ht3 t Hne). done.
Qed.

End HeaderFacts.

(** ** Mobile navigation *)

Section NavFacts.

Lemma flip_iter (cl : list string) (tok : string) (n : nat) :
  DOM.contains (Nat.iter n (λ c, Tokens.flip c tok) cl) tok
  = xorb (DOM.contains cl tok) (Nat.odd n)
  ∧ ∀ t, t ≠ tok → t ∈ Nat.iter n (λ c, Tokens.flip c tok) cl ↔ t ∈ cl.
Proof.
  induction n as [|n [IH1 IH2]].
  - simpl. split; [by destruct (DOM.contains cl tok) | done].
  - rewrite Nat.odd_succ, <- Nat.negb_odd. simpl. split.
    + rewrite contains_flip, IH1.
      by destruct (DOM.contains cl tok), (Nat.odd n).
    + intros t Ht. rewrite elem_of_flip_other by done. by apply IH2.
Qed.

Lemma main_clicks_both (btn nav : list string) (n : nat) :
  MainNav.clicks n (MainNav.State (Some btn) (Some nav))
  = MainNav.State (Some (Nat.iter n (λ c, Tokens.flip c "active") btn))
                  (Some (Nat.iter n (λ c, Tokens.flip c "active") nav)).
Proof.
  unfold MainNav.clicks. induction n as [|n IH]; [done|].
  simpl. rewrite IH. reflexivity.
Qed.

(** X3. Mobile navigation.  In main.js, n clicks on the button leave
    "active" on the button and on the navigation flipped n times each
    (so two elements that agreed on "active" before still agree), and no
    other class of either changes; when the button or the navigation
    is missing, clicks change nothing.  In script.js the same holds for
    "mobile-nav-open" on the body, and nothing changes without a
    [.menu-toggle]. *)
Theorem mobile_nav_clicks (btn nav body : list string) (n : nat) :
  (∃ btn' nav',
      MainNav.clicks n (MainNav.State (Some btn) (Some nav))
      = MainNav.State (Some btn') (Some nav')
      ∧ DOM.contains btn' "active" = xorb (DOM.contains btn "active") (Nat.odd n)
      ∧ DOM.contains nav' "active" = xorb (DOM.contains nav "active") (Nat.odd n)
      ∧ (∀ t, t ≠ "active" → (t ∈ btn' ↔ t ∈ btn) ∧ (t ∈ nav' ↔ t ∈ nav)))
  ∧ MainNav.clicks n (MainNav.State None (Some nav)) = MainNav.State None (Some nav)
  ∧ MainNav.clicks n (MainNav.State (Some btn) None) = MainNav.State (Some btn) None
  ∧ (∃ body',
        V3Nav.clicks n (V3Nav.State true body) = V3Nav.State true body'
        ∧ DOM.contains body' "mobile-nav-open"
          = xorb (DOM.contains body "mobile-nav-open") (Nat.odd n)
        ∧ (∀ t, t ≠ "mobile-nav-open" → t ∈ body' ↔ t ∈ body))
  ∧ V3Nav.clicks n (V3Nav.State false body) = V3Nav.State false body.
Proof.
  split; [|split; [|split; [|split]]].
  - destruct (flip_iter btn "active" n) as [Hb1 Hb2].
    destruct (flip_iter nav "active" n) as [Hn1 Hn2].
    eexists _, _. split; [apply main_clicks_both|].
    split; [exact Hb1|]. split; [exact Hn1|].
    intros t Ht. split; [by apply Hb2 | by apply Hn2].
  - unfold MainNav.clicks. induction n as [|n IH]; [done|]. simpl. by rewrite IH.
  - unfold MainNav.clicks. induction n as [|n IH]; [done|]. simpl. by rewrite IH.
  - destruct (flip_iter body "mobile-nav-open" n) as [H1 H2].
    exists (Nat.iter n (λ c, Tokens.flip c "mobile-nav-open") body).
    split; [|split; [exact H1 | exact H2]].
    unfold V3Nav.clicks. induction n as [|n IH]; [done|].
    simpl. rewrite IH by (apply flip_iter). reflexivity.
  - unfold V3Nav.clicks. induction n as [|n IH]; [done|]. simpl. by rewrite IH.
Qed.

End NavFacts.

(** ** Theme, continued *)

Section MoreThemeFacts.
Import Theme ThemeFrame.
Implicit Types (s : state) (t : string).

Lemma applyTheme_framed t s0 s : framed s0 s → framed s0 (MainTheme.applyTheme t s).
Proof.
  intros [H1 H2]. split; intros k Hk; simpl.
  - rewrite lookup_insert_ne by congruence. by apply H1.
  - rewrite lookup_insert_ne by congruence. by apply H2.
Qed.

Lemma main_handle_framed wired ev s0 s :
  framed s0 s → framed s0 (MainTheme.handle wired ev s).
Proof.
  intros Hf. destruct ev as [|matches]; simpl.
  - destruct wired; [|done]. by apply applyTheme_framed.
  - destruct wired; [|done]. unfold MainTheme.onSystemChange.
    destruct (JS.truthy_opt _); [done|]. by apply applyTheme_framed.
Qed.

Lemma v3_handle_framed wired ev s0 s :
  framed s0 s → framed s0 (V3Theme.handle wired ev s).
Proof.
  intros Hf. destruct ev as [|matches]; simpl; [|done].
  destruct wired; [|done]. by apply (applyTheme_framed _ s0 s).
Qed.

Lemma main_fold_framed wired evs s0 s :
  framed s0 s → framed s0 (foldl (λ acc ev, MainTheme.handle wired ev acc) s evs).
Proof.
  revert s. induction evs as [|ev evs IH]; intros s Hf; simpl; [done|].
  by apply IH, main_handle_framed.
Qed.

Lemma v3_fold_framed wired evs s0 s :
  framed s0 s → framed s0 (foldl (λ acc ev, V3Theme.handle wired ev acc) s evs).
Proof.
  revert s. induction evs as [|ev evs IH]; intros s Hf; simpl; [done|].
  by apply IH, v3_handle_framed.
Qed.

Lemma framed_refl s : framed s s.
Proof. by split. Qed.

Lemma flipped_settles cur s :
  settled (MainTheme.applyTheme (flipped cur) s).
Proof.
  exists (flipped cur). split.
  - unfold flipped. destruct (JS.strict_eq cur (Some "dark"));
      rewrite !elem_of_cons; auto.
  - by rewrite applyTheme_stored, applyTheme_applied.
Qed.

Lemma settled_truthy s : settled s → JS.truthy_opt (getItem "theme" s) = true.
Proof. intros (t & Ht & -> & _). simpl. by apply truthy_light_dark. Qed.

Lemma main_handle_settled ev s : settled s → settled (MainTheme.handle true ev s).
Proof.
  intros Hs. destruct ev as [|matches]; simpl.
  - apply flipped_settles.
  - rewrite onSystemChange_stored.
    + destruct Hs as (t & Ht & H1 & H2). by exists t.
    + by apply (settled_truthy s).
Qed.

Lemma v3_handle_settled ev s : settled s → settled (V3Theme.handle true ev s).
Proof.
  intros Hs. destruct ev as [|matches]; simpl.
  - apply (flipped_settles _ s).
  - destruct Hs as (t & Ht & H1 & H2). by exists t.
Qed.

Lemma main_fold_settled evs s :
  settled s → settled (foldl (λ acc ev, MainTheme.handle true ev acc) s evs).
Proof.
  revert s. induction evs as [|ev evs IH]; intros s Hs; simpl; [done|].
  by apply IH, main_handle_settled.
Qed.

Lemma v3_fold_settled evs s :
  settled s → settled (foldl (λ acc ev, V3Theme.handle true ev acc) s evs).
Proof.
  revert s. induction evs as [|ev evs IH]; intros s Hs; simpl; [done|].
  by apply IH, v3_handle_settled.
Qed.

Lemma main_unwired_fold evs s :
  localStorage (foldl (λ acc ev, MainTheme.handle false ev acc) s evs) = localStorage s
  ∧ documentElement (foldl (λ acc ev, MainTheme.handle false ev acc) s evs)
    = documentElement s.
Proof.
  revert s. induction evs as [|ev evs IH]; intros s; simpl; [done|].
  destruct (IH (MainTheme.handle false ev s)) as [-> ->]. by destruct ev.
Qed.

Lemma v3_unwired_fold evs s :
  localStorage (foldl (λ acc ev, V3Theme.handle false ev acc) s evs) = localStorage s
  ∧ documentElement (foldl (λ acc ev, V3Theme.handle false ev acc) s evs)
    = documentElement s.
Proof.
  revert s. induction evs as [|ev evs IH]; intros s; simpl; [done|].
  destruct (IH (V3Theme.handle false ev s)) as [-> ->]. by destruct ev.
Qed.

End MoreThemeFacts.

(** X4. main.js theme manager, on a page with the toggle: after the
    page load and any sequence of toggle clicks and OS theme changes, a
    non-empty preference is stored and it is the applied theme; an OS
    theme change then alters neither the marker attribute nor the
    storage; and no storage key other than "theme" and no root attribute
    other than "data-theme" has been written. *)
Theorem main_theme_stored_is_applied (evs : list Theme.event) (s0 : Theme.state) :
  let s := MainTheme.run true evs s0 in
  (∃ t, Theme.getItem "theme" s = Some t
        ∧ Theme.getAttribute "data-theme" s = Some t
        ∧ JS.truthy t = true)
  ∧ (∀ matches, MainTheme.handle true (Theme.SystemChange matches) s
                = Theme.setPrefersDark matches s)
  ∧ ThemeFrame.framed s0 s.
Proof.
  intros s. pose proof (run_synced evs s0) as Hsync. fold s in Hsync.
  split; [exact Hsync | split].
  - intros matches. simpl. apply onSystemChange_stored.
    destruct Hsync as (t & Hst & _ & Ht).
    unfold Theme.getItem in *. simpl. by rewrite Hst.
  - unfold s, MainTheme.run. simpl.
    apply main_fold_framed, applyTheme_framed, framed_refl.
Qed.

(** X5. Pages without the toggle.  main.js returns before applying
    anything: after the load and any events the storage and the root
    attributes are as they were, so a stored "dark" is never applied.
    script.js applies the initial theme all the same: the marker becomes
    "dark" when "dark" is stored, or when nothing non-empty is stored
    and the OS prefers dark, and "light" otherwise; it never writes the
    storage at load, toggle or not. *)
Theorem theme_without_toggle
    (toggle : bool) (evs : list Theme.event) (s0 : Theme.state) :
  Theme.localStorage (MainTheme.run false evs s0) = Theme.localStorage s0
  ∧ Theme.documentElement (MainTheme.run false evs s0) = Theme.documentElement s0
  ∧ Theme.localStorage (fst (V3Theme.initThemeToggle toggle s0))
    = Theme.localStorage s0
  ∧ Theme.localStorage (V3Theme.run false evs s0) = Theme.localStorage s0
  ∧ Theme.getAttribute "data-theme" (V3Theme.run false evs s0)
    = Some (if bool_decide (Theme.getItem "theme" s0 = Some "dark")
               || (negb (JS.truthy_opt (Theme.getItem "theme" s0))
                   && Theme.prefersDark s0)
            then "dark" else "light").
Proof.
  pose proof (main_unwired_fold evs) as Hmain.
  pose proof (v3_unwired_fold evs) as Hv3.
  split; [apply Hmain | split; [apply Hmain | split; [|split]]].
  - unfold V3Theme.initThemeToggle. simpl.
    by destruct (_ || _).
  - unfold V3Theme.run, V3Theme.initThemeToggle.
    destruct (Hv3 (if JS.strict_eq (Theme.getItem "theme" s0) (Some "dark")
                      || negb (JS.truthy_opt (Theme.getItem "theme" s0))
                         && Theme.prefersDark s0
                   then Theme.setAttribute "data-theme" "dark" s0
                   else Theme.setAttribute "data-theme" "light" s0)) as [-> _].
    by destruct (_ || _).
  - unfold V3Theme.run, V3Theme.initThemeToggle, Theme.getAttribute.
    destruct (Hv3 (if JS.strict_eq (Theme.getItem "theme" s0) (Some "dark")
                      || negb (JS.truthy_opt (Theme.getItem "theme" s0))
                         && Theme.prefersDark s0
                   then Theme.setAttribute "data-theme" "dark" s0
                   else Theme.setAttribute "data-theme" "light" s0)) as [_ ->].
    unfold JS.strict_eq.
    destruct (_ || _); simpl; apply lookup_insert_eq.
Qed.

(** X6. Once the toggle has been clicked, in either script and whatever
    was stored or applied before (nothing, or an unknown value), the
    applied theme is "light" or "dark" and it is the stored preference,
    and this stays so over every later click and OS theme change. *)
Theorem theme_settled_after_click
    (before after : list Theme.event) (s0 : Theme.state) :
  ThemeFrame.settled
    (MainTheme.run true (before ++ Theme.ToggleClick :: after) s0)
  ∧ ThemeFrame.settled
      (V3Theme.run true (before ++ Theme.ToggleClick :: after) s0).
Proof.
  split.
  - unfold MainTheme.run. simpl. rewrite foldl_app. simpl.
    apply main_fold_settled, flipped_settles.
  - unfold V3Theme.run. simpl. rewrite foldl_app. simpl.
    apply v3_fold_settled.
    apply (flipped_settles _ (foldl _ _ before)).
Qed.

(** ** Viewport reveal, continued *)

Section MoreRevealFacts.
Import Reveal.
Implicit Types (s : state) (el : nat) (e : entry).

Lemma union_cons_shuffle (a : nat) (l : list nat) (X : gset nat) :
  list_to_set l ∪ ({[a]} ∪ X) = list_to_set (a :: l) ∪ X.
Proof.
  rewrite list_to_set_cons. apply set_eq. intros x. rewrite !elem_of_union. tauto.
Qed.

Lemma observeAll_spec card els : ∀ delay s,
  NoDup els →
  let s' := MainReveal.observeAll card delay els s in
  observed s' = list_to_set els ∪ observed s
  ∧ classList s' = classList s
  ∧ staggerObserved s' = staggerObserved s
  ∧ (∀ i el, els !! i = Some el → card el = true →
       transitionDelay s' !! el
       = Some (delay + 100 * Z.of_nat (length (filter (λ x, card x = true)
                                                       (take i els))))%Z)
  ∧ (∀ el, el ∉ els ∨ card el = false →
       transitionDelay s' !! el = transitionDelay s !! el).
Proof.
  induction els as [|el0 els IH]; intros delay s Hnd; simpl.
  - split; [symmetry; apply (left_id_L ∅ (∪))|].
    repeat split; done.
  - apply NoDup_cons in Hnd as [Hnotin Hnd].
    destruct (card el0) eqn:Hc0.
    + destruct (IH (delay + 100)%Z (observe el0 (setDelay el0 delay s)) Hnd)
        as (Ho & Hc & Hs & Hd & Hf).
      split; [rewrite Ho; simpl; apply union_cons_shuffle|].
      split; [by rewrite Hc|]. split; [by rewrite Hs|]. split.
      * intros [|i] el Hi Hcard; simpl in Hi.
        -- injection Hi as <-. rewrite Hf by (by left). simpl.
           rewrite lookup_insert_eq. f_equal. lia.
        -- rewrite (Hd i el Hi Hcard). simpl. rewrite filter_cons_True by done.
           simpl. f_equal. lia.
      * intros el Hel. rewrite Hf.
        -- simpl. apply lookup_insert_ne. destruct Hel as [Hel|Hel].
           ++ apply not_elem_of_cons in Hel as [? _]. congruence.
           ++ congruence.
        -- destruct Hel as [Hel|Hel]; [left|by right].
           by apply not_elem_of_cons in Hel as [_ ?].
    + destruct (IH delay (observe el0 s) Hnd) as (Ho & Hc & Hs & Hd & Hf).
      split; [rewrite Ho; simpl; apply union_cons_shuffle|].
      split; [by rewrite Hc|]. split; [by rewrite Hs|]. split.
      * intros [|i] el Hi Hcard; simpl in Hi.
        -- injection Hi as <-. congruence.
        -- rewrite (Hd i el Hi Hcard). simpl.
           rewrite filter_cons_False by congruence. done.
      * intros el Hel. rewrite Hf; [done|].
        destruct Hel as [Hel|Hel]; [left|by right].
        by apply not_elem_of_cons in Hel as [_ ?].
Qed.

Lemma revealChildren_spec elements : ∀ (i : Z) s,
  NoDup elements →
  let s' := V3Reveal.revealChildren i elements s in
  (∀ j c, elements !! j = Some c →
     classesOf c s' = DOM.add (classesOf c s) "is-visible"
     ∧ transitionDelay s' !! c = Some ((i + Z.of_nat j) * 100)%Z)
  ∧ (∀ el, el ∉ elements →
       classesOf el s' = classesOf el s
       ∧ transitionDelay s' !! el = transitionDelay s !! el).
Proof.
  induction elements as [|c0 elements IH]; intros i s Hnd; simpl.
  - split; [intros j c Hj; by rewrite lookup_nil in Hj | done].
  - apply NoDup_cons in Hnd as [Hnotin Hnd].
    destruct (IH (i + 1)%Z (classAdd c0 "is-visible" (setDelay c0 (i * 100) s)) Hnd)
      as [Hin Hout].
    split.
    + intros [|j] c Hj; simpl in Hj.
      * injection Hj as <-. destruct (Hout c0 Hnotin) as [-> ->].
        rewrite classesOf_classAdd. destruct (decide (c0 = c0)); [|done].
        split; [done|]. simpl. rewrite lookup_insert_eq. f_equal. lia.
      * destruct (Hin j c Hj) as [-> ->].
        assert (Hne : c0 ≠ c).
        { intros ->. apply Hnotin. by eapply list_elem_of_lookup_2. }
        rewrite classesOf_classAdd. destruct (decide (c0 = c)); [done|].
        split; [done|]. f_equal. lia.
    + intros el Hel. apply not_elem_of_cons in Hel as [Hne Hel].
      destruct (Hout el Hel) as [-> ->].
      rewrite classesOf_classAdd. destruct (decide (c0 = el)); [congruence|].
      split; [done|]. simpl. by rewrite lookup_insert_ne by congruence.
Qed.

(** The net effect of a fade-in batch on one element. *)
Lemma fade_callback_effect entries : ∀ s el,
  let s' := MainReveal.observerCallback entries s in
  let hit := RevealFrame.intersects entries el in
  classesOf el s'
  = (if hit then DOM.add (classesOf el s) "is-visible" else classesOf el s)
  ∧ (el ∈ observed s' ↔ el ∈ observed s ∧ hit = false)
  ∧ transitionDelay s' = transitionDelay s
  ∧ staggerObserved s' = staggerObserved s.
Proof.
  unfold MainReveal.observerCallback, RevealFrame.intersects.
  induction entries as [|e entries IH]; intros s el; simpl.
  - repeat split; tauto.
  - destruct (IH (MainReveal.onEntry s e) el) as (Hc & Ho & Hd & Hs).
    rewrite Hc, Ho, Hd, Hs. clear Hc Ho Hd Hs.
    unfold MainReveal.onEntry.
    destruct (isIntersecting e) eqn:Hie; simpl; [|done].
    change (classesOf el (unobserve ?x ?y)) with (classesOf el y).
    rewrite classesOf_classAdd, elem_of_difference, elem_of_singleton.
    destruct (Nat.eqb_spec (target e) el) as [<-|Hne]; simpl.
    + destruct (decide (target e = target e)); [|done].
      split; [|split; [|done]].
      * destruct (existsb _ entries); [|done].
        apply add_present, elem_of_add. by right.
      * split; [intros [[_ ?] _]; done | intros [_ ?]; done].
    + destruct (decide (target e = el)); [done|].
      split; [done|]. split; [|done].
      split; [intros [[? _] ?]; done | intros [? ?]; repeat split; congruence].
Qed.

End MoreRevealFacts.

(** X7. main.js, [initScrollObserver]: every animated element is
    observed afterwards and no class is changed; a card (room, feature
    or pillar card) gets the transition delay 100 ms times the number of
    cards before it in document order, and no other element gets a
    delay. *)
Theorem scroll_observer_init
    (card : nat → bool) (animatedElements : list nat) (s : Reveal.state) :
  NoDup animatedElements →
  let s' := MainReveal.initScrollObserver card animatedElements s in
  Reveal.observed s' = list_to_set animatedElements ∪ Reveal.observed s
  ∧ Reveal.classList s' = Reveal.classList s
  ∧ (∀ i el, animatedElements !! i = Some el → card el = true →
       Reveal.transitionDelay s' !! el
       = Some (100 * Z.of_nat (length (filter (λ x, card x = true)
                                              (take i animatedElements))))%Z)
  ∧ (∀ el, el ∉ animatedElements ∨ card el = false →
       Reveal.transitionDelay s' !! el = Reveal.transitionDelay s !! el).
Proof.
  intros Hnd s'.
  assert (E : s' = MainReveal.observeAll card 0 animatedElements s)
    by (unfold s'; by destruct animatedElements).
  rewrite E.
  destruct (observeAll_spec card animatedElements 0%Z s Hnd) as (Ho & Hc & _ & Hd & Hf).
  repeat split; try done.
Qed.

Lemma scroll_observer_init_witness :
  NoDup [1; 2; 3; 4]%nat
  ∧ ∀ i el, [1; 2; 3; 4]%nat !! i = Some el → Nat.even el = true →
      Reveal.transitionDelay
        (MainReveal.initScrollObserver Nat.even [1; 2; 3; 4]%nat
           (Reveal.State ∅ ∅ ∅ ∅)) !! el
      = Some (100 * Z.of_nat (length (filter (λ x, Nat.even x = true)
                                             (take i [1; 2; 3; 4]%nat))))%Z.
Proof.
  assert (Hnd : NoDup [1; 2; 3; 4]%nat)
    by (apply (bool_decide_unpack _); vm_compute; reflexivity).
  split; [exact Hnd|].
  exact (proj1 (proj2 (proj2
    (scroll_observer_init Nat.even [1; 2; 3; 4]%nat (Reveal.State ∅ ∅ ∅ ∅) Hnd)))).
Defined.

(** X8. script.js, stagger observer: when a grid with distinct children
    reports an intersection, the child at position j gets the class
    "is-visible" and the transition delay 100·j ms, the grid leaves the
    observation targets of the stagger observer, and no other element
    has its classes or delay changed; the fade-in observer keeps its
    targets. *)
Theorem stagger_reveals_children
    (children : nat → list nat) (grid : nat) (s : Reveal.state) :
  NoDup (children grid) →
  let s' := V3Reveal.onStaggerEntry children s (Reveal.Entry grid true) in
  (∀ j c, children grid !! j = Some c →
     Reveal.revealed c s' = true
     ∧ Reveal.classesOf c s' = DOM.add (Reveal.classesOf c s) "is-visible"
     ∧ Reveal.transitionDelay s' !! c = Some (Z.of_nat j * 100)%Z)
  ∧ (∀ el, el ∉ children grid →
       Reveal.classesOf el s' = Reveal.classesOf el s
       ∧ Reveal.transitionDelay s' !! el = Reveal.transitionDelay s !! el)
  ∧ (grid ∉ Reveal.staggerObserved s')
  ∧ (∀ el, el ≠ grid →
       el ∈ Reveal.staggerObserved s' ↔ el ∈ Reveal.staggerObserved s)
  ∧ Reveal.observed s' = Reveal.observed s.
Proof.
  intros Hnd s'.
  destruct (revealChildren_spec (children grid) 0%Z s Hnd) as [Hin Hout].
  destruct (revealChildren_observed 0%Z (children grid) s) as [Ho Hs].
  unfold s', V3Reveal.onStaggerEntry. simpl.
  split; [|split; [|split; [|split]]].
  - intros j c Hj. destruct (Hin j c Hj) as [Hc Hd].
    change (Reveal.classesOf c (Reveal.staggerUnobserve ?x ?y))
      with (Reveal.classesOf c y).
    unfold Reveal.revealed.
    change (Reveal.classesOf c (Reveal.staggerUnobserve ?x ?y))
      with (Reveal.classesOf c y).
    rewrite Hc. split; [apply contains_add|]. split; [done|].
    rewrite Hd. f_equal.
  - intros el Hel. by apply Hout.
  - rewrite elem_of_difference, elem_of_singleton. tauto.
  - intros el Hne. rewrite elem_of_difference, elem_of_singleton, Hs. tauto.
  - exact Ho.
Qed.

Lemma stagger_reveals_children_witness :
  NoDup (Examples.gridChildren 3)
  ∧ ∀ j c, Examples.gridChildren 3 !! j = Some c →
      Reveal.revealed c
        (V3Reveal.onStaggerEntry Examples.gridChildren Examples.animatedPage
           (Reveal.Entry 3 true)) = true
      ∧ Reveal.classesOf c
          (V3Reveal.onStaggerEntry Examples.gridChildren Examples.animatedPage
             (Reveal.Entry 3 true))
        = DOM.add (Reveal.classesOf c Examples.animatedPage) "is-visible"
      ∧ Reveal.transitionDelay
          (V3Reveal.onStaggerEntry Examples.gridChildren Examples.animatedPage
             (Reveal.Entry 3 true)) !! c
        = Some (Z.of_nat j * 100)%Z.
Proof.
  assert (Hnd : NoDup (Examples.gridChildren 3))
    by (apply (bool_decide_unpack _); vm_compute; reflexivity).
  split; [exact Hnd|].
  exact (proj1 (stagger_reveals_children Examples.gridChildren 3
                  Examples.animatedPage Hnd)).
Defined.

(** X9. The fade-in callback (the only observer callback of main.js, and
    the fade-in observer of script.js) touches nothing but the targets
    of the intersecting entries of the batch: such a target gets
    "is-visible" added and leaves the observation targets; every other
    element keeps its class list and stays observed if it was; no
    transition delay changes. *)
Theorem fade_callback_touches_only_intersecting
    (entries : list Reveal.entry) (s : Reveal.state) (el : nat) :
  let hit := RevealFrame.intersects entries el in
  (Reveal.classesOf el (MainReveal.observerCallback entries s)
   = (if hit then DOM.add (Reveal.classesOf el s) "is-visible"
      else Reveal.classesOf el s)
   ∧ (el ∈ Reveal.observed (MainReveal.observerCallback entries s)
      ↔ el ∈ Reveal.observed s ∧ hit = false)
   ∧ Reveal.transitionDelay (MainReveal.observerCallback entries s)
     = Reveal.transitionDelay s)
  ∧ (Reveal.classesOf el (V3Reveal.fadeInCallback entries s)
     = (if hit then DOM.add (Reveal.classesOf el s) "is-visible"
        else Reveal.classesOf el s)
     ∧ (el ∈ Reveal.observed (V3Reveal.fadeInCallback entries s)
        ↔ el ∈ Reveal.observed s ∧ hit = false)
     ∧ Reveal.transitionDelay (V3Reveal.fadeInCallback entries s)
       = Reveal.transitionDelay s).
Proof.
  intros hit.
  destruct (fade_callback_effect entries s el) as (Hc & Ho & Hd & _).
  split; (split; [exact Hc | split; [exact Ho | exact Hd]]).
Qed.

(** ** Scroll-spy, continued *)

Section MoreSpyFacts.
Import Spy.
Implicit Types (l : link) (links : list link) (e : entry) (entries : list entry).

Lemma mark_other_tokens frag l t :
  t ≠ "active" → t ∈ classList (mark frag l) ↔ t ∈ classList l.
Proof. intros Ht. simpl. by apply elem_of_toggle_other. Qed.

Lemma fold_other_tokens fragment entries : ∀ links j l',
  foldl (onEntryWith fragment) links entries !! j = Some l' →
  ∃ l, links !! j = Some l
       ∧ ∀ t, t ≠ "active" → t ∈ classList l' ↔ t ∈ classList l.
Proof.
  induction entries as [|e entries IH]; intros links j l' Hj; simpl in Hj.
  - by exists l'.
  - destruct (IH _ j l' Hj) as (l1 & Hl1 & Htok).
    unfold onEntryWith in Hl1. destruct (isIntersecting e); [|by exists l1].
    rewrite list_lookup_fmap in Hl1.
    destruct (links !! j) as [l|]; [|discriminate]. injection Hl1 as <-.
    exists l. split; [done|]. intros t Ht.
    rewrite (Htok t Ht). by apply mark_other_tokens.
Qed.

Lemma sameLink_mark frag a b :
  V21Spy.sameLink a b → V21Spy.sameLink (V21Spy.mark frag a) (mark frag b).
Proof.
  intros [Hh Ht]. split; [done|]. intros t. simpl. rewrite Hh.
  destruct (JS.strict_eq (href b) (Some frag)); simpl.
  - rewrite !elem_of_add, elem_of_remove, Ht.
    destruct (decide (t = "active")); tauto.
  - by rewrite !elem_of_remove, Ht.
Qed.

Lemma sameLink_fold entries : ∀ links21 links3,
  Forall2 V21Spy.sameLink links21 links3 →
  Forall2 V21Spy.sameLink (V21Spy.observerCallback entries links21)
                          (V3Spy.attractionsCallback entries links3).
Proof.
  unfold V21Spy.observerCallback, V3Spy.attractionsCallback.
  induction entries as [|e entries IH]; intros links21 links3 Hsame; simpl; [done|].
  apply IH. unfold V21Spy.onEntry, V3Spy.onEntry.
  destruct (isIntersecting e); [|done].
  apply Forall2_fmap. eapply Forall2_impl; [exact Hsame|].
  intros a b Hab. by apply sameLink_mark.
Qed.

End MoreSpyFacts.

(** X10. Scroll-spy, without any assumption on the markup: a batch
    without intersecting entry leaves the links as they are; otherwise a
    link is active afterwards exactly when its href is the fragment of
    the last intersecting section, its href and its other classes being
    untouched.  For a section without id that fragment is "#" in main.js
    and "#null" in script.js. *)
Theorem spy_active_iff_last_fragment
    (entries : list Spy.entry) (links : list Spy.link) :
  match last (Spy.intersecting entries) with
  | None =>
      MainSpy.observerCallback entries links = links
      ∧ V3Spy.attractionsCallback entries links = links
      ∧ V3Spy.policyCallback entries links = links
  | Some e =>
      (∀ j l', MainSpy.observerCallback entries links !! j = Some l' →
         ∃ l, links !! j = Some l
              ∧ Spy.href l' = Spy.href l
              ∧ Spy.active l'
                = JS.strict_eq (Spy.href l)
                    (Some ("#" +:+ default "" (Spy.id (Spy.target e))))
              ∧ ∀ t, t ≠ "active" → t ∈ Spy.classList l' ↔ t ∈ Spy.classList l)
      ∧ (∀ j l', V3Spy.attractionsCallback entries links !! j = Some l' →
           ∃ l, links !! j = Some l
                ∧ Spy.href l' = Spy.href l
                ∧ Spy.active l'
                  = JS.strict_eq (Spy.href l)
                      (Some ("#" +:+ default "null" (Spy.id (Spy.target e))))
                ∧ ∀ t, t ≠ "active" → t ∈ Spy.classList l' ↔ t ∈ Spy.classList l)
      ∧ V3Spy.policyCallback entries links = V3Spy.attractionsCallback entries links
  end.
Proof.
  destruct (last (Spy.intersecting entries)) as [e|] eqn:Hlast.
  - split; [|split; [|done]].
    + intros j l' Hj.
      destruct (fold_last MainSpy.fragment entries links e Hlast j l' Hj)
        as (l & Hl & Hh & Ha).
      destruct (fold_other_tokens MainSpy.fragment entries links j l' Hj)
        as (l0 & Hl0 & Htok).
      rewrite Hl in Hl0. injection Hl0 as <-. by exists l.
    + intros j l' Hj.
      destruct (fold_last V3Spy.fragment entries links e Hlast j l' Hj)
        as (l & Hl & Hh & Ha).
      destruct (fold_other_tokens V3Spy.fragment entries links j l' Hj)
        as (l0 & Hl0 & Htok).
      rewrite Hl in Hl0. injection Hl0 as <-. by exists l.
  - apply last_None in Hlast.
    split; [|split]; by apply (fold_none_intersecting _ entries links).
Qed.

(** X11. The navigation callbacks of script.js 2.1, which remove
    "active" from every link and add it back to the matching one, and
    those of script.js 3.0, which use a forced toggle, agree: after the
    same batches the two lists have the same links with the same hrefs
    and the same classes, up to the order of the classes. *)
Theorem spy_versions_agree (batches : list (list Spy.entry)) (links : list Spy.link) :
  Forall2 V21Spy.sameLink
    (foldl (λ ls b, V21Spy.observerCallback b ls) links batches)
    (foldl (λ ls b, V3Spy.attractionsCallback b ls) links batches)
  ∧ Forall2 V21Spy.sameLink
      (foldl (λ ls b, V21Spy.observerCallback b ls) links batches)
      (foldl (λ ls b, V3Spy.policyCallback b ls) links batches).
Proof.
  assert (H : ∀ l21 l3, Forall2 V21Spy.sameLink l21 l3 →
            Forall2 V21Spy.sameLink
              (foldl (λ ls b, V21Spy.observerCallback b ls) l21 batches)
              (foldl (λ ls b, V3Spy.attractionsCallback b ls) l3 batches)).
  { induction batches as [|b batches IH]; intros l21 l3 Hs; simpl; [done|].
    by apply IH, sameLink_fold. }
  assert (H0 : Forall2 V21Spy.sameLink links links).
  { apply Forall2_same_length_lookup. split; [done|].
    intros i a b Ha Hb. rewrite Ha in Hb. injection Hb as <-. by split. }
  split; by apply H.
Qed.

(** ** Gallery, continued *)

Section MoreGalleryFacts.
Import Gallery GalleryFrame.

Lemma activate_spec b buttons j btn' :
  activate b buttons !! j = Some btn' →
  ∃ btn, buttons !! j = Some btn
         ∧ filter_ btn' = filter_ btn
         ∧ DOM.contains (classList btn') "active" = bool_decide (j = b)
         ∧ ∀ t, t ≠ "active" → t ∈ classList btn' ↔ t ∈ classList btn.
Proof.
  unfold activate. rewrite list_lookup_imap.
  destruct (buttons !! j) as [btn|]; [|discriminate]. simpl.
  intros [= <-]. exists btn. split; [done|]. split; [done|]. simpl.
  destruct (Nat.eqb_spec j b) as [->|Hne].
  - rewrite bool_decide_eq_true_2 by done. split; [apply contains_add|].
    intros t Ht. rewrite elem_of_add, elem_of_remove. tauto.
  - rewrite bool_decide_eq_false_2 by done. split; [apply contains_remove|].
    intros t Ht. rewrite elem_of_remove. tauto.
Qed.

Lemma activate_filters b buttons : filter_ <$> activate b buttons = filter_ <$> buttons.
Proof.
  apply list_eq. intros j. rewrite !list_lookup_fmap. unfold activate.
  rewrite list_lookup_imap. by destruct (buttons !! j).
Qed.

Lemma identity_alter f i (items : list item) :
  (∀ it, identity (f it) = identity it) →
  identity <$> alter f i items = identity <$> items.
Proof.
  intros Hf. apply list_eq. intros j. rewrite !list_lookup_fmap, list_lookup_alter.
  destruct (decide (i = j)) as [->|]; [|done].
  destruct (items !! j); simpl; [by rewrite Hf | done].
Qed.

(** script.js: the listeners keep the pictures and the controls. *)
Lemma v3_openLightbox_frame idx s :
  V3Gallery.galleryItems (fst (V3Gallery.openLightbox idx s)) = V3Gallery.galleryItems s
  ∧ V3Gallery.filterButtons (fst (V3Gallery.openLightbox idx s))
    = V3Gallery.filterButtons s
  ∧ V3Gallery.allVisibleItems (fst (V3Gallery.openLightbox idx s))
    = V3Gallery.allVisibleItems s.
Proof.
  unfold V3Gallery.openLightbox. simpl.
  destruct (JS.index (V3Gallery.allVisibleItems s) idx) as [r|]; [|done].
  by destruct (V3Gallery.galleryItems s !! r).
Qed.

Lemma v3_onFilterClick_frame b s :
  identity <$> V3Gallery.galleryItems (V3Gallery.onFilterClick b s)
  = identity <$> V3Gallery.galleryItems s
  ∧ filter_ <$> V3Gallery.filterButtons (V3Gallery.onFilterClick b s)
    = filter_ <$> V3Gallery.filterButtons s
  ∧ V3Gallery.allVisibleItems (V3Gallery.onFilterClick b s)
    = V3Gallery.allVisibleItems s.
Proof.
  unfold V3Gallery.onFilterClick.
  destruct (V3Gallery.filterButtons s !! b) as [btn|]; [|done]. simpl.
  split; [|split; [apply activate_filters | done]].
  apply (identity_fmap_setDisplay
           (λ it, if matches (filter_ btn) it then "block" else "none")).
Qed.

Lemma visibleFrom_valid (s : V3Gallery.state) p r :
  V3Gallery.visibleFrom 0 (V3Gallery.galleryItems s) !! p = Some r →
  (r < length (V3Gallery.galleryItems s))%nat.
Proof.
  intros Hp. apply list_elem_of_lookup_2, elem_of_visibleFrom in Hp
    as (it & _ & Hit & _).
  rewrite Nat.sub_0_r in Hit. by eapply lookup_lt_Some.
Qed.

Lemma v3_dispatch_frame ev s :
  validRefs s →
  sameElements (V3Gallery.galleryItems s)
               (V3Gallery.galleryItems (fst (V3Gallery.dispatch ev s)))
               (V3Gallery.filterButtons s)
               (V3Gallery.filterButtons (fst (V3Gallery.dispatch ev s)))
  ∧ validRefs (fst (V3Gallery.dispatch ev s)).
Proof.
  intros Hv.
  assert (Hopen : ∀ idx s0, validRefs s0 →
            sameElements (V3Gallery.galleryItems s0)
              (V3Gallery.galleryItems (fst (V3Gallery.openLightbox idx s0)))
              (V3Gallery.filterButtons s0)
              (V3Gallery.filterButtons (fst (V3Gallery.openLightbox idx s0)))
            ∧ validRefs (fst (V3Gallery.openLightbox idx s0))).
  { intros idx s0 Hv0. destruct (v3_openLightbox_frame idx s0) as (Hi & Hb & Ha).
    unfold sameElements, validRefs. rewrite Hi, Hb, Ha. done. }
  assert (Hclose : ∀ s0, validRefs s0 →
            sameElements (V3Gallery.galleryItems s0)
              (V3Gallery.galleryItems (V3Gallery.closeLightbox s0))
              (V3Gallery.filterButtons s0)
              (V3Gallery.filterButtons (V3Gallery.closeLightbox s0))
            ∧ validRefs (V3Gallery.closeLightbox s0)) by (by intros s0 Hv0).
  destruct ev as [target|key]; simpl.
  - destruct target as [b|i| | | | | |]; simpl; try (by split).
    + destruct (v3_onFilterClick_frame b s) as (Hi & Hb & Ha). split; [by split|].
      intros p r. rewrite Ha. intros Hp. apply Hv in Hp.
      by rewrite <- (length_fmap identity), Hi, length_fmap.
    + destruct (bool_decide _); [|by split]. unfold V3Gallery.onItemClick.
      destruct (V3Gallery.openLightbox _ (V3Gallery.updateVisibleItems s))
        as [s1 c1] eqn:E.
      assert (E1 : s1 = fst (V3Gallery.openLightbox
                              (JS.indexOf (V3Gallery.allVisibleItems
                                             (V3Gallery.updateVisibleItems s)) i)
                              (V3Gallery.updateVisibleItems s))) by (by rewrite E).
      simpl. rewrite E1. apply (Hopen _ (V3Gallery.updateVisibleItems s)).
      intros p r Hp. by apply (visibleFrom_valid s p r).
    + destruct (V3Gallery.showPrev s) as [s1 c1] eqn:E.
      assert (E1 : s1 = fst (V3Gallery.showPrev s)) by (by rewrite E).
      simpl. rewrite E1. by apply Hopen.
    + destruct (V3Gallery.showNext s) as [s1 c1] eqn:E.
      assert (E1 : s1 = fst (V3Gallery.showNext s)) by (by rewrite E).
      simpl. rewrite E1. by apply Hopen.
  - unfold V3Gallery.onKeyDown. destruct (DOM.contains _ _); [|by split].
    destruct (String.eqb key "Escape") eqn:K1.
    + apply String.eqb_eq in K1 as ->. simpl. by apply Hclose.
    + destruct (String.eqb key "ArrowLeft") eqn:K2.
      * apply String.eqb_eq in K2 as ->. simpl.
        destruct (V3Gallery.showPrev s) as [s1 c1] eqn:E.
        assert (E1 : s1 = fst (V3Gallery.showPrev s)) by (by rewrite E).
        destruct c1; simpl; rewrite E1; by apply Hopen.
      * destruct (String.eqb key "ArrowRight"); [|by split].
        by apply Hopen.
Qed.

Lemma v3_run_frame evs : ∀ s,
  validRefs s →
  sameElements (V3Gallery.galleryItems s) (V3Gallery.galleryItems (V3Gallery.run evs s))
               (V3Gallery.filterButtons s) (V3Gallery.filterButtons (V3Gallery.run evs s))
  ∧ validRefs (V3Gallery.run evs s).
Proof.
  unfold V3Gallery.run.
  induction evs as [|ev evs IH]; intros s Hv; simpl; [by split|].
  destruct (v3_dispatch_frame ev s Hv) as [[Hi Hb] Hv1].
  destruct (IH _ Hv1) as [[Hi2 Hb2] Hv2].
  split; [|exact Hv2]. split; congruence.
Qed.

(** main.js: the listeners keep the pictures, the controls and the
    image list. *)
Lemma main_openLightbox_frame idx s :
  MainGallery.galleryItems (fst (MainGallery.openLightbox idx s))
  = MainGallery.galleryItems s
  ∧ MainGallery.filterButtons (fst (MainGallery.openLightbox idx s))
    = MainGallery.filterButtons s
  ∧ MainGallery.images (fst (MainGallery.openLightbox idx s)) = MainGallery.images s
  ∧ MainGallery.timers (fst (MainGallery.openLightbox idx s)) = MainGallery.timers s.
Proof.
  unfold MainGallery.openLightbox. simpl.
  by destruct (JS.index (MainGallery.images s) idx).
Qed.

Lemma main_dispatch_frame ev s :
  sameElements (MainGallery.galleryItems s)
               (MainGallery.galleryItems (fst (MainGallery.dispatch ev s)))
               (MainGallery.filterButtons s)
               (MainGallery.filterButtons (fst (MainGallery.dispatch ev s)))
  ∧ MainGallery.images (fst (MainGallery.dispatch ev s)) = MainGallery.images s.
Proof.
  assert (Hopen : ∀ idx s0,
            sameElements (MainGallery.galleryItems s0)
              (MainGallery.galleryItems (fst (MainGallery.openLightbox idx s0)))
              (MainGallery.filterButtons s0)
              (MainGallery.filterButtons (fst (MainGallery.openLightbox idx s0)))
            ∧ MainGallery.images (fst (MainGallery.openLightbox idx s0))
              = MainGallery.images s0).
  { intros idx s0. destruct (main_openLightbox_frame idx s0) as (Hi & Hb & Him & _).
    unfold sameElements. by rewrite Hi, Hb, Him. }
  destruct ev as [target|key|]; simpl.
  - destruct target as [b|i| | | | | |]; simpl; try (by split).
    + unfold MainGallery.onFilterClick.
      destruct (MainGallery.filterButtons s !! b) as [btn|]; [|by split]. simpl.
      split; [|done]. split; [|apply activate_filters].
      apply (identity_fmap_setDisplay (λ _, "none")).
    + destruct (bool_decide _); [|by split]. unfold MainGallery.onItemClick.
      destruct (MainGallery.openLightbox (JS.of_nat i) s) as [s1 c1] eqn:E.
      assert (E1 : s1 = fst (MainGallery.openLightbox (JS.of_nat i) s))
        by (by rewrite E).
      simpl. rewrite E1. apply Hopen.
    + destruct (MainGallery.showPrev s) as [s1 c1] eqn:E.
      assert (E1 : s1 = fst (MainGallery.showPrev s)) by (by rewrite E).
      simpl. rewrite E1. unfold MainGallery.showPrev. apply (Hopen _ (MainGallery.setIndex _ s)).
    + destruct (MainGallery.showNext s) as [s1 c1] eqn:E.
      assert (E1 : s1 = fst (MainGallery.showNext s)) by (by rewrite E).
      simpl. rewrite E1. unfold MainGallery.showNext. apply (Hopen _ (MainGallery.setIndex _ s)).
  - unfold MainGallery.onKeyDown. destruct (DOM.contains _ _); [|by split].
    destruct (String.eqb key "Escape") eqn:K1.
    + apply String.eqb_eq in K1 as ->. simpl. by split.
    + destruct (String.eqb key "ArrowLeft") eqn:K2.
      * apply String.eqb_eq in K2 as ->. simpl.
        destruct (MainGallery.showPrev s) as [s1 c1] eqn:E.
        assert (E1 : s1 = fst (MainGallery.showPrev s)) by (by rewrite E).
        destruct c1; simpl; rewrite E1; unfold MainGallery.showPrev;
          apply (Hopen _ (MainGallery.setIndex _ s)).
      * destruct (String.eqb key "ArrowRight"); [|by split].
        unfold MainGallery.showNext. apply (Hopen _ (MainGallery.setIndex _ s)).
  - unfold MainGallery.onTimeout. destruct (MainGallery.timers s) as [|i rest];
      [by split|]. simpl. split; [|done]. split; [|done].
    by apply identity_alter.
Qed.

Lemma main_run_frame evs : ∀ s,
  sameElements (MainGallery.galleryItems s)
               (MainGallery.galleryItems (MainGallery.run evs s))
               (MainGallery.filterButtons s)
               (MainGallery.filterButtons (MainGallery.run evs s))
  ∧ MainGallery.images (MainGallery.run evs s) = MainGallery.images s.
Proof.
  unfold MainGallery.run.
  induction evs as [|ev evs IH]; intros s; simpl; [by split|].
  destruct (main_dispatch_frame ev s) as [[Hi Hb] Him].
  destruct (IH (fst (MainGallery.dispatch ev s))) as [[Hi2 Hb2] Him2].
  split; [split|]; congruence.
Qed.

Lemma imageOf_identity (a b : list item) :
  identity <$> a = identity <$> b → imageOf <$> a = imageOf <$> b.
Proof.
  intros H. apply list_eq. intros j.
  assert (Hj : (identity <$> a) !! j = (identity <$> b) !! j) by (by rewrite H).
  rewrite !list_lookup_fmap in *.
  destruct (a !! j) as [[ha ca ga da]|], (b !! j) as [[hb cb gb db]|]; simpl in *;
    try done.
  injection Hj as -> -> ->. done.
Qed.

End MoreGalleryFacts.

(** X12. No gallery listener adds, removes or re-targets an element.
    After the page load and any sequence of clicks, key presses and
    timers, in both scripts, the gallery still holds the same pictures
    (source, caption, category) and the same filter controls (tag) in
    the same order.  In script.js the visible list always refers to
    pictures of the page; in main.js the image list stays the list of
    sources and captions of the pictures. *)
Theorem gallery_elements_preserved
    (buttons : list Gallery.button) (items : list Gallery.item)
    (cl : list string) (src text : string)
    (evs3 : list V3Gallery.event) (evsm : list MainGallery.event) :
  (let s := V3Gallery.run evs3 (V3Gallery.initGallery buttons items cl src text) in
   GalleryFrame.sameElements items (V3Gallery.galleryItems s)
                             buttons (V3Gallery.filterButtons s)
   ∧ GalleryFrame.validRefs s)
  ∧ match MainGallery.initGalleryPage buttons items (Some cl) src text with
    | None => buttons = []
    | Some s0 =>
        let s := MainGallery.run evsm s0 in
        GalleryFrame.sameElements items (MainGallery.galleryItems s)
                                  buttons (MainGallery.filterButtons s)
        ∧ MainGallery.images s = GalleryFrame.imageOf <$> items
        ∧ MainGallery.images s = GalleryFrame.imageOf <$> MainGallery.galleryItems s
    end.
Proof.
  split.
  - intros s. apply (v3_run_frame evs3 (V3Gallery.initGallery buttons items cl src text)).
    intros p r Hp. simpl in Hp. by rewrite lookup_nil in Hp.
  - destruct buttons as [|b0 buttons]; [done|]. simpl.
    destruct (main_run_frame evsm
                (MainGallery.State (b0 :: buttons) items cl src text
                   ((λ link, MainGallery.Image (Gallery.href link) (Gallery.caption link))
                      <$> items) (JS.Int 0) [])) as [[Hi Hb] Him].
    simpl in Hi, Hb, Him.
    split; [by split|]. split; [exact Him|].
    rewrite Him. symmetry. by apply imageOf_identity.
Qed.

(** X13. A click on a filter control makes it the only active one: in
    both scripts, afterwards the control at position j carries "active"
    exactly when j is the clicked position, and every control keeps its
    tag and its other classes. *)
Theorem filter_click_exclusive_active
    (b : nat) (s3 : V3Gallery.state) (sm : MainGallery.state) :
  (b < length (V3Gallery.filterButtons s3))%nat →
  (b < length (MainGallery.filterButtons sm))%nat →
  (∀ j btn',
      V3Gallery.filterButtons
        (fst (V3Gallery.dispatch (V3Gallery.Click (Gallery.FilterBtn b)) s3)) !! j
      = Some btn' →
      ∃ btn, V3Gallery.filterButtons s3 !! j = Some btn
             ∧ Gallery.filter_ btn' = Gallery.filter_ btn
             ∧ DOM.contains (Gallery.classList btn') "active" = bool_decide (j = b)
             ∧ ∀ t, t ≠ "active" →
                    t ∈ Gallery.classList btn' ↔ t ∈ Gallery.classList btn)
  ∧ (∀ j btn',
        MainGallery.filterButtons
          (fst (MainGallery.dispatch (MainGallery.Click (Gallery.FilterBtn b)) sm)) !! j
        = Some btn' →
        ∃ btn, MainGallery.filterButtons sm !! j = Some btn
               ∧ Gallery.filter_ btn' = Gallery.filter_ btn
               ∧ DOM.contains (Gallery.classList btn') "active" = bool_decide (j = b)
               ∧ ∀ t, t ≠ "active" →
                      t ∈ Gallery.classList btn' ↔ t ∈ Gallery.classList btn).
Proof.
  intros H3 Hm.
  destruct (lookup_lt_is_Some_2 _ _ H3) as [b3 Hb3].
  destruct (lookup_lt_is_Some_2 _ _ Hm) as [bm Hbm].
  split; intros j btn'; simpl.
  - unfold V3Gallery.onFilterClick. rewrite Hb3. simpl. apply activate_spec.
  - unfold MainGallery.onFilterClick. rewrite Hbm. simpl. apply activate_spec.
Qed.

Lemma filter_click_exclusive_active_witness :
  (2 < length (V3Gallery.filterButtons Examples.galleryV3))%nat
  ∧ (2 < length (MainGallery.filterButtons Examples.galleryMain))%nat
  ∧ ∀ j btn',
      MainGallery.filterButtons
        (fst (MainGallery.dispatch (MainGallery.Click (Gallery.FilterBtn 2))
                Examples.galleryMain)) !! j
      = Some btn' →
      ∃ btn, MainGallery.filterButtons Examples.galleryMain !! j = Some btn
             ∧ Gallery.filter_ btn' = Gallery.filter_ btn
             ∧ DOM.contains (Gallery.classList btn') "active" = bool_decide (j = 2%nat)
             ∧ ∀ t, t ≠ "active" →
                    t ∈ Gallery.classList btn' ↔ t ∈ Gallery.classList btn.
Proof.
  assert (H3 : (2 < length (V3Gallery.filterButtons Examples.galleryV3))%nat)
    by (vm_compute; lia).
  assert (Hm : (2 < length (MainGallery.filterButtons Examples.galleryMain))%nat)
    by (vm_compute; lia).
  split; [exact H3 | split; [exact Hm |]].
  exact (proj2 (filter_click_exclusive_active 2 Examples.galleryV3
                  Examples.galleryMain H3 Hm)).
Defined.

(** X14. The keyboard is inert unless the lightbox is open and the key
    is Escape, ArrowLeft or ArrowRight: in both scripts any other key
    press leaves the whole page state unchanged and completes normally. *)
Theorem keydown_inert
    (key : string) (s3 : V3Gallery.state) (sm : MainGallery.state) :
  DOM.contains (V3Gallery.lightbox s3) "active" = false
  ∨ key ∉ ["Escape"; "ArrowLeft"; "ArrowRight"] →
  DOM.contains (MainGallery.lightbox sm) "active" = false
  ∨ key ∉ ["Escape"; "ArrowLeft"; "ArrowRight"] →
  V3Gallery.dispatch (V3Gallery.KeyDown key) s3 = (s3, JS.Normal)
  ∧ MainGallery.dispatch (MainGallery.KeyDown key) sm = (sm, JS.Normal).
Proof.
  intros H3 Hm.
  assert (Hkey : key ∉ ["Escape"; "ArrowLeft"; "ArrowRight"] →
            String.eqb key "Escape" = false ∧ String.eqb key "ArrowLeft" = false
            ∧ String.eqb key "ArrowRight" = false).
  { rewrite !not_elem_of_cons, !String.eqb_neq. tauto. }
  split; simpl.
  - unfold V3Gallery.onKeyDown. destruct H3 as [-> | Hk]; [done|].
    destruct (Hkey Hk) as (E1 & E2 & E3). rewrite E1, E2, E3.
    destruct (DOM.contains (V3Gallery.lightbox s3) "active"); reflexivity.
  - unfold MainGallery.onKeyDown. destruct Hm as [-> | Hk]; [done|].
    destruct (Hkey Hk) as (E1 & E2 & E3). rewrite E1, E2, E3.
    destruct (DOM.contains (MainGallery.lightbox sm) "active"); reflexivity.
Qed.

Lemma keydown_inert_witness :
  (DOM.contains (V3Gallery.lightbox Examples.galleryV3) "active" = false
   ∨ "ArrowRight" ∉ ["Escape"; "ArrowLeft"; "ArrowRight"])
  ∧ (DOM.contains (MainGallery.lightbox Examples.openedMain) "active" = false
     ∨ "Enter" ∉ ["Escape"; "ArrowLeft"; "ArrowRight"])
  ∧ V3Gallery.dispatch (V3Gallery.KeyDown "ArrowRight") Examples.galleryV3
    = (Examples.galleryV3, JS.Normal)
  ∧ MainGallery.dispatch (MainGallery.KeyDown "Enter") Examples.openedMain
    = (Examples.openedMain, JS.Normal).
Proof.
  assert (H3 : DOM.contains (V3Gallery.lightbox Examples.galleryV3) "active" = false
               ∨ "ArrowRight" ∉ ["Escape"; "ArrowLeft"; "ArrowRight"])
    by (left; vm_compute; reflexivity).
  assert (Hm : DOM.contains (MainGallery.lightbox Examples.openedMain) "active" = false
               ∨ "Enter" ∉ ["Escape"; "ArrowLeft"; "ArrowRight"])
    by (right; apply (bool_decide_unpack _); vm_compute; reflexivity).
  assert (H3' : DOM.contains (V3Gallery.lightbox Examples.galleryV3) "active" = false
                ∨ "Enter" ∉ ["Escape"; "ArrowLeft"; "ArrowRight"])
    by (left; vm_compute; reflexivity).
  assert (Hm' : DOM.contains (MainGallery.lightbox Examples.galleryMain) "active" = false
                ∨ "ArrowRight" ∉ ["Escape"; "ArrowLeft"; "ArrowRight"])
    by (left; vm_compute; reflexivity).
  split; [exact H3 | split; [exact Hm | split]].
  - exact (proj1 (keydown_inert "ArrowRight" Examples.galleryV3 Examples.galleryMain
                    H3 Hm')).
  - exact (proj2 (keydown_inert "Enter" Examples.galleryV3 Examples.openedMain H3' Hm)).
Defined.

(** X15. script.js, click on the picture at position i.  The visible
    list is recomputed from the displays; pictures and controls are
    untouched.  If the picture is visible the listener completes: the
    cursor is the position of the picture in the recomputed list, its
    source and caption (empty when it has none) are loaded and the
    lightbox is active.  If the picture is hidden (a scripted click) the
    listener throws with the cursor at -1 and the lightbox, its image and
    its caption as before. *)
Theorem item_click_script (s : V3Gallery.state) (i : nat) (it : Gallery.item) :
  V3Gallery.galleryItems s !! i = Some it →
  let s' := fst (V3Gallery.dispatch (V3Gallery.Click (Gallery.GalleryItem i)) s) in
  let c := snd (V3Gallery.dispatch (V3Gallery.Click (Gallery.GalleryItem i)) s) in
  V3Gallery.allVisibleItems s' = V3Gallery.visibleFrom 0 (V3Gallery.galleryItems s)
  ∧ V3Gallery.galleryItems s' = V3Gallery.galleryItems s
  ∧ V3Gallery.filterButtons s' = V3Gallery.filterButtons s
  ∧ if Gallery.visible it
    then c = JS.Normal
         ∧ (∃ p, V3Gallery.currentIndex s' = JS.of_nat p
                 ∧ V3Gallery.allVisibleItems s' !! p = Some i)
         ∧ V3Gallery.lightboxImg s' = Gallery.href it
         ∧ V3Gallery.lightboxCaption s' = default "" (Gallery.caption it)
         ∧ DOM.contains (V3Gallery.lightbox s') "active" = true
    else c = JS.TypeError
         ∧ V3Gallery.currentIndex s' = JS.Int (-1)
         ∧ V3Gallery.lightboxImg s' = V3Gallery.lightboxImg s
         ∧ V3Gallery.lightboxCaption s' = V3Gallery.lightboxCaption s
         ∧ V3Gallery.lightbox s' = V3Gallery.lightbox s.
Proof.
  intros Hi s' c. unfold s', c. clear s' c.
  destruct (Gallery.visible it) eqn:Hv.
  - destruct (v3_item_click_opens s i it Hi Hv) as (p & Hp & ->). simpl.
    repeat (split; [done|]). split; [by exists p|].
    repeat (split; [done|]). apply contains_add.
  - rewrite (v3_item_click_hidden s i it Hi Hv). simpl. by repeat split.
Qed.

Lemma item_click_script_witness :
  V3Gallery.galleryItems Examples.roomsV3 !! 2%nat
  = Some (Gallery.Item "img/deluxe.jpg" None (Some "rooms") "block")
  ∧ V3Gallery.allVisibleItems
      (fst (V3Gallery.dispatch (V3Gallery.Click (Gallery.GalleryItem 2))
              Examples.roomsV3))
    = V3Gallery.visibleFrom 0 (V3Gallery.galleryItems Examples.roomsV3).
Proof.
  assert (Hi : V3Gallery.galleryItems Examples.roomsV3 !! 2%nat
               = Some (Gallery.Item "img/deluxe.jpg" None (Some "rooms") "block"))
    by reflexivity.
  split; [exact Hi|].
  exact (proj1 (item_click_script Examples.roomsV3 2 _ Hi)).
Defined.

(** X16. main.js, click on the picture at position i, in any state
    whose image list is the list of sources and captions of the
    pictures (as it is from the page load on): the listener completes,
    the cursor is i, the position among all pictures, and the source and
    caption of that picture are loaded and the lightbox is active,
    whether the filter shows the picture or hides it. *)
Theorem item_click_main (s : MainGallery.state) (i : nat) (it : Gallery.item) :
  MainGallery.images s = GalleryFrame.imageOf <$> MainGallery.galleryItems s →
  MainGallery.galleryItems s !! i = Some it →
  let s' := fst (MainGallery.dispatch (MainGallery.Click (Gallery.GalleryItem i)) s) in
  snd (MainGallery.dispatch (MainGallery.Click (Gallery.GalleryItem i)) s) = JS.Normal
  ∧ MainGallery.currentIndex s' = JS.of_nat i
  ∧ MainGallery.lightboxImg s' = Gallery.href it
  ∧ MainGallery.lightboxCaption s' = default "" (Gallery.caption it)
  ∧ DOM.contains (MainGallery.lightbox s') "active" = true
  ∧ MainGallery.galleryItems s' = MainGallery.galleryItems s
  ∧ MainGallery.timers s' = MainGallery.timers s.
Proof.
  intros Him Hi s'. unfold s'. clear s'.
  assert (Himg : MainGallery.images s !! i = Some (GalleryFrame.imageOf it))
    by (by rewrite Him, list_lookup_fmap, Hi).
  rewrite (main_item_click_opens s i _ (lookup_lt_Some _ _ _ Hi) Himg). simpl.
  repeat (split; [done|]). split; [apply contains_add | done].
Qed.

Lemma item_click_main_witness :
  MainGallery.images Examples.roomsMain
  = GalleryFrame.imageOf <$> MainGallery.galleryItems Examples.roomsMain
  ∧ MainGallery.galleryItems Examples.roomsMain !! 1%nat
    = Some (Gallery.Item "img/buffet.jpg" (Some "Buffet") (Some "dining") "none")
  ∧ MainGallery.lightboxImg
      (fst (MainGallery.dispatch (MainGallery.Click (Gallery.GalleryItem 1))
              Examples.roomsMain))
    = "img/buffet.jpg".
Proof.
  assert (Him : MainGallery.images Examples.roomsMain
                = GalleryFrame.imageOf <$> MainGallery.galleryItems Examples.roomsMain)
    by reflexivity.
  assert (Hi : MainGallery.galleryItems Examples.roomsMain !! 1%nat
               = Some (Gallery.Item "img/buffet.jpg" (Some "Buffet") (Some "dining")
                         "none"))
    by reflexivity.
  split; [exact Him | split; [exact Hi |]].
  exact (proj1 (proj2 (proj2 (item_click_main Examples.roomsMain 1 _ Him Hi)))).
Defined.

(** ** Lightbox navigation, continued *)

Section WalkFacts.
Import Navigation.
Open Scope Z_scope.

Lemma step_mod i n m :
  0 ≤ i < Z.of_nat n →
  (match m with
   | Next => JS.rem (JS.add (JS.Int i) (JS.Int 1)) (JS.of_nat n)
   | Prev => JS.rem (JS.add (JS.sub (JS.Int i) (JS.Int 1)) (JS.of_nat n)) (JS.of_nat n)
   end) = JS.Int ((i + step m) mod Z.of_nat n).
Proof.
  intros Hi. destruct m; simpl step.
  - by apply rem_next.
  - rewrite rem_prev by done. f_equal.
    replace (i - 1 + Z.of_nat n) with (i + -1 + 1 * Z.of_nat n) by lia.
    apply Z_mod_plus_full.
Qed.

Lemma main_move_step (s : MainGallery.state) i m :
  MainGallery.currentIndex s = JS.Int i →
  0 ≤ i < Z.of_nat (length (MainGallery.images s)) →
  let j := (i + step m) mod Z.of_nat (length (MainGallery.images s)) in
  ∃ img, MainGallery.images s !! Z.to_nat j = Some img
         ∧ (match m with
            | Next => MainGallery.showNext s
            | Prev => MainGallery.showPrev s
            end)
           = (MainGallery.setLightbox (DOM.add (MainGallery.lightbox s) "active")
                (MainGallery.setCaption (default "" (MainGallery.img_caption img))
                   (MainGallery.setImg (MainGallery.src img)
                      (MainGallery.setIndex (JS.Int j) s))),
              JS.Normal).
Proof.
  intros Hcur Hi j.
  assert (Hj : 0 ≤ j < Z.of_nat (length (MainGallery.images s)))
    by (apply mod_in_range; lia).
  destruct (index_in_range (MainGallery.images s) j Hj) as (img & Himg & Hlook).
  exists img. split; [exact Hlook|].
  pose proof (step_mod i (length (MainGallery.images s)) m Hi) as Hstep.
  destruct m; unfold MainGallery.showNext, MainGallery.showPrev, MainGallery.length_;
    rewrite Hcur, Hstep; cbv zeta;
    change (MainGallery.currentIndex (MainGallery.setIndex ?x s)) with x;
    fold j;
    rewrite (main_openLightbox_shows (JS.Int j) img (MainGallery.setIndex (JS.Int j) s)
               Himg);
    by destruct s.
Qed.

Lemma v3_move_step (s : V3Gallery.state) i m :
  GalleryFrame.validRefs s →
  V3Gallery.currentIndex s = JS.Int i →
  0 ≤ i < Z.of_nat (length (V3Gallery.allVisibleItems s)) →
  let j := (i + step m) mod Z.of_nat (length (V3Gallery.allVisibleItems s)) in
  ∃ ref item,
    V3Gallery.allVisibleItems s !! Z.to_nat j = Some ref
    ∧ V3Gallery.galleryItems s !! ref = Some item
    ∧ (match m with
       | Next => V3Gallery.showNext s
       | Prev => V3Gallery.showPrev s
       end)
      = (V3Gallery.setLightbox (DOM.add (V3Gallery.lightbox s) "active")
           (V3Gallery.setCaption (default "" (Gallery.caption item))
              (V3Gallery.setImg (Gallery.href item)
                 (V3Gallery.setIndex (JS.Int j) s))),
         JS.Normal).
Proof.
  intros Hv Hcur Hi j.
  assert (Hj : 0 ≤ j < Z.of_nat (length (V3Gallery.allVisibleItems s)))
    by (apply mod_in_range; lia).
  destruct (index_in_range (V3Gallery.allVisibleItems s) j Hj) as (ref & Href & Hlook).
  destruct (lookup_lt_is_Some_2 (V3Gallery.galleryItems s) ref) as [item Hitem];
    [by eapply Hv|].
  exists ref, item. split; [exact Hlook|]. split; [exact Hitem|].
  pose proof (step_mod i (length (V3Gallery.allVisibleItems s)) m Hi) as Hstep.
  destruct m; unfold V3Gallery.showNext, V3Gallery.showPrev, V3Gallery.length_;
    rewrite Hcur, Hstep; fold j;
    by rewrite (openLightbox_shows (JS.Int j) ref item s Href Hitem).
Qed.

Lemma displacement_snoc moves m :
  displacement (moves ++ [m]) = displacement moves + step m.
Proof.
  unfold displacement. induction moves as [|m0 moves IH]; simpl; [lia|].
  rewrite IH. lia.
Qed.

Lemma main_walk moves : ∀ (s : MainGallery.state) i,
  MainGallery.currentIndex s = JS.Int i →
  0 ≤ i < Z.of_nat (length (MainGallery.images s)) →
  let s' := foldl mainMove s moves in
  let j := (i + displacement moves) mod Z.of_nat (length (MainGallery.images s)) in
  MainGallery.currentIndex s' = JS.Int j
  ∧ MainGallery.images s' = MainGallery.images s
  ∧ MainGallery.galleryItems s' = MainGallery.galleryItems s
  ∧ (moves ≠ [] →
     ∃ img, MainGallery.images s !! Z.to_nat j = Some img
            ∧ MainGallery.lightboxImg s' = MainGallery.src img
            ∧ MainGallery.lightboxCaption s' = default "" (MainGallery.img_caption img)
            ∧ DOM.contains (MainGallery.lightbox s') "active" = true).
Proof.
  induction moves as [|m moves IH] using rev_ind; intros s i Hcur Hi; simpl.
  - rewrite Z.add_0_r, Z.mod_small by done. by repeat split.
  - rewrite foldl_app. simpl.
    destruct (IH s i Hcur Hi) as (Hc & Him & Hit & _).
    set (s1 := foldl mainMove s moves) in *.
    set (n := Z.of_nat (length (MainGallery.images s))) in *.
    assert (Hi1 : 0 ≤ (i + displacement moves) mod n
                  < Z.of_nat (length (MainGallery.images s1))).
    { rewrite Him. apply mod_in_range. unfold n in *. lia. }
    destruct (main_move_step s1 _ m Hc Hi1) as (img & Himg & Hmove).
    rewrite Him in Himg, Hmove. fold n in Himg, Hmove.
    assert (Hj : ((i + displacement moves) mod n + step m) mod n
                 = (i + displacement (moves ++ [m])) mod n).
    { rewrite displacement_snoc, Z.add_mod_idemp_l by (unfold n; lia).
      f_equal. lia. }
    rewrite Hj in Himg, Hmove.
    assert (E : mainMove s1 m
                = MainGallery.setLightbox (DOM.add (MainGallery.lightbox s1) "active")
                    (MainGallery.setCaption (default "" (MainGallery.img_caption img))
                       (MainGallery.setImg (MainGallery.src img)
                          (MainGallery.setIndex
                             (JS.Int ((i + displacement (moves ++ [m])) mod n)) s1)))).
    { unfold mainMove. destruct m; by rewrite Hmove. }
    rewrite E. simpl. repeat (split; [done|]).
    intros _. exists img. repeat (split; [done|]). apply contains_add.
Qed.

Lemma v3_walk moves : ∀ (s : V3Gallery.state) i,
  GalleryFrame.validRefs s →
  V3Gallery.currentIndex s = JS.Int i →
  0 ≤ i < Z.of_nat (length (V3Gallery.allVisibleItems s)) →
  let s' := foldl v3Move s moves in
  let j := (i + displacement moves) mod Z.of_nat (length (V3Gallery.allVisibleItems s)) in
  V3Gallery.currentIndex s' = JS.Int j
  ∧ V3Gallery.allVisibleItems s' = V3Gallery.allVisibleItems s
  ∧ V3Gallery.galleryItems s' = V3Gallery.galleryItems s
  ∧ (moves ≠ [] →
     ∃ ref item, V3Gallery.allVisibleItems s !! Z.to_nat j = Some ref
                 ∧ V3Gallery.galleryItems s !! ref = Some item
                 ∧ V3Gallery.lightboxImg s' = Gallery.href item
                 ∧ V3Gallery.lightboxCaption s' = default "" (Gallery.caption item)
                 ∧ DOM.contains (V3Gallery.lightbox s') "active" = true).
Proof.
  induction moves as [|m moves IH] using rev_ind; intros s i Hv Hcur Hi; simpl.
  - rewrite Z.add_0_r, Z.mod_small by done. by repeat split.
  - rewrite foldl_app. simpl.
    destruct (IH s i Hv Hcur Hi) as (Hc & Hal & Hit & _).
    set (s1 := foldl v3Move s moves) in *.
    set (n := Z.of_nat (length (V3Gallery.allVisibleItems s))) in *.
    assert (Hv1 : GalleryFrame.validRefs s1).
    { intros p r. rewrite Hal, Hit. apply Hv. }
    assert (Hi1 : 0 ≤ (i + displacement moves) mod n
                  < Z.of_nat (length (V3Gallery.allVisibleItems s1))).
    { rewrite Hal. apply mod_in_range. unfold n in *. lia. }
    destruct (v3_move_step s1 _ m Hv1 Hc Hi1) as (ref & item & Href & Hitem & Hmove).
    rewrite Hal in Href, Hmove. rewrite Hit in Hitem. fold n in Href, Hmove.
    assert (Hj : ((i + displacement moves) mod n + step m) mod n
                 = (i + displacement (moves ++ [m])) mod n).
    { rewrite displacement_snoc, Z.add_mod_idemp_l by (unfold n; lia).
      f_equal. lia. }
    rewrite Hj in Href, Hmove.
    assert (E : v3Move s1 m
                = V3Gallery.setLightbox (DOM.add (V3Gallery.lightbox s1) "active")
                    (V3Gallery.setCaption (default "" (Gallery.caption item))
                       (V3Gallery.setImg (Gallery.href item)
                          (V3Gallery.setIndex
                             (JS.Int ((i + displacement (moves ++ [m])) mod n)) s1)))).
    { unfold v3Move. destruct m; by rewrite Hmove. }
    rewrite E. simpl. repeat (split; [done|]).
    intros _. exists ref, item. repeat (split; [done|]). apply contains_add.
Qed.

End WalkFacts.

(** X17. main.js lightbox: from a cursor i inside the image list of
    length N, any sequence of next and prev activations leaves the
    cursor at (i + d) mod N, where d is the number of next minus the
    number of prev activations, and the lightbox then shows the source
    and caption of the image at that position; the image list and the
    pictures never change.  So N times next, or next followed by prev,
    come back to the same picture. *)
Theorem lightbox_walk_main
    (s : MainGallery.state) (i : Z) (moves : list Navigation.move) :
  MainGallery.currentIndex s = JS.Int i →
  (0 ≤ i < Z.of_nat (length (MainGallery.images s)))%Z →
  let s' := foldl Navigation.mainMove s moves in
  let j := ((i + Navigation.displacement moves)
            mod Z.of_nat (length (MainGallery.images s)))%Z in
  MainGallery.currentIndex s' = JS.Int j
  ∧ MainGallery.images s' = MainGallery.images s
  ∧ MainGallery.galleryItems s' = MainGallery.galleryItems s
  ∧ (moves ≠ [] →
     ∃ img, MainGallery.images s !! Z.to_nat j = Some img
            ∧ MainGallery.lightboxImg s' = MainGallery.src img
            ∧ MainGallery.lightboxCaption s' = default "" (MainGallery.img_caption img)
            ∧ DOM.contains (MainGallery.lightbox s') "active" = true)
  ∧ (MainGallery.currentIndex
       (foldl Navigation.mainMove s
          (replicate (length (MainGallery.images s)) Navigation.Next)) = JS.Int i
     ∧ MainGallery.currentIndex
         (foldl Navigation.mainMove s [Navigation.Next; Navigation.Prev]) = JS.Int i
     ∧ MainGallery.currentIndex
         (foldl Navigation.mainMove s [Navigation.Prev; Navigation.Next]) = JS.Int i).
Proof.
  intros Hcur Hi s' j.
  destruct (main_walk moves s i Hcur Hi) as (H1 & H2 & H3 & H4).
  repeat (split; [done|]).
  assert (Hrep : ∀ k, Navigation.displacement (replicate k Navigation.Next)
                      = Z.of_nat k).
  { induction k as [|k IH]; [done|]. unfold Navigation.displacement in *. simpl.
    rewrite IH. lia. }
  split; [|split].
  - destruct (main_walk (replicate (length (MainGallery.images s)) Navigation.Next)
                s i Hcur Hi) as (-> & _).
    f_equal. rewrite Hrep.
    replace (i + Z.of_nat (length (MainGallery.images s)))%Z
      with (i + 1 * Z.of_nat (length (MainGallery.images s)))%Z by lia.
    rewrite Z_mod_plus_full. by apply Z.mod_small.
  - destruct (main_walk [Navigation.Next; Navigation.Prev] s i Hcur Hi) as (-> & _).
    f_equal. simpl. rewrite Z.add_0_r. by apply Z.mod_small.
  - destruct (main_walk [Navigation.Prev; Navigation.Next] s i Hcur Hi) as (-> & _).
    f_equal. simpl. rewrite Z.add_0_r. by apply Z.mod_small.
Qed.

Lemma lightbox_walk_main_witness :
  MainGallery.currentIndex Examples.openedMain = JS.Int 2
  ∧ (0 ≤ 2 < Z.of_nat (length (MainGallery.images Examples.openedMain)))%Z
  ∧ MainGallery.currentIndex
      (foldl Navigation.mainMove Examples.openedMain
         [Navigation.Next; Navigation.Next; Navigation.Prev; Navigation.Next])
    = JS.Int ((2 + Navigation.displacement
                     [Navigation.Next; Navigation.Next; Navigation.Prev; Navigation.Next])
              mod Z.of_nat (length (MainGallery.images Examples.openedMain)))%Z.
Proof.
  assert (Hc : MainGallery.currentIndex Examples.openedMain = JS.Int 2) by reflexivity.
  assert (Hr : (0 ≤ 2 < Z.of_nat (length (MainGallery.images Examples.openedMain)))%Z)
    by (vm_compute; split; [discriminate | reflexivity]).
  split; [exact Hc | split; [exact Hr |]].
  exact (proj1 (lightbox_walk_main Examples.openedMain 2
                  [Navigation.Next; Navigation.Next; Navigation.Prev; Navigation.Next]
                  Hc Hr)).
Defined.

(** X18. script.js lightbox: the same for the visible list.  From a
    cursor i inside a visible list of length N that refers to pictures
    of the page, any sequence of next and prev activations leaves the
    cursor at (i + d) mod N and shows the source and caption of the
    picture the visible list holds at that position; the visible list
    is not recomputed by next and prev. *)
Theorem lightbox_walk_script
    (s : V3Gallery.state) (i : Z) (moves : list Navigation.move) :
  GalleryFrame.validRefs s →
  V3Gallery.currentIndex s = JS.Int i →
  (0 ≤ i < Z.of_nat (length (V3Gallery.allVisibleItems s)))%Z →
  let s' := foldl Navigation.v3Move s moves in
  let j := ((i + Navigation.displacement moves)
            mod Z.of_nat (length (V3Gallery.allVisibleItems s)))%Z in
  V3Gallery.currentIndex s' = JS.Int j
  ∧ V3Gallery.allVisibleItems s' = V3Gallery.allVisibleItems s
  ∧ V3Gallery.galleryItems s' = V3Gallery.galleryItems s
  ∧ (moves ≠ [] →
     ∃ ref item, V3Gallery.allVisibleItems s !! Z.to_nat j = Some ref
                 ∧ V3Gallery.galleryItems s !! ref = Some item
                 ∧ V3Gallery.lightboxImg s' = Gallery.href item
                 ∧ V3Gallery.lightboxCaption s' = default "" (Gallery.caption item)
                 ∧ DOM.contains (V3Gallery.lightbox s') "active" = true).
Proof. intros Hv Hcur Hi. by apply v3_walk. Qed.

Lemma lightbox_walk_script_witness :
  GalleryFrame.validRefs Examples.openedV3
  ∧ V3Gallery.currentIndex Examples.openedV3 = JS.Int 2
  ∧ (0 ≤ 2 < Z.of_nat (length (V3Gallery.allVisibleItems Examples.openedV3)))%Z
  ∧ V3Gallery.currentIndex
      (foldl Navigation.v3Move Examples.openedV3 [Navigation.Next; Navigation.Next])
    = JS.Int ((2 + Navigation.displacement [Navigation.Next; Navigation.Next])
              mod Z.of_nat (length (V3Gallery.allVisibleItems Examples.openedV3)))%Z.
Proof.
  assert (Hv : GalleryFrame.validRefs Examples.openedV3).
  { intros p r Hp. apply list_elem_of_lookup_2 in Hp.
    change (V3Gallery.allVisibleItems Examples.openedV3) with [0; 1; 2]%nat in Hp.
    change (length (V3Gallery.galleryItems Examples.openedV3)) with 3%nat.
    rewrite !elem_of_cons, elem_of_nil in Hp. lia. }
  assert (Hc : V3Gallery.currentIndex Examples.openedV3 = JS.Int 2) by reflexivity.
  assert (Hr : (0 ≤ 2 < Z.of_nat (length (V3Gallery.allVisibleItems Examples.openedV3)))%Z)
    by (vm_compute; split; [discriminate | reflexivity]).
  split; [exact Hv | split; [exact Hc | split; [exact Hr |]]].
  exact (proj1 (lightbox_walk_script Examples.openedV3 2
                  [Navigation.Next; Navigation.Next] Hv Hc Hr)).
Defined.

(** ** Gallery filter, continued *)

Section FilterAgreement.
Import Gallery.

Lemma main_filter_flush (b : nat) (s : MainGallery.state) :
  MainGallery.timers s = [] →
  let s' := MainGallery.flush (MainGallery.onFilterClick b s) in
  MainGallery.timers s' = []
  ∧ MainGallery.filterButtons s'
    = match MainGallery.filterButtons s !! b with
      | Some _ => activate b (MainGallery.filterButtons s)
      | None => MainGallery.filterButtons s
      end
  ∧ MainGallery.galleryItems s'
    = match MainGallery.filterButtons s !! b with
      | Some btn =>
          (λ it, setDisplay (if matches (filter_ btn) it then "block" else "none") it)
            <$> MainGallery.galleryItems s
      | None => MainGallery.galleryItems s
      end.
Proof.
  intros Ht s'. unfold s'. rewrite flush_fired. simpl.
  split; [done|]. unfold MainGallery.onFilterClick.
  destruct (MainGallery.filterButtons s !! b) as [btn|] eqn:Hb; simpl.
  - split; [done|]. rewrite Ht. simpl. apply list_eq. intros i.
    rewrite fired_lookup, !list_lookup_fmap.
    destruct (MainGallery.galleryItems s !! i) as [it|] eqn:Hi; [|done]. simpl.
    f_equal.
    destruct (matches (filter_ btn) it) eqn:Hm.
    + rewrite bool_decide_eq_true_2; [done|].
      apply elem_of_scheduled. exists it. rewrite Nat.sub_0_r. split; [lia | done].
    + rewrite bool_decide_eq_false_2; [done|].
      rewrite elem_of_scheduled. intros (it' & _ & Hl & Hm').
      rewrite Nat.sub_0_r, Hi in Hl. congruence.
  - split; [done|]. by rewrite Ht.
Qed.

End FilterAgreement.

(** X19. The two filters agree once the timers of main.js have fired.
    Starting from the same pictures and controls, with no timer pending,
    any sequence of filter clicks, each followed in main.js by the
    firing of its timers, leaves the two pages with the same displays
    and the same active control, and main.js with no timer pending. *)
Theorem filter_versions_agree
    (clicks : list nat) (s3 : V3Gallery.state) (sm : MainGallery.state) :
  MainGallery.timers sm = [] →
  MainGallery.galleryItems sm = V3Gallery.galleryItems s3 →
  MainGallery.filterButtons sm = V3Gallery.filterButtons s3 →
  let s3' := foldl (λ s b, V3Gallery.onFilterClick b s) s3 clicks in
  let sm' := foldl (λ s b, MainGallery.flush (MainGallery.onFilterClick b s)) sm clicks in
  MainGallery.galleryItems sm' = V3Gallery.galleryItems s3'
  ∧ MainGallery.filterButtons sm' = V3Gallery.filterButtons s3'
  ∧ MainGallery.timers sm' = [].
Proof.
  revert s3 sm. induction clicks as [|b clicks IH]; intros s3 sm Ht Hi Hb; simpl.
  - done.
  - destruct (main_filter_flush b sm Ht) as (Ht1 & Hb1 & Hi1).
    apply IH; [exact Ht1 | |].
    + rewrite Hi1, Hb, Hi. unfold V3Gallery.onFilterClick.
      by destruct (V3Gallery.filterButtons s3 !! b).
    + rewrite Hb1, Hb. unfold V3Gallery.onFilterClick.
      by destruct (V3Gallery.filterButtons s3 !! b).
Qed.

Lemma filter_versions_agree_witness :
  MainGallery.timers Examples.galleryMain = []
  ∧ MainGallery.galleryItems Examples.galleryMain
    = V3Gallery.galleryItems Examples.galleryV3
  ∧ MainGallery.filterButtons Examples.galleryMain
    = V3Gallery.filterButtons Examples.galleryV3
  ∧ MainGallery.galleryItems
      (foldl (λ s b, MainGallery.flush (MainGallery.onFilterClick b s))
             Examples.galleryMain [1; 2; 0]%nat)
    = V3Gallery.galleryItems
        (foldl (λ s b, V3Gallery.onFilterClick b s) Examples.galleryV3 [1; 2; 0]%nat).
Proof.
  assert (Ht : MainGallery.timers Examples.galleryMain = []) by reflexivity.
  assert (Hi : MainGallery.galleryItems Examples.galleryMain
               = V3Gallery.galleryItems Examples.galleryV3) by reflexivity.
  assert (Hb : MainGallery.filterButtons Examples.galleryMain
               = V3Gallery.filterButtons Examples.galleryV3) by reflexivity.
  split; [exact Ht | split; [exact Hi | split; [exact Hb |]]].
  exact (proj1 (filter_versions_agree [1; 2; 0]%nat Examples.galleryV3
                  Examples.galleryMain Ht Hi Hb)).
Defined.

(** ** Room thumbnails *)

Section RoomFacts.
Import RoomGallery.
Implicit Types (th : thumb) (thumbs : list thumb).

Lemma isActive_add th : isActive (setClasses (λ cl, DOM.add cl "active") th) = true.
Proof. apply contains_add. Qed.

Lemma isActive_remove th : isActive (setClasses (λ cl, DOM.remove cl "active") th) = false.
Proof. apply contains_remove. Qed.

Lemma currentActive_Some g thumbs k :
  currentActive g thumbs = Some k →
  ∃ tk, thumbs !! k = Some tk ∧ g ∈ inside tk ∧ isActive tk = true.
Proof.
  unfold currentActive. destruct (list_find _ thumbs) as [[k' tk]|] eqn:E; [|done].
  simpl. intros [= <-]. apply list_find_Some in E as (Hk & [Hg Ha] & _).
  by exists tk.
Qed.

Lemma currentActive_None g thumbs j tj :
  currentActive g thumbs = None →
  thumbs !! j = Some tj → g ∈ inside tj → isActive tj = false.
Proof.
  unfold currentActive. destruct (list_find _ thumbs) as [[k' tk]|] eqn:E; [done|].
  intros _ Hj Hg. apply list_find_None in E.
  rewrite Forall_lookup in E. specialize (E j tj Hj).
  destruct (isActive tj); [|done]. exfalso. by apply E.
Qed.

(** What the move of the marker does to each thumbnail. *)
Lemma moveActive_lookup i th thumbs j tj' :
  moveActive i th thumbs !! j = Some tj' →
  ∃ tj, thumbs !! j = Some tj
        ∧ img tj' = img tj ∧ group tj' = group tj ∧ inside tj' = inside tj
        ∧ (∀ t, t ≠ "active" → t ∈ classList tj' ↔ t ∈ classList tj)
        ∧ (j = i → isActive tj' = true)
        ∧ (j ≠ i →
           isActive tj'
           = isActive tj && negb (bool_decide (takenFrom th thumbs = Some j))).
Proof.
  unfold moveActive. rewrite list_lookup_alter.
  set (thumbs1 := match takenFrom th thumbs with
                  | Some k => alter _ k thumbs
                  | None => thumbs
                  end).
  assert (H1 : ∀ t1, thumbs1 !! j = Some t1 →
            ∃ tj, thumbs !! j = Some tj
                  ∧ img t1 = img tj ∧ group t1 = group tj ∧ inside t1 = inside tj
                  ∧ (∀ t, t ≠ "active" → t ∈ classList t1 ↔ t ∈ classList tj)
                  ∧ isActive t1
                    = isActive tj
                      && negb (bool_decide (takenFrom th thumbs = Some j))).
  { intros t1. unfold thumbs1. destruct (takenFrom th thumbs) as [k|] eqn:Hk.
    - rewrite list_lookup_alter. destruct (decide (k = j)) as [->|Hne].
      + destruct (thumbs !! j) as [tj|]; [|done]. simpl. intros [= <-].
        exists tj. repeat (split; [done|]). split.
        * intros t Ht. simpl. rewrite elem_of_remove. tauto.
        * rewrite isActive_remove, bool_decide_eq_true_2 by done.
          by rewrite andb_false_r.
      + intros Hj. exists t1. repeat (split; [done|]).
        rewrite bool_decide_eq_false_2 by congruence. by rewrite andb_true_r.
    - intros Hj. exists t1. repeat (split; [done|]).
      rewrite bool_decide_eq_false_2 by congruence. by rewrite andb_true_r. }
  destruct (decide (i = j)) as [->|Hne].
  - destruct (thumbs1 !! j) as [t1|] eqn:Ht1; [|done]. simpl. intros [= <-].
    destruct (H1 t1 eq_refl) as (tj & Hj & Hi & Hg & Hin & Htok & _).
    exists tj. repeat (split; [done|]). split; [|split; [|done]].
    + intros t Ht. simpl. rewrite elem_of_add, <- (Htok t Ht). tauto.
    + intros _. apply isActive_add.
  - intros Hj. destruct (H1 tj' Hj) as (tj & Hl & Hi & Hg & Hin & Htok & Ha).
    exists tj. repeat (split; [done|]). by intros _.
Qed.


Lemma unnested_inside thumbs j tj g :
  unnested thumbs → thumbs !! j = Some tj →
  g ∈ inside tj ↔ group tj = Some g.
Proof.
  intros Hflat Hj. unfold unnested in Hflat. rewrite Forall_lookup in Hflat.
  rewrite (Hflat j tj Hj). destruct (group tj) as [g'|]; simpl.
  - rewrite list_elem_of_singleton. split; congruence.
  - rewrite elem_of_nil. split; [done | discriminate].
Qed.

Lemma moveActive_unnested i th thumbs :
  unnested thumbs → unnested (moveActive i th thumbs).
Proof.
  unfold unnested. rewrite !Forall_lookup. intros Hflat j tj' Hj.
  destruct (moveActive_lookup i th thumbs j tj' Hj) as (tj & Hl & _ & Hg & Hin & _).
  rewrite Hg, Hin. by apply (Hflat j).
Qed.

Lemma moveActive_exclusive i th thumbs g j tj' :
  unnested thumbs →
  oneActivePerGroup thumbs →
  group th = Some g →
  moveActive i th thumbs !! j = Some tj' →
  g ∈ inside tj' →
  isActive tj' = true ↔ j = i.
Proof.
  intros Hflat Hone Hg Hj Hgj.
  destruct (moveActive_lookup i th thumbs j tj' Hj)
    as (tj & Hl & _ & Hgr & Hin & _ & Hi & Hni).
  rewrite Hin in Hgj.
  split; [|exact Hi].
  intros Ha. destruct (decide (j = i)) as [|Hne]; [done|]. exfalso.
  rewrite (Hni Hne) in Ha. apply andb_true_iff in Ha as [Ha Hnot].
  apply negb_true_iff, bool_decide_eq_false in Hnot.
  apply Hnot. unfold takenFrom. rewrite Hg.
  destruct (currentActive g thumbs) as [k|] eqn:Hk.
  - destruct (currentActive_Some g thumbs k Hk) as (tk & Hlk & Hgk & Hak).
    f_equal. by apply (Hone k j tk tj g).
  - rewrite (currentActive_None g thumbs j tj Hk Hl Hgj) in Ha. discriminate.
Qed.

Lemma moveActive_keeps_one i th thumbs :
  thumbs !! i = Some th →
  unnested thumbs →
  oneActivePerGroup thumbs →
  oneActivePerGroup (moveActive i th thumbs).
Proof.
  intros Hi Hflat Hone i1 i2 t1 t2 g H1 H2 Hg1 Hg2 Ha1 Ha2.
  destruct (decide (group th = Some g)) as [Hg|Hg].
  - apply (moveActive_exclusive i th thumbs g i1 t1 Hflat Hone Hg H1 Hg1) in Ha1.
    apply (moveActive_exclusive i th thumbs g i2 t2 Hflat Hone Hg H2 Hg2) in Ha2.
    congruence.
  - destruct (moveActive_lookup i th thumbs i1 t1 H1)
      as (u1 & Hl1 & _ & _ & Hin1 & _ & _ & Hn1).
    destruct (moveActive_lookup i th thumbs i2 t2 H2)
      as (u2 & Hl2 & _ & _ & Hin2 & _ & _ & Hn2).
    rewrite Hin1 in Hg1. rewrite Hin2 in Hg2.
    assert (Hne1 : i1 ≠ i).
    { intros ->. apply Hg. apply (unnested_inside thumbs i th g Hflat Hi).
      congruence. }
    assert (Hne2 : i2 ≠ i).
    { intros ->. apply Hg. apply (unnested_inside thumbs i th g Hflat Hi).
      congruence. }
    rewrite (Hn1 Hne1) in Ha1. rewrite (Hn2 Hne2) in Ha2.
    apply andb_true_iff in Ha1 as [Ha1 _]. apply andb_true_iff in Ha2 as [Ha2 _].
    by apply (Hone i1 i2 u1 u2 g).
Qed.

Lemma room_flush_fired (s : state) :
  flush s
  = State (thumbnails s)
          (foldl (λ els t, alter (swap t) (mainImageEl t) els) (elements s) (timers s))
          [].
Proof.
  unfold flush. remember (timers s) as ts eqn:Hts.
  revert s Hts. induction ts as [|t ts IH]; intros s Hts; simpl.
  - destruct s. simpl in *. by subst.
  - assert (Hstep : onTimeout s
              = State (thumbnails s) (alter (swap t) (mainImageEl t) (elements s)) ts).
    { unfold onTimeout. by rewrite <- Hts. }
    rewrite Hstep. by rewrite IH.
Qed.

(** After the timers [ts ++ [t]] have fired, the element of the last
    one is as that one left it. *)
Lemma fired_last (ts : list timer) (t : timer) (els : gmap string picture) el :
  els !! mainImageEl t = Some el →
  ∃ el', foldl (λ acc u, alter (swap u) (mainImageEl u) acc) els (ts ++ [t])
           !! mainImageEl t = Some (swap t el')
         ∧ (is_Some (sourceWebp el') ↔ is_Some (sourceWebp el))
         ∧ (is_Some (sourceJpg el') ↔ is_Some (sourceJpg el)).
Proof.
  intros Hel. rewrite foldl_app. simpl.
  assert (H : ∀ (els0 : gmap string picture) el0,
            els0 !! mainImageEl t = Some el0 →
            (is_Some (sourceWebp el0) ↔ is_Some (sourceWebp el)) →
            (is_Some (sourceJpg el0) ↔ is_Some (sourceJpg el)) →
            ∃ el', foldl (λ acc u, alter (swap u) (mainImageEl u) acc) els0 ts
                     !! mainImageEl t = Some el'
                   ∧ (is_Some (sourceWebp el') ↔ is_Some (sourceWebp el))
                   ∧ (is_Some (sourceJpg el') ↔ is_Some (sourceJpg el))).
  { clear Hel. induction ts as [|u ts IH]; intros els0 el0 H0 Hw Hj; simpl.
    - by exists el0.
    - destruct (decide (mainImageEl u = mainImageEl t)) as [E|E].
      + apply (IH _ (swap u el0)).
        * rewrite E, lookup_alter_eq, H0. done.
        * rewrite <- Hw. simpl. by rewrite fmap_is_Some.
        * rewrite <- Hj. simpl. by rewrite fmap_is_Some.
      + apply (IH _ el0); [|done|done]. by rewrite lookup_alter_ne. }
  destruct (H els el Hel) as (el' & Hl & Hw & Hj); [done|done|].
  exists el'. by rewrite lookup_alter_eq, Hl.
Qed.

End RoomFacts.

Lemma const_fmap_is_Some {A B : Type} (x : B) (a b : option A) :
  (is_Some a ↔ is_Some b) → (λ _, x) <$> a = (λ _, x) <$> b.
Proof.
  intros H. destruct a as [a|], b as [b|]; simpl; try done.
  - destruct (proj1 H (mk_is_Some _ _ eq_refl)) as [? [=]].
  - destruct (proj2 H (mk_is_Some _ _ eq_refl)) as [? [=]].
Qed.



(** X21. Room thumbnails, the same mousedown once every pending timer
    has fired, whatever timers of earlier clicks were pending: the
    target element is shown again (opacity "1") with the jpg source of
    the clicked thumbnail; the jpeg and webp [source] elements of its
    parent, where the parent has them, carry the jpg and the webp source
    of the thumbnail (the text "undefined" when the thumbnail has no webp
    source); no timer is left and the thumbnails are as the click left
    them. *)
Theorem thumbnail_image_after_fade
    (s : RoomGallery.state) (i : nat) (th : RoomGallery.thumb)
    (ti : RoomGallery.thumbImg) (el : RoomGallery.picture) :
  RoomGallery.thumbnails s !! i = Some th →
  RoomGallery.img th = Some ti →
  RoomGallery.elements s !! default "undefined" (RoomGallery.target ti) = Some el →
  RoomGallery.isActive th = false →
  let s1 := fst (RoomGallery.onMouseDown i s) in
  let s2 := RoomGallery.flush s1 in
  RoomGallery.elements s2 !! default "undefined" (RoomGallery.target ti)
  = Some (RoomGallery.Picture "1" (RoomGallery.jpgOf ti)
            ((λ _, default "undefined" (RoomGallery.fullWebp ti))
               <$> RoomGallery.sourceWebp el)
            ((λ _, RoomGallery.jpgOf ti) <$> RoomGallery.sourceJpg el))
  ∧ RoomGallery.timers s2 = []
  ∧ RoomGallery.thumbnails s2 = RoomGallery.thumbnails s1.
Proof.
  intros Hi Himg Hel Hact s1 s2.
  assert (E : s1 = RoomGallery.State
                     (RoomGallery.moveActive i th (RoomGallery.thumbnails s))
                     (<[default "undefined" (RoomGallery.target ti) :=
                          RoomGallery.Picture "0" (RoomGallery.src el)
                            (RoomGallery.sourceWebp el) (RoomGallery.sourceJpg el)]>
                        (RoomGallery.elements s))
                     (RoomGallery.timers s
                      ++ [RoomGallery.Timer
                            (default "undefined" (RoomGallery.target ti))
                            (RoomGallery.fullWebp ti) (RoomGallery.jpgOf ti)])).
  { unfold s1, RoomGallery.onMouseDown. by rewrite Hi, Himg, Hel, Hact. }
  unfold s2. rewrite room_flush_fired. simpl. split; [|done].
  rewrite E. simpl.
  set (t := RoomGallery.Timer (default "undefined" (RoomGallery.target ti))
              (RoomGallery.fullWebp ti) (RoomGallery.jpgOf ti)).
  destruct (fired_last (RoomGallery.timers s) t
              (<[default "undefined" (RoomGallery.target ti) :=
                   RoomGallery.Picture "0" (RoomGallery.src el)
                     (RoomGallery.sourceWebp el) (RoomGallery.sourceJpg el)]>
                 (RoomGallery.elements s))
              (RoomGallery.Picture "0" (RoomGallery.src el)
                 (RoomGallery.sourceWebp el) (RoomGallery.sourceJpg el)))
    as (el' & Hl & Hw & Hj).
  { simpl. apply lookup_insert_eq. }
  simpl in Hl, Hw, Hj. rewrite Hl. unfold RoomGallery.swap. simpl.
  f_equal. f_equal; by apply const_fmap_is_Some.
Qed.

Lemma thumbnail_image_after_fade_witness :
  RoomGallery.thumbnails Scenes.roomPage !! 1%nat
  = Some (RoomGallery.Thumb
            (Some (RoomGallery.ThumbImg (Some "deluxe-main") (Some "img/deluxe-2.webp")
                     None))
            ["thumbnail-item"] (Some 0%nat) [0%nat])
  ∧ RoomGallery.elements
      (RoomGallery.flush (fst (RoomGallery.onMouseDown 1 Scenes.roomPage)))
      !! "deluxe-main"
    = Some (RoomGallery.Picture "1" "img/deluxe-2.jpg"
              (Some "img/deluxe-2.webp") (Some "img/deluxe-2.jpg")).
Proof.
  assert (Hi : RoomGallery.thumbnails Scenes.roomPage !! 1%nat
               = Some (RoomGallery.Thumb
                         (Some (RoomGallery.ThumbImg (Some "deluxe-main")
                                  (Some "img/deluxe-2.webp") None))
                         ["thumbnail-item"] (Some 0%nat) [0%nat])) by reflexivity.
  assert (Hel : RoomGallery.elements Scenes.roomPage
                  !! default "undefined"
                       (RoomGallery.target
                          (RoomGallery.ThumbImg (Some "deluxe-main")
                             (Some "img/deluxe-2.webp") None))
                = Some (RoomGallery.Picture "" "img/deluxe-1.jpg"
                          (Some "img/deluxe-1.webp") (Some "img/deluxe-1.jpg")))
    by (vm_compute; reflexivity).
  split; [exact Hi|].
  exact (proj1 (thumbnail_image_after_fade Scenes.roomPage 1 _ _ _ Hi eq_refl Hel
                  eq_refl)).
Defined.

(** X22. Room thumbnails over any sequence of mousedowns and timers: no
    thumbnail and no target element is added or removed, and every
    thumbnail keeps its image and its place in the galleries.  On a page
    where no gallery lies in another, if every gallery had at most one
    active thumbnail at the start it has at most one throughout.  A
    mousedown on a thumbnail that is already active, or whose target
    element does not exist, changes nothing; one on a thumbnail without
    image throws and changes nothing. *)
Theorem thumbnails_one_active_per_gallery
    (evs : list RoomGallery.event) (s : RoomGallery.state) (i : nat) :
  (let s' := RoomGallery.run evs s in
   (λ th, (RoomGallery.img th, RoomGallery.group th, RoomGallery.inside th)) <$> RoomGallery.thumbnails s'
   = (λ th, (RoomGallery.img th, RoomGallery.group th, RoomGallery.inside th)) <$> RoomGallery.thumbnails s
   ∧ dom (RoomGallery.elements s') = dom (RoomGallery.elements s)
   ∧ (RoomGallery.unnested (RoomGallery.thumbnails s) →
      RoomGallery.oneActivePerGroup (RoomGallery.thumbnails s) →
      RoomGallery.oneActivePerGroup (RoomGallery.thumbnails s')))
  ∧ match RoomGallery.thumbnails s !! i with
    | None => RoomGallery.onMouseDown i s = (s, JS.Normal)
    | Some th =>
        match RoomGallery.img th with
        | None => RoomGallery.onMouseDown i s = (s, JS.TypeError)
        | Some ti =>
            RoomGallery.isActive th = true
            ∨ RoomGallery.elements s !! default "undefined" (RoomGallery.target ti)
              = None →
            RoomGallery.onMouseDown i s = (s, JS.Normal)
        end
    end.
Proof.
  split.
  - revert s. induction evs as [|ev evs IH]; intros s; [done|].
    change (RoomGallery.run (ev :: evs) s)
      with (RoomGallery.run evs (fst (RoomGallery.dispatch ev s))).
    destruct (IH (fst (RoomGallery.dispatch ev s))) as (Hs & Hd & Hone).
    cbv zeta. rewrite Hs, Hd.
    assert (Hstep :
      (λ th, (RoomGallery.img th, RoomGallery.group th, RoomGallery.inside th))
        <$> RoomGallery.thumbnails (fst (RoomGallery.dispatch ev s))
      = (λ th, (RoomGallery.img th, RoomGallery.group th, RoomGallery.inside th)) <$> RoomGallery.thumbnails s
      ∧ dom (RoomGallery.elements (fst (RoomGallery.dispatch ev s)))
        = dom (RoomGallery.elements s)
      ∧ (RoomGallery.unnested (RoomGallery.thumbnails s) →
         RoomGallery.unnested (RoomGallery.thumbnails (fst (RoomGallery.dispatch ev s))))
      ∧ (RoomGallery.unnested (RoomGallery.thumbnails s) →
         RoomGallery.oneActivePerGroup (RoomGallery.thumbnails s) →
         RoomGallery.oneActivePerGroup
           (RoomGallery.thumbnails (fst (RoomGallery.dispatch ev s))))).
    { destruct ev as [k|]; simpl.
      - unfold RoomGallery.onMouseDown.
        destruct (RoomGallery.thumbnails s !! k) as [th|] eqn:Hk; [|done].
        destruct (RoomGallery.img th) as [ti|]; [|done].
        destruct (RoomGallery.elements s !! _) as [el|] eqn:Hel; [|done].
        destruct (RoomGallery.isActive th); [done|]. simpl.
        split; [|split; [|split]].
        + apply list_eq. intros j. rewrite !list_lookup_fmap.
          destruct (RoomGallery.moveActive k th (RoomGallery.thumbnails s) !! j)
            as [tj'|] eqn:Hj.
          * destruct (moveActive_lookup k th _ j tj' Hj)
              as (tj & Hl & H1 & H2 & H3 & _).
            rewrite Hl. simpl. by rewrite H1, H2, H3.
          * apply lookup_ge_None in Hj.
            unfold RoomGallery.moveActive in Hj.
            rewrite length_alter in Hj.
            destruct (RoomGallery.takenFrom th (RoomGallery.thumbnails s));
              rewrite ?length_alter in Hj;
              by rewrite (proj2 (lookup_ge_None _ _) Hj).
        + rewrite dom_insert_L. apply set_eq. intros x.
          rewrite elem_of_union, elem_of_singleton. split; [|tauto].
          intros [-> | ?]; [|done]. apply elem_of_dom. by eexists.
        + apply moveActive_unnested.
        + by apply moveActive_keeps_one.
      - unfold RoomGallery.onTimeout.
        destruct (RoomGallery.timers s) as [|t rest]; [done|]. simpl.
        split; [done|]. split; [|done].
        apply set_eq. intros x. by rewrite !elem_of_dom, lookup_alter_is_Some. }
    destruct Hstep as (Hs1 & Hd1 & Hflat1 & Hone1).
    split; [done|]. split; [done|]. intros Hf H0.
    apply Hone; [by apply Hflat1 | by apply Hone1].
  - unfold RoomGallery.onMouseDown.
    destruct (RoomGallery.thumbnails s !! i) as [th|]; [|done].
    destruct (RoomGallery.img th) as [ti|]; [|done].
    intros [-> | ->]; [|done].
    by destruct (RoomGallery.elements s !! _).
Qed.

Lemma thumbnails_one_active_per_gallery_witness :
  RoomGallery.unnested (RoomGallery.thumbnails Scenes.roomPage)
  ∧ RoomGallery.oneActivePerGroup (RoomGallery.thumbnails Scenes.roomPage)
  ∧ RoomGallery.oneActivePerGroup
      (RoomGallery.thumbnails
         (RoomGallery.run [RoomGallery.MouseDown 1; RoomGallery.TimerFires;
                           RoomGallery.MouseDown 0] Scenes.roomPage)).
Proof.
  assert (H0 : RoomGallery.oneActivePerGroup (RoomGallery.thumbnails Scenes.roomPage)).
  { intros i j ti tj g Hi Hj _ _ Hai Haj.
    destruct i as [|[|i]], j as [|[|j]]; simpl in Hi, Hj; try done;
      injection Hi as <-; injection Hj as <-; discriminate. }
  assert (Hf : RoomGallery.unnested (RoomGallery.thumbnails Scenes.roomPage))
    by (apply (bool_decide_unpack _); vm_compute; reflexivity).
  split; [exact Hf|]. split; [exact H0|].
  exact (proj2 (proj2 (proj1
    (thumbnails_one_active_per_gallery
       [RoomGallery.MouseDown 1; RoomGallery.TimerFires; RoomGallery.MouseDown 0]
       Scenes.roomPage 0))) Hf H0).
Defined.

(** With a gallery inside another the marker is taken from the inner
    gallery: a mousedown on the last thumbnail of the outer gallery
    removes "active" from the thumbnail of the inner one, the first
    active descendant, and leaves two active thumbnails whose nearest
    gallery is the outer one. *)
Example nested_galleries_marker_from_inner :
  ¬ RoomGallery.unnested Scenes.nestedThumbs
  ∧ RoomGallery.group <$> Scenes.nestedThumbs = [Some 1; Some 0; Some 0]%nat
  ∧ RoomGallery.isActive <$> Scenes.nestedThumbs = [true; true; false]
  ∧ snd (RoomGallery.onMouseDown 2 Scenes.nestedPage) = JS.Normal
  ∧ RoomGallery.isActive
      <$> RoomGallery.thumbnails (fst (RoomGallery.onMouseDown 2 Scenes.nestedPage))
    = [false; true; true].
Proof.
  split; [|by vm_compute].
  apply (bool_decide_eq_false_1 (RoomGallery.unnested Scenes.nestedThumbs)).
  vm_compute. reflexivity.
Qed.

Section JpgFacts.
Import RoomGallery.

Lemma prefix_other_head (c d : Ascii.ascii) (pat s : string) :
  Ascii.eqb c d = false → String.prefix (String c pat) (String d s) = false.
Proof.
  intros H. simpl. destruct (Ascii.ascii_dec c d) as [->|]; [|done].
  by rewrite Ascii.eqb_refl in H.
Qed.

Lemma replace_extension (base : string) :
  hasChar dot base = false →
  replaceFirst ".webp" ".jpg" (base +:+ ".webp") = base +:+ ".jpg".
Proof.
  induction base as [|c base IH]; intros Hdot; [reflexivity|].
  simpl in Hdot. apply orb_false_iff in Hdot as [Hc Hrest].
  change (String c base +:+ ".webp") with (String c (base +:+ ".webp")).
  assert (Hp : String.prefix ".webp" (String c (base +:+ ".webp")) = false)
    by exact (prefix_other_head dot c "webp" (base +:+ ".webp") Hc).
  unfold replaceFirst. fold replaceFirst. rewrite Hp. by rewrite IH.
Qed.

Lemma truthy_append (base : string) : JS.truthy (base +:+ ".webp") = true.
Proof. by destruct base. Qed.

End JpgFacts.

(** X23. Room thumbnails, the jpg source a click uses.  A non-empty
    [data-full-jpg] is used as it is.  Without one (missing or empty),
    a webp source whose only dot is that of its ".webp" extension gives
    the same path with the extension ".jpg"; without webp source either
    the jpg source is the empty string. *)
Theorem thumbnail_jpg_source
    (target webp : option string) (jpg base : string) :
  RoomGallery.hasChar RoomGallery.dot base = false →
  (JS.truthy jpg = true →
   RoomGallery.jpgOf (RoomGallery.ThumbImg target webp (Some jpg)) = jpg)
  ∧ RoomGallery.jpgOf (RoomGallery.ThumbImg target (Some (base +:+ ".webp")) None)
    = base +:+ ".jpg"
  ∧ RoomGallery.jpgOf (RoomGallery.ThumbImg target (Some (base +:+ ".webp")) (Some ""))
    = base +:+ ".jpg"
  ∧ RoomGallery.jpgOf (RoomGallery.ThumbImg target None None) = ""
  ∧ RoomGallery.jpgOf (RoomGallery.ThumbImg target (Some "") (Some "")) = "".
Proof.
  intros Hdot. split; [|split; [|split; [|split]]]; try reflexivity.
  - intros Hj. unfold RoomGallery.jpgOf. simpl. by rewrite Hj.
  - unfold RoomGallery.jpgOf. simpl. rewrite truthy_append.
    by apply replace_extension.
  - unfold RoomGallery.jpgOf. simpl. rewrite truthy_append.
    by apply replace_extension.
Qed.

Lemma thumbnail_jpg_source_witness :
  RoomGallery.hasChar RoomGallery.dot "img/deluxe-2" = false
  ∧ RoomGallery.jpgOf
      (RoomGallery.ThumbImg (Some "deluxe-main") (Some ("img/deluxe-2" +:+ ".webp")) None)
    = "img/deluxe-2" +:+ ".jpg".
Proof.
  assert (Hdot : RoomGallery.hasChar RoomGallery.dot "img/deluxe-2" = false) by reflexivity.
  split; [exact Hdot|].
  exact (proj1 (proj2 (thumbnail_jpg_source (Some "deluxe-main") None "x"
                         "img/deluxe-2" Hdot))).
Defined.

(** ** Contact form *)

Section FormFacts.
Import ContactForm.

Lemma dispatch_settled dis classes text sent ev s :
  settled dis classes text sent s →
  settled dis classes text (sent || isSubmit ev) (fst (dispatch ev s)).
Proof.
  intros [Hheld Htext]. destruct s as [d cl txt fs ps pr]. simpl in *.
  destruct ev as [|i v| |]; simpl.
  - rewrite orb_true_r. split; simpl; [intros _; lia|].
    destruct Htext as [H | [[H ?] | [H ?]]]; [by left | right; left; by split |].
    right; right. split; [done | intros _; lia].
  - rewrite orb_false_r. by split.
  - rewrite orb_false_r. unfold onSubmitTimer. simpl.
    destruct ps as [|n]; [by split|].
    destruct sent.
    + destruct Htext as [H | [[H ?] | [H ?]]]; subst txt; simpl;
        (split; simpl;
         [intros [? | Hin]; [done | apply elem_of_remove in Hin; tauto]
         | right; left; split; [done | lia]]).
    + destruct Hheld as (_ & _ & _ & Hps & _). discriminate.
  - rewrite orb_false_r. unfold onRevertTimer. simpl.
    destruct pr as [|n]; [by split|].
    destruct sent.
    + destruct Htext as [H | [[H ?] | [H ?]]]; subst txt; simpl;
        (split; simpl; [done | by left]).
    + destruct Hheld as (_ & _ & _ & _ & Hpr). discriminate.
Qed.

Lemma run_settled dis classes text evs : ∀ sent s,
  settled dis classes text sent s →
  settled dis classes text (sent || existsb isSubmit evs) (run evs s).
Proof.
  unfold run. induction evs as [|ev evs IH]; intros sent s Hs; simpl.
  - by rewrite orb_false_r.
  - rewrite orb_assoc. by apply IH, dispatch_settled.
Qed.

Lemma loaded_settled dis classes text fs :
  settled dis classes text false (loaded dis classes (Some text) fs).
Proof.
  split; simpl; [done|]. right; right. by split.
Qed.

(** Without [.btn-text] no listener ever resets the form or schedules a
    3000 ms timer. *)
Lemma dispatch_no_text ev s :
  btnText s = None → pendingRevert s = 0%nat →
  btnText (fst (dispatch ev s)) = None
  ∧ pendingRevert (fst (dispatch ev s)) = 0%nat
  ∧ fields (fst (dispatch ev s))
    = match ev with
      | Input i v => alter (λ f, (v, snd f)) i (fields s)
      | _ => fields s
      end.
Proof.
  intros Ht Hr. destruct s as [dis cl txt fs ps pr]. simpl in *. subst.
  destruct ev as [|i v| |]; simpl; try done.
  unfold onSubmitTimer. simpl. by destruct ps.
Qed.

End FormFacts.

(** X24. Contact form, over any sequence of submissions, inputs and
    timers after the page load, whatever state the markup gives the
    button.  Until the form is first submitted the button is as the
    markup has it (disabled or not, its classes, its text) and no timer
    is pending.  Once the form has been submitted, or from the load on
    when the markup has the button enabled and not loading, the button
    is disabled or loading only while a 2000 ms timer is pending; so
    once no timer is pending the button is enabled and not loading, and
    its text is "Submit Inquiry" if the form was submitted, and
    otherwise either the text of the page or "Submit Inquiry".  The
    success text stands only while a 3000 ms timer is pending. *)
Theorem contact_form_settles
    (dis : bool) (classes : list string) (text : string)
    (fs : list (string * string)) (evs : list ContactForm.event) :
  let s := ContactForm.run evs (ContactForm.loaded dis classes (Some text) fs) in
  (existsb ContactForm.isSubmit evs = false →
   ContactForm.disabled s = dis
   ∧ ContactForm.submitBtn s = classes
   ∧ ContactForm.btnText s = Some text
   ∧ ContactForm.pendingSubmit s = 0%nat
   ∧ ContactForm.pendingRevert s = 0%nat)
  ∧ (existsb ContactForm.isSubmit evs = true
     ∨ (dis = false ∧ "loading" ∉ classes) →
     (ContactForm.disabled s = true ∨ "loading" ∈ ContactForm.submitBtn s →
      (0 < ContactForm.pendingSubmit s)%nat)
     ∧ (ContactForm.pendingSubmit s = 0%nat → ContactForm.pendingRevert s = 0%nat →
        ContactForm.disabled s = false
        ∧ ("loading" ∉ ContactForm.submitBtn s)
        ∧ (ContactForm.btnText s = Some "Submit Inquiry"
           ∨ (ContactForm.btnText s = Some text
              ∧ existsb ContactForm.isSubmit evs = false))))
  ∧ (ContactForm.btnText s = Some "Submitted Successfully!" →
     text ≠ "Submitted Successfully!" → (0 < ContactForm.pendingRevert s)%nat).
Proof.
  intros s.
  destruct (run_settled dis classes text evs false _
              (loaded_settled dis classes text fs)) as [Hheld Htext].
  fold s in Hheld, Htext. simpl in Hheld, Htext.
  split; [|split].
  - intros Hno. rewrite Hno in Hheld. exact Hheld.
  - intros Hcase.
    assert (Hrel : ContactForm.disabled s = true ∨ "loading" ∈ ContactForm.submitBtn s →
                   (0 < ContactForm.pendingSubmit s)%nat).
    { destruct (existsb ContactForm.isSubmit evs) eqn:Hsent; [exact Hheld|].
      destruct Hcase as [? | [Hdis Hcl]]; [discriminate|].
      destruct Hheld as (Hd & Hc & _). rewrite Hd, Hc, Hdis.
      intros [? | ?]; [discriminate | contradiction]. }
    split; [exact Hrel|].
    intros Hps Hpr. split; [|split].
    + destruct (ContactForm.disabled s) eqn:E; [|done].
      assert (0 < ContactForm.pendingSubmit s)%nat by (apply Hrel; by left). lia.
    + intros Hin.
      assert (0 < ContactForm.pendingSubmit s)%nat by (apply Hrel; by right). lia.
    + destruct Htext as [H | [[_ ?] | [H Hsent]]]; [by left | lia |].
      right. split; [done|].
      destruct (existsb ContactForm.isSubmit evs); [|done].
      specialize (Hsent eq_refl). lia.
  - intros Hs Hne. destruct Htext as [H | [[_ ?] | [H _]]]; [|done|]; congruence.
Qed.

(** A button that the markup has disabled stays so until the form is
    submitted, and is released by the timer of that submission. *)
Lemma contact_form_settles_witness :
  ContactForm.disabled
    (ContactForm.run [ContactForm.Input 0 "a"; ContactForm.SubmitTimer]
       (ContactForm.loaded true ["btn"] (Some "Send") [("", "")]))
  = true
  ∧ ContactForm.disabled
      (ContactForm.run [ContactForm.Submit; ContactForm.SubmitTimer;
                        ContactForm.RevertTimer]
         (ContactForm.loaded true ["btn"] (Some "Send") [("", "")]))
    = false.
Proof.
  split.
  - exact (proj1 (proj1 (contact_form_settles true ["btn"] "Send" [("", "")]
                           [ContactForm.Input 0 "a"; ContactForm.SubmitTimer])
                    eq_refl)).
  - exact (proj1 (proj2 (proj1 (proj2
             (contact_form_settles true ["btn"] "Send" [("", "")]
                [ContactForm.Submit; ContactForm.SubmitTimer;
                 ContactForm.RevertTimer]))
             (or_introl eq_refl)) eq_refl eq_refl)).
Defined.

(** X25. Contact form without [.btn-text] in the button: whatever
    happens, the form is never reset and no 3000 ms timer is ever
    scheduled; each 2000 ms timer releases the button and then throws.
    And [initContactForm] itself throws when the page has the form but
    no [#submit-btn], and registers nothing. *)
Theorem contact_form_without_text
    (dis : bool) (classes : list string) (fs : list (string * string))
    (evs : list ContactForm.event) :
  let s := ContactForm.run evs (ContactForm.loaded dis classes None fs) in
  ContactForm.btnText s = None
  ∧ ContactForm.pendingRevert s = 0%nat
  ∧ snd <$> ContactForm.fields s = snd <$> fs
  ∧ (¬ (∃ i v, ContactForm.Input i v ∈ evs) → ContactForm.fields s = fs)
  ∧ ((0 < ContactForm.pendingSubmit s)%nat →
     snd (ContactForm.dispatch ContactForm.SubmitTimer s) = JS.TypeError
     ∧ ContactForm.disabled (fst (ContactForm.dispatch ContactForm.SubmitTimer s))
       = false
     ∧ ContactForm.fields (fst (ContactForm.dispatch ContactForm.SubmitTimer s))
       = ContactForm.fields s)
  ∧ ContactForm.initContactForm true false = (false, JS.TypeError)
  ∧ ContactForm.initContactForm false false = (false, JS.Normal).
Proof.
  intros s.
  assert (H : ∀ s0, ContactForm.btnText s0 = None → ContactForm.pendingRevert s0 = 0%nat →
            let s1 := ContactForm.run evs s0 in
            ContactForm.btnText s1 = None ∧ ContactForm.pendingRevert s1 = 0%nat
            ∧ snd <$> ContactForm.fields s1 = snd <$> ContactForm.fields s0
            ∧ (¬ (∃ i v, ContactForm.Input i v ∈ evs) →
               ContactForm.fields s1 = ContactForm.fields s0)).
  { unfold ContactForm.run. clear s.
    induction evs as [|ev evs IH]; intros s0 Ht Hr; simpl; [done|].
    destruct (dispatch_no_text ev s0 Ht Hr) as (Ht1 & Hr1 & Hf1).
    destruct (IH _ Ht1 Hr1) as (Ht2 & Hr2 & Hf2 & Hf3).
    split; [done|]. split; [done|]. split.
    - rewrite Hf2, Hf1. destruct ev as [|i v| |]; try done.
      apply list_eq. intros j. rewrite !list_lookup_fmap, list_lookup_alter.
      destruct (decide (i = j)) as [->|]; [|done].
      by destruct (ContactForm.fields s0 !! j).
    - intros Hno. rewrite Hf3.
      + rewrite Hf1. destruct ev as [|i v| |]; try done.
        exfalso. apply Hno. exists i, v. by left.
      + intros (i & v & Hin). apply Hno. exists i, v. by right. }
  destruct (H (ContactForm.loaded dis classes None fs) eq_refl eq_refl)
    as (Ht & Hr & Hf & Hf').
  fold s in Ht, Hr, Hf, Hf'. simpl in Hf, Hf'.
  repeat (split; [done|]). split; [|done].
  intros Hp. simpl. unfold ContactForm.onSubmitTimer.
  destruct (ContactForm.pendingSubmit s) as [|n]; [lia|]. by rewrite Ht.
Qed.

(** ** Initialization *)

Ltac settle :=
  intuition (subst; simpl in *; try discriminate; try congruence; eauto).

Section WiringFacts.
Import Wiring.

Lemma andThen_ends (a b : code) :
  snd (a ⨟ b) = JS.Normal ↔ snd a = JS.Normal ∧ snd b = JS.Normal.
Proof.
  unfold andThen. destruct a as [la [|]], b as [lb [|]]; simpl; settle.
Qed.

Lemma andThen_registers (l : listener) (a b : code) :
  l ∈ fst (a ⨟ b) ↔ l ∈ fst a ∨ (snd a = JS.Normal ∧ l ∈ fst b).
Proof.
  unfold andThen. destruct a as [la [|]]; simpl.
  - rewrite elem_of_app. settle.
  - settle.
Qed.

Lemma andThen_registers_normal (l : listener) (a b : code) :
  snd a = JS.Normal → (l ∈ fst (a ⨟ b) ↔ l ∈ fst a ∨ l ∈ fst b).
Proof. intros Ha. rewrite andThen_registers. tauto. Qed.

Lemma isZero_true (n : nat) : isZero n = true ↔ n = 0.
Proof. unfold isZero. apply Nat.eqb_eq. Qed.

Lemma isZero_false (n : nat) : isZero n = false ↔ n ≠ 0.
Proof. unfold isZero. apply Nat.eqb_neq. Qed.

Lemma registerEach_ends (n : nat) (l : listener) :
  snd (registerEach n l) = JS.Normal.
Proof. by destruct n. Qed.

Lemma registerEach_registers (n : nat) (l l' : listener) :
  l' ∈ fst (registerEach n l) ↔ l' = l ∧ n ≠ 0.
Proof.
  destruct n; simpl.
  - rewrite elem_of_nil. settle.
  - rewrite list_elem_of_singleton. settle.
Qed.

Lemma registerOn_ends (b : bool) (l : listener) :
  snd (registerOn b l) = JS.Normal ↔ b = true.
Proof. destruct b; simpl; settle. Qed.

Lemma registerOn_registers (b : bool) (l l' : listener) :
  l' ∈ fst (registerOn b l) ↔ l' = l ∧ b = true.
Proof.
  destruct b; simpl.
  - rewrite list_elem_of_singleton. settle.
  - rewrite elem_of_nil. settle.
Qed.

Lemma register_registers (l l' : listener) :
  l' ∈ fst (register l) ↔ l' = l.
Proof. simpl. apply list_elem_of_singleton. Qed.

Lemma skip_registers (l : listener) : l ∈ fst skip ↔ False.
Proof. simpl. rewrite elem_of_nil. settle. Qed.

Lemma lightboxListeners_ends (p : page) :
  snd (lightboxListeners p) = JS.Normal
  ↔ lightboxClose p = true ∧ lightboxPrev p = true ∧ lightboxNext p = true.
Proof.
  unfold lightboxListeners.
  rewrite !andThen_ends, !registerOn_ends. simpl. settle.
Qed.

Lemma lightboxListeners_registers (p : page) (l : listener) :
  l ∈ fst (lightboxListeners p)
  ↔ (l = CloseClick ∧ lightboxClose p = true)
    ∨ (l = PrevClick ∧ lightboxClose p = true ∧ lightboxPrev p = true)
    ∨ ((l = NextClick ∨ l = BackdropClick ∨ l = KeyDown)
       ∧ lightboxClose p = true ∧ lightboxPrev p = true
       ∧ lightboxNext p = true).
Proof.
  unfold lightboxListeners.
  rewrite !andThen_registers, !registerOn_registers, !registerOn_ends,
    !register_registers.
  simpl. settle.
Qed.

(** The three tail components of a gallery initializer. *)
Lemma gallery_body_ends (p : page) :
  snd (registerEach (filterButtons p) FilterClick ⨟
       registerEach (galleryItems p) ItemClick ⨟ lightboxListeners p)
  = JS.Normal
  ↔ lightboxClose p = true ∧ lightboxPrev p = true ∧ lightboxNext p = true.
Proof.
  rewrite !andThen_ends, lightboxListeners_ends.
  pose proof (registerEach_ends (filterButtons p) FilterClick).
  pose proof (registerEach_ends (galleryItems p) ItemClick).
  settle.
Qed.

Lemma gallery_body_registers (p : page) (l : listener) :
  l ∈ fst (registerEach (filterButtons p) FilterClick ⨟
           registerEach (galleryItems p) ItemClick ⨟ lightboxListeners p)
  ↔ (l = FilterClick ∧ filterButtons p ≠ 0)
    ∨ (l = ItemClick ∧ galleryItems p ≠ 0)
    ∨ l ∈ fst (lightboxListeners p).
Proof.
  rewrite !andThen_registers, !registerEach_registers.
  pose proof (registerEach_ends (filterButtons p) FilterClick).
  pose proof (registerEach_ends (galleryItems p) ItemClick).
  settle.
Qed.

(** main.js, one function at a time *)

Lemma main_header_ends p : snd (MainInit.initHeaderManager p) = JS.Normal.
Proof. unfold MainInit.initHeaderManager. by destruct (header p). Qed.

Lemma main_header_registers p l :
  l ∈ fst (MainInit.initHeaderManager p) ↔ l = HeaderScroll ∧ header p = true.
Proof.
  unfold MainInit.initHeaderManager. destruct (header p).
  - rewrite register_registers. settle.
  - rewrite skip_registers. settle.
Qed.

Lemma main_nav_ends p : snd (MainInit.initMobileNavigation p) = JS.Normal.
Proof.
  unfold MainInit.initMobileNavigation.
  by destruct (menuButton p && mainNav p).
Qed.

Lemma main_nav_registers p l :
  l ∈ fst (MainInit.initMobileNavigation p)
  ↔ l = MenuClick ∧ menuButton p = true ∧ mainNav p = true.
Proof.
  unfold MainInit.initMobileNavigation.
  destruct (menuButton p), (mainNav p); simpl;
    rewrite ?list_elem_of_singleton, ?elem_of_nil; settle.
Qed.

Lemma main_theme_ends p : snd (MainInit.initThemeManager p) = JS.Normal.
Proof. unfold MainInit.initThemeManager. by destruct (themeToggle p). Qed.

Lemma main_theme_registers p l :
  l ∈ fst (MainInit.initThemeManager p)
  ↔ (l = ThemeToggleClick ∨ l = SystemThemeChange) ∧ themeToggle p = true.
Proof.
  unfold MainInit.initThemeManager. destruct (themeToggle p).
  - rewrite andThen_registers, !register_registers. simpl. settle.
  - rewrite skip_registers. settle.
Qed.

Lemma main_scroll_ends p : snd (MainInit.initScrollObserver p) = JS.Normal.
Proof.
  unfold MainInit.initScrollObserver. by destruct (isZero (animated p)).
Qed.

Lemma main_scroll_registers p l :
  l ∈ fst (MainInit.initScrollObserver p) ↔ l = FadeObserver ∧ animated p ≠ 0.
Proof.
  unfold MainInit.initScrollObserver.
  destruct (isZero (animated p)) eqn:E.
  - apply isZero_true in E. rewrite skip_registers. settle.
  - apply isZero_false in E. rewrite register_registers. settle.
Qed.

Lemma main_room_ends p : snd (MainInit.initRoomGallery p) = JS.Normal.
Proof.
  unfold MainInit.initRoomGallery.
  destruct (isZero (thumbnails p)); [done|apply registerEach_ends].
Qed.

Lemma main_room_registers p l :
  l ∈ fst (MainInit.initRoomGallery p) ↔ l = ThumbMouseDown ∧ thumbnails p ≠ 0.
Proof.
  unfold MainInit.initRoomGallery.
  destruct (isZero (thumbnails p)) eqn:E.
  - apply isZero_true in E. rewrite skip_registers. settle.
  - rewrite registerEach_registers. settle.
Qed.

Lemma main_form_ends p :
  snd (MainInit.initContactForm p) = JS.Normal
  ↔ (contactForm p = true → submitBtn p = true).
Proof.
  unfold MainInit.initContactForm. destruct (contactForm p).
  - rewrite registerOn_ends. settle.
  - simpl. settle.
Qed.

Lemma main_form_registers p l :
  l ∈ fst (MainInit.initContactForm p)
  ↔ l = FormSubmit ∧ contactForm p = true ∧ submitBtn p = true.
Proof.
  unfold MainInit.initContactForm. destruct (contactForm p).
  - rewrite registerOn_registers. settle.
  - rewrite skip_registers. settle.
Qed.

Lemma main_policy_ends p : snd (MainInit.initPolicyNavObserver p) = JS.Normal.
Proof.
  unfold MainInit.initPolicyNavObserver.
  by destruct (isZero (policyNavLinks p) || isZero (policySections p)).
Qed.

Lemma main_policy_registers p l :
  l ∈ fst (MainInit.initPolicyNavObserver p)
  ↔ l = PolicyObserver ∧ policyNavLinks p ≠ 0 ∧ policySections p ≠ 0.
Proof.
  unfold MainInit.initPolicyNavObserver.
  destruct (isZero (policyNavLinks p)) eqn:E1,
    (isZero (policySections p)) eqn:E2; simpl;
    first [apply isZero_true in E1 | apply isZero_false in E1];
    first [apply isZero_true in E2 | apply isZero_false in E2];
    rewrite ?list_elem_of_singleton, ?elem_of_nil; settle.
Qed.

Lemma main_gallery_ends p :
  snd (MainInit.initGalleryPage p) = JS.Normal
  ↔ (filterButtons p ≠ 0 → lightbox p = true →
     lightboxClose p = true ∧ lightboxPrev p = true ∧ lightboxNext p = true).
Proof.
  unfold MainInit.initGalleryPage.
  destruct (isZero (filterButtons p)) eqn:E1, (lightbox p); simpl negb;
    cbv iota beta delta [orb];
    first [apply isZero_true in E1 | apply isZero_false in E1];
    rewrite ?gallery_body_ends; simpl; settle.
Qed.

Lemma main_gallery_registers p l :
  l ∈ fst (MainInit.initGalleryPage p)
  ↔ filterButtons p ≠ 0 ∧ lightbox p = true
    ∧ (l = FilterClick
       ∨ (l = ItemClick ∧ galleryItems p ≠ 0)
       ∨ l ∈ fst (lightboxListeners p)).
Proof.
  unfold MainInit.initGalleryPage.
  destruct (isZero (filterButtons p)) eqn:E1, (lightbox p); simpl negb;
    cbv iota beta delta [orb];
    first [apply isZero_true in E1 | apply isZero_false in E1];
    rewrite ?gallery_body_registers, ?skip_registers; settle.
Qed.

(** script.js *)

Lemma v3_gallery_ends p :
  snd (V3Init.initGallery p) = JS.Normal
  ↔ (galleryGrid p = true → lightbox p = true →
     lightboxClose p = true ∧ lightboxPrev p = true ∧ lightboxNext p = true).
Proof.
  unfold V3Init.initGallery.
  destruct (galleryGrid p), (lightbox p); simpl negb; cbv iota;
    rewrite ?gallery_body_ends; simpl; settle.
Qed.

Lemma v3_gallery_registers p l :
  l ∈ fst (V3Init.initGallery p)
  ↔ galleryGrid p = true ∧ lightbox p = true
    ∧ ((l = FilterClick ∧ filterButtons p ≠ 0)
       ∨ (l = ItemClick ∧ galleryItems p ≠ 0)
       ∨ l ∈ fst (lightboxListeners p)).
Proof.
  unfold V3Init.initGallery.
  destruct (galleryGrid p), (lightbox p); simpl negb; cbv iota;
    rewrite ?gallery_body_registers, ?skip_registers; settle.
Qed.

Lemma v3_before_gallery_ends p :
  snd (V3Init.initMobileNav p) = JS.Normal
  ∧ snd (V3Init.initThemeToggle p) = JS.Normal
  ∧ snd (V3Init.initGlassmorphismHeader p) = JS.Normal
  ∧ snd (V3Init.initScrollAnimations p) = JS.Normal.
Proof.
  unfold V3Init.initMobileNav, V3Init.initThemeToggle,
    V3Init.initGlassmorphismHeader, V3Init.initScrollAnimations.
  by destruct (menuButton p), (themeToggle p), (header p).
Qed.

Lemma v3_mobile_registers p l :
  l ∈ fst (V3Init.initMobileNav p) ↔ l = MenuClick ∧ menuButton p = true.
Proof.
  unfold V3Init.initMobileNav. destruct (menuButton p).
  - rewrite register_registers. settle.
  - rewrite skip_registers. settle.
Qed.

Lemma v3_theme_registers p l :
  l ∈ fst (V3Init.initThemeToggle p)
  ↔ l = ThemeToggleClick ∧ themeToggle p = true.
Proof.
  unfold V3Init.initThemeToggle. destruct (themeToggle p).
  - rewrite register_registers. settle.
  - rewrite skip_registers. settle.
Qed.

Lemma v3_header_registers p l :
  l ∈ fst (V3Init.initGlassmorphismHeader p)
  ↔ l = HeaderScroll ∧ header p = true.
Proof.
  unfold V3Init.initGlassmorphismHeader. destruct (header p).
  - rewrite register_registers. settle.
  - rewrite skip_registers. settle.
Qed.

Lemma v3_scroll_registers p l :
  l ∈ fst (V3Init.initScrollAnimations p)
  ↔ l = FadeObserver ∨ l = StaggerObserver.
Proof.
  unfold V3Init.initScrollAnimations.
  rewrite andThen_registers, !register_registers. simpl. tauto.
Qed.

Lemma v3_attractions_registers p l :
  l ∈ fst (V3Init.initAttractionsNav p)
  ↔ l = AttractionsObserver ∧ attractionsNav p = true ∧ header p = true.
Proof.
  unfold V3Init.initAttractionsNav.
  destruct (attractionsNav p), (header p); simpl;
    rewrite ?list_elem_of_singleton, ?elem_of_nil; settle.
Qed.

Lemma v3_policy_registers p l :
  l ∈ fst (V3Init.initPolicyNav p)
  ↔ l = PolicyObserver ∧ policyNav p = true ∧ header p = true.
Proof.
  unfold V3Init.initPolicyNav.
  destruct (policyNav p), (header p); simpl;
    rewrite ?list_elem_of_singleton, ?elem_of_nil; settle.
Qed.

Lemma v3_attractions_ends p :
  snd (V3Init.initAttractionsNav p) = JS.Normal
  ↔ (attractionsNav p = true → header p = true).
Proof.
  unfold V3Init.initAttractionsNav.
  destruct (attractionsNav p), (header p); simpl; settle.
Qed.

Lemma v3_policy_ends p :
  snd (V3Init.initPolicyNav p) = JS.Normal
  ↔ (policyNav p = true → header p = true).
Proof.
  unfold V3Init.initPolicyNav.
  destruct (policyNav p), (header p); simpl; settle.
Qed.

Lemma main_init_registers p l :
  l ∈ fst (MainInit.init p)
  ↔ (l = HeaderScroll ∧ header p = true)
    ∨ (l = MenuClick ∧ menuButton p = true ∧ mainNav p = true)
    ∨ ((l = ThemeToggleClick ∨ l = SystemThemeChange) ∧ themeToggle p = true)
    ∨ (l = FadeObserver ∧ animated p ≠ 0)
    ∨ (l = ThumbMouseDown ∧ thumbnails p ≠ 0)
    ∨ (l = FormSubmit ∧ contactForm p = true ∧ submitBtn p = true)
    ∨ ((contactForm p = true → submitBtn p = true)
       ∧ ((l = PolicyObserver ∧ policyNavLinks p ≠ 0 ∧ policySections p ≠ 0)
          ∨ (filterButtons p ≠ 0 ∧ lightbox p = true
             ∧ (l = FilterClick
                ∨ (l = ItemClick ∧ galleryItems p ≠ 0)
                ∨ l ∈ fst (lightboxListeners p))))).
Proof.
  unfold MainInit.init.
  rewrite (andThen_registers_normal _ _ _ (main_header_ends p)).
  rewrite (andThen_registers_normal _ _ _ (main_nav_ends p)).
  rewrite (andThen_registers_normal _ _ _ (main_theme_ends p)).
  rewrite (andThen_registers_normal _ _ _ (main_scroll_ends p)).
  rewrite (andThen_registers_normal _ _ _ (main_room_ends p)).
  rewrite andThen_registers, main_form_ends.
  rewrite (andThen_registers_normal _ _ _ (main_policy_ends p)).
  rewrite main_header_registers, main_nav_registers, main_theme_registers,
    main_scroll_registers, main_room_registers, main_form_registers,
    main_policy_registers, main_gallery_registers.
  reflexivity.
Qed.

Lemma v3_init_registers p l :
  l ∈ fst (V3Init.init p)
  ↔ (l = MenuClick ∧ menuButton p = true)
    ∨ (l = ThemeToggleClick ∧ themeToggle p = true)
    ∨ (l = HeaderScroll ∧ header p = true)
    ∨ (l = FadeObserver ∨ l = StaggerObserver)
    ∨ (galleryGrid p = true ∧ lightbox p = true
       ∧ ((l = FilterClick ∧ filterButtons p ≠ 0)
          ∨ (l = ItemClick ∧ galleryItems p ≠ 0)
          ∨ l ∈ fst (lightboxListeners p)))
    ∨ ((galleryGrid p = true → lightbox p = true →
        lightboxClose p = true ∧ lightboxPrev p = true
        ∧ lightboxNext p = true)
       ∧ ((l = AttractionsObserver ∧ attractionsNav p = true
           ∧ header p = true)
          ∨ ((attractionsNav p = true → header p = true)
             ∧ l = PolicyObserver ∧ policyNav p = true
             ∧ header p = true))).
Proof.
  unfold V3Init.init.
  destruct (v3_before_gallery_ends p) as (H1 & H2 & H3 & H4).
  rewrite (andThen_registers_normal _ _ _ H1).
  rewrite (andThen_registers_normal _ _ _ H2).
  rewrite (andThen_registers_normal _ _ _ H3).
  rewrite (andThen_registers_normal _ _ _ H4).
  rewrite andThen_registers, v3_gallery_ends.
  rewrite andThen_registers, v3_attractions_ends.
  rewrite v3_gallery_registers, v3_mobile_registers, v3_theme_registers,
    v3_header_registers, v3_scroll_registers, v3_attractions_registers,
    v3_policy_registers.
  reflexivity.
Qed.

End WiringFacts.

(** X26.  main.js, [init]: the eight initializers all run to the end
    exactly when a contact form on the page comes with its
    [#submit-btn], and a gallery page (filter buttons and a lightbox)
    has the three lightbox controls; on any other page [init] ends in a
    TypeError. *)
Theorem main_init_completes_iff :
  ∀ p : Wiring.page,
    snd (MainInit.init p) = JS.Normal
    ↔ (Wiring.contactForm p = true → Wiring.submitBtn p = true)
      ∧ (Wiring.filterButtons p ≠ 0 → Wiring.lightbox p = true →
         Wiring.lightboxClose p = true ∧ Wiring.lightboxPrev p = true
         ∧ Wiring.lightboxNext p = true).
Proof.
  intros p. unfold MainInit.init.
  rewrite !andThen_ends.
  rewrite main_form_ends, main_gallery_ends.
  pose proof (main_header_ends p). pose proof (main_nav_ends p).
  pose proof (main_theme_ends p). pose proof (main_scroll_ends p).
  pose proof (main_room_ends p). pose proof (main_policy_ends p).
  settle.
Qed.

(** X27.  main.js, [init]: which listeners a page load leaves
    registered.  The five components before the contact form are wired
    exactly when their own elements exist; the policy scroll-spy and the
    gallery, which come after it, are wired only if, in addition, the
    contact form did not throw; the lightbox key listener needs all
    three lightbox controls as well. *)
Theorem main_init_wiring :
  ∀ p : Wiring.page,
    let ls := fst (MainInit.init p) in
    let formRuns :=
      Wiring.contactForm p = true → Wiring.submitBtn p = true in
    (Wiring.HeaderScroll ∈ ls ↔ Wiring.header p = true)
    ∧ (Wiring.MenuClick ∈ ls
       ↔ Wiring.menuButton p = true ∧ Wiring.mainNav p = true)
    ∧ (Wiring.ThemeToggleClick ∈ ls ↔ Wiring.themeToggle p = true)
    ∧ (Wiring.SystemThemeChange ∈ ls ↔ Wiring.themeToggle p = true)
    ∧ (Wiring.FadeObserver ∈ ls ↔ Wiring.animated p ≠ 0)
    ∧ (Wiring.ThumbMouseDown ∈ ls ↔ Wiring.thumbnails p ≠ 0)
    ∧ (Wiring.FormSubmit ∈ ls
       ↔ Wiring.contactForm p = true ∧ Wiring.submitBtn p = true)
    ∧ (Wiring.PolicyObserver ∈ ls
       ↔ formRuns ∧ Wiring.policyNavLinks p ≠ 0
         ∧ Wiring.policySections p ≠ 0)
    ∧ (Wiring.FilterClick ∈ ls
       ↔ formRuns ∧ Wiring.filterButtons p ≠ 0 ∧ Wiring.lightbox p = true)
    ∧ (Wiring.ItemClick ∈ ls
       ↔ formRuns ∧ Wiring.filterButtons p ≠ 0 ∧ Wiring.lightbox p = true
         ∧ Wiring.galleryItems p ≠ 0)
    ∧ (Wiring.KeyDown ∈ ls
       ↔ formRuns ∧ Wiring.filterButtons p ≠ 0 ∧ Wiring.lightbox p = true
         ∧ Wiring.lightboxClose p = true ∧ Wiring.lightboxPrev p = true
         ∧ Wiring.lightboxNext p = true).
Proof.
  intros p ls formRuns. subst ls formRuns.
  repeat match goal with |- _ ∧ _ => split end;
    rewrite main_init_registers, lightboxListeners_registers;
    (split; [intros H; decompose [and or] H; clear H; try discriminate; tauto
            |intros H; tauto]).
Qed.

(** X28.  script.js 3.0, [init]: the seven initializers all run to the
    end exactly when a gallery page (grid and lightbox) has the three
    lightbox controls and a page with an attractions or policy
    navigation also has the [.site-header] whose height the observer's
    margin reads. *)
Theorem script_init_completes_iff :
  ∀ p : Wiring.page,
    snd (V3Init.init p) = JS.Normal
    ↔ (Wiring.galleryGrid p = true → Wiring.lightbox p = true →
       Wiring.lightboxClose p = true ∧ Wiring.lightboxPrev p = true
       ∧ Wiring.lightboxNext p = true)
      ∧ (Wiring.attractionsNav p = true → Wiring.header p = true)
      ∧ (Wiring.policyNav p = true → Wiring.header p = true).
Proof.
  intros p. unfold V3Init.init.
  rewrite !andThen_ends.
  rewrite v3_gallery_ends, v3_attractions_ends, v3_policy_ends.
  pose proof (v3_before_gallery_ends p) as (? & ? & ? & ?).
  settle.
Qed.

(** X29.  script.js 3.0, [init]: the policy scroll-spy, which comes
    last, is created exactly when the page has a [.policy-nav] and a
    [.site-header] and the gallery before it did not throw; the two
    reveal observers are created on every page. *)
Theorem script_init_wiring :
  ∀ p : Wiring.page,
    let ls := fst (V3Init.init p) in
    let galleryRuns :=
      Wiring.galleryGrid p = true → Wiring.lightbox p = true →
      Wiring.lightboxClose p = true ∧ Wiring.lightboxPrev p = true
      ∧ Wiring.lightboxNext p = true in
    Wiring.FadeObserver ∈ ls
    ∧ Wiring.StaggerObserver ∈ ls
    ∧ (Wiring.MenuClick ∈ ls ↔ Wiring.menuButton p = true)
    ∧ (Wiring.ThemeToggleClick ∈ ls ↔ Wiring.themeToggle p = true)
    ∧ (Wiring.HeaderScroll ∈ ls ↔ Wiring.header p = true)
    ∧ (Wiring.KeyDown ∈ ls
       ↔ Wiring.galleryGrid p = true ∧ Wiring.lightbox p = true
         ∧ Wiring.lightboxClose p = true ∧ Wiring.lightboxPrev p = true
         ∧ Wiring.lightboxNext p = true)
    ∧ (Wiring.AttractionsObserver ∈ ls
       ↔ galleryRuns ∧ Wiring.attractionsNav p = true
         ∧ Wiring.header p = true)
    ∧ (Wiring.PolicyObserver ∈ ls
       ↔ galleryRuns ∧ Wiring.policyNav p = true
         ∧ Wiring.header p = true).
Proof.
  intros p ls galleryRuns. subst ls galleryRuns.
  repeat match goal with |- _ ∧ _ => split end;
    rewrite v3_init_registers, lightboxListeners_registers;
    try tauto;
    (split; [intros H; decompose [and or] H; clear H; try discriminate; tauto
            |intros H; tauto]).
Qed.
